(** * galleryinfo_parser: a shallow embedding and its specification

    The development follows [src/galleryinfo_parser/galleryinfo_parser.py]:
    the Python built-ins the parser relies on ([str] methods, [int],
    [datetime.strptime], [os.path]) are modelled first, then the functions
    of the module itself, then the properties of the specification.

    Conventions of the model:
    - a Python [str] is the list of its Unicode code points;
    - a raised exception is a value of [result], and an unbound local
      variable is [None];
    - the file system is a record of the answers the operating system gives
      to the four calls the module makes (POSIX paths);
    - [int] has arbitrary precision, and refuses a literal of more than 4300
      digits: the limit CPython puts on the conversion of a string, at the
      value it has unless the interpreter is told otherwise. *)

From Stdlib Require Import List NArith ZArith String Ascii Bool Lia Permutation.
Import ListNotations.

(** ** Strings *)

Definition char := N.
Definition str := list char.

Definition ch (a : ascii) : char := N_of_ascii a.
Arguments ch a%_char.

(** An ASCII literal of the source as a [str]. *)
Definition lit (s : string) : str := map N_of_ascii (list_ascii_of_string s).
Arguments lit s%_string.

Definition NL : char := 10%N.

Fixpoint str_eqb (a b : str) : bool :=
  match a, b with
  | [], [] => true
  | x :: a', y :: b' => N.eqb x y && str_eqb a' b'
  | _, _ => false
  end.

Fixpoint startswith (s prefix : str) {struct prefix} : bool :=
  match prefix, s with
  | [], _ => true
  | _ :: _, [] => false
  | p :: prefix', x :: s' => N.eqb p x && startswith s' prefix'
  end.

(** [sub in s] *)
Fixpoint str_in (sub s : str) : bool :=
  startswith s sub ||
  match s with
  | [] => false
  | _ :: s' => str_in sub s'
  end.

(** [s.split(sep)] for a separator of one character, the only kind the
    module uses. The result is never empty. *)
Fixpoint split (sep : char) (s : str) : list str :=
  match s with
  | [] => [[]]
  | x :: s' =>
      if N.eqb x sep then [] :: split sep s'
      else match split sep s' with
           | w :: ws => (x :: w) :: ws
           | [] => [[x]]
           end
  end.

(** [s.split(sep, 1)] for a separator of one character. *)
Fixpoint split1 (sep : char) (s : str) : list str :=
  match s with
  | [] => [[]]
  | x :: s' =>
      if N.eqb x sep then [[]; s']
      else match split1 sep s' with
           | w :: ws => (x :: w) :: ws
           | [] => [[x]]
           end
  end.

(** [sep.join(parts)] *)
Fixpoint join (sep : str) (parts : list str) : str :=
  match parts with
  | [] => []
  | [p] => p
  | p :: ps => p ++ sep ++ join sep ps
  end.

(** [s.replace(old, new)] for [old] of one character. *)
Definition replace (old : char) (new : str) (s : str) : str :=
  flat_map (fun x => if N.eqb x old then new else [x]) s.

(** [str.isspace] on one code point (Unicode 14). *)
Definition isspace (c : char) : bool :=
  ((9 <=? c) && (c <=? 13) || (28 <=? c) && (c <=? 32) ||
   (c =? 0x85) || (c =? 0xa0) || (c =? 0x1680) ||
   (0x2000 <=? c) && (c <=? 0x200a) ||
   (c =? 0x2028) || (c =? 0x2029) || (c =? 0x202f) || (c =? 0x205f) ||
   (c =? 0x3000))%N.

Fixpoint lstrip_with (p : char -> bool) (s : str) : str :=
  match s with
  | [] => []
  | x :: s' => if p x then lstrip_with p s' else s
  end.

Definition rstrip_with (p : char -> bool) (s : str) : str :=
  rev (lstrip_with p (rev s)).

Definition strip_with (p : char -> bool) (s : str) : str :=
  rstrip_with p (lstrip_with p s).

(** [s.strip()] *)
Definition strip : str -> str := strip_with isspace.

(** [s.strip(chars)] *)
Definition strip_chars (chars : str) : str -> str :=
  strip_with (fun c => existsb (N.eqb c) chars).

(** The code points of value zero of the decimal digit blocks (category Nd,
    Unicode 14): each is followed by the digits one to nine. *)
Definition decimal_zeros : list N :=
  [0x30; 0x660; 0x6f0; 0x7c0; 0x966; 0x9e6; 0xa66; 0xae6; 0xb66; 0xbe6;
   0xc66; 0xce6; 0xd66; 0xde6; 0xe50; 0xed0; 0xf20; 0x1040; 0x1090; 0x17e0;
   0x1810; 0x1946; 0x19d0; 0x1a80; 0x1a90; 0x1b50; 0x1bb0; 0x1c40; 0x1c50;
   0xa620; 0xa8d0; 0xa900; 0xa9d0; 0xa9f0; 0xaa50; 0xabf0; 0xff10; 0x104a0;
   0x10d30; 0x11066; 0x110f0; 0x11136; 0x111d0; 0x112f0; 0x11450; 0x114d0;
   0x11650; 0x116c0; 0x11730; 0x118e0; 0x11950; 0x11c50; 0x11d50; 0x11da0;
   0x16a60; 0x16ac0; 0x16b50; 0x1d7ce; 0x1d7d8; 0x1d7e2; 0x1d7ec; 0x1d7f6;
   0x1e140; 0x1e2f0; 0x1e950; 0x1fbf0]%N.

(** The decimal value of a code point, when it is a decimal digit. *)
Definition decimal (c : char) : option N :=
  match find (fun z => (z <=? c) && (c <? z + 10))%N decimal_zeros with
  | Some z => Some (c - z)%N
  | None => None
  end.

(** ** Exceptions *)

Inductive exception : Type :=
| ValueError
| UnboundLocalError (name : string)
| FileNotFoundError
| UnicodeDecodeError
| OSError.

Inductive result (A : Type) : Type :=
| Ok (a : A)
| Raise (e : exception).
Arguments Ok {A} a.
Arguments Raise {A} e.

Definition bind {A B : Type} (c : result A) (k : A -> result B) : result B :=
  match c with
  | Ok a => k a
  | Raise e => Raise e
  end.

Notation "x <- c ;; k" := (bind c (fun x => k))
  (at level 61, c at next level, right associativity).
Notation "' p <- c ;; k" := (bind c (fun x => let p := x in k))
  (at level 61, p pattern, c at next level, right associativity).

(** [a, b = l] *)
Definition unpack2 {A : Type} (l : list A) : result (A * A) :=
  match l with
  | [a; b] => Ok (a, b)
  | _ => Raise ValueError
  end.

(** ** [int(s)] on a string *)

(** White space for [int]: ASCII characters are judged by the C table,
    the others by [isspace]. *)
Definition int_isspace (c : char) : bool :=
  if (c <? 127)%N then ((9 <=? c) && (c <=? 13) || (c =? 32))%N else isspace c.

(** Digits with single underscores between them. *)
Fixpoint int_digits (acc : Z) (after_underscore : bool) (s : str) : option Z :=
  match s with
  | [] => if after_underscore then None else Some acc
  | c :: s' =>
      if N.eqb c (ch "_") then
        if after_underscore then None else int_digits acc true s'
      else
        match decimal c with
        | Some d => int_digits (10 * acc + Z.of_N d) false s'
        | None => None
        end
  end.

Definition is_decimal (c : char) : bool :=
  match decimal c with
  | Some _ => true
  | None => false
  end.

(** [sys.get_int_max_str_digits()], as the interpreter starts. *)
Definition int_max_str_digits : N := 4300.

(** The number of digits of a literal; the underscores do not count. *)
Definition digit_count (s : str) : N := N.of_nat (List.length (filter is_decimal s)).

(** The literal after its sign. With more digits than the limit, [int]
    raises the [ValueError] it raises for a malformed literal. *)
Definition int_unsigned (s : str) : option Z :=
  match s with
  | [] => None
  | c :: _ =>
      if N.eqb c (ch "_") then None
      else if (int_max_str_digits <? digit_count s)%N then None
      else int_digits 0 false s
  end.

Definition int_literal (s : str) : option Z :=
  match strip_with int_isspace s with
  | [] => None
  | c :: s' =>
      if N.eqb c (ch "+") then int_unsigned s'
      else if N.eqb c (ch "-") then option_map Z.opp (int_unsigned s')
      else int_unsigned (c :: s')
  end.

Definition int (s : str) : result Z :=
  match int_literal s with
  | Some z => Ok z
  | None => Raise ValueError
  end.

(** ** [os.path] (POSIX) *)

(** [os.path.basename(p)]: what follows the last slash. *)
Definition basename (p : str) : str := last (split (ch "/") p) [].

(** [os.path.join(a, b)] *)
Definition path_join (a b : str) : str :=
  if startswith b (lit "/") then b
  else match a with
       | [] => b
       | _ => if N.eqb (last a 0%N) (ch "/") then a ++ b else a ++ lit "/" ++ b
       end.

(** ** [datetime.datetime.strptime(value, "%Y-%m-%d %H:%M")]

    [_strptime] turns the format into a regular expression, the
    sequence of
    - Y: [\d\d\d\d], then a dash,
    - m: [1[0-2]|0[1-9]|[1-9]], then a dash,
    - d: [3[0-1]|[1-2]\d|0[1-9]|[1-9]| [1-9]], then [\s+],
    - H: [2[0-3]|[0-1]\d|\d], then a colon,
    - M: [[0-5]\d|\d];
    it matches it at the start of the value, demands that nothing remains,
    converts every group with [int] and builds the date. A matcher lists,
    in the order a backtracking engine tries them, the ways to match a prefix
    of its input: the text matched and what is left. *)

Definition matcher := str -> list (str * str).

Definition re_set (p : char -> bool) : matcher :=
  fun s => match s with
           | x :: s' => if p x then [([x], s')] else []
           | [] => []
           end.

Definition re_seq (r1 r2 : matcher) : matcher :=
  fun s =>
    flat_map (fun '(m1, s1) => map (fun '(m2, s2) => (m1 ++ m2, s2)) (r2 s1))
             (r1 s).

Definition re_alt (r1 r2 : matcher) : matcher :=
  fun s => r1 s ++ r2 s.

(** [r*], greedy, for [r] a set of characters. *)
Fixpoint re_star_set (p : char -> bool) (s : str) : list (str * str) :=
  match s with
  | x :: s' =>
      if p x then map (fun '(m, r) => (x :: m, r)) (re_star_set p s') ++ [([], s)]
      else [([], s)]
  | [] => [([], [])]
  end.

Definition re_plus_set (p : char -> bool) : matcher :=
  re_seq (re_set p) (re_star_set p).

Definition re_char (c : char) : matcher := re_set (N.eqb c).
Definition re_range (lo hi : char) : matcher :=
  re_set (fun c => (lo <=? c) && (c <=? hi))%N.
(** [\d] *)
Definition re_digit : matcher :=
  re_set (fun c => match decimal c with Some _ => true | None => false end).

Definition re_Y : matcher :=
  re_seq re_digit (re_seq re_digit (re_seq re_digit re_digit)).
Definition re_m : matcher :=
  re_alt (re_seq (re_char (ch "1")) (re_range (ch "0") (ch "2")))
 (re_alt (re_seq (re_char (ch "0")) (re_range (ch "1") (ch "9")))
         (re_range (ch "1") (ch "9"))).
Definition re_d : matcher :=
  re_alt (re_seq (re_char (ch "3")) (re_range (ch "0") (ch "1")))
 (re_alt (re_seq (re_range (ch "1") (ch "2")) re_digit)
 (re_alt (re_seq (re_char (ch "0")) (re_range (ch "1") (ch "9")))
 (re_alt (re_range (ch "1") (ch "9"))
         (re_seq (re_char (ch " ")) (re_range (ch "1") (ch "9")))))).
Definition re_H : matcher :=
  re_alt (re_seq (re_char (ch "2")) (re_range (ch "0") (ch "3")))
 (re_alt (re_seq (re_range (ch "0") (ch "1")) re_digit)
         re_digit).
Definition re_M : matcher :=
  re_alt (re_seq (re_range (ch "0") (ch "5")) re_digit) re_digit.

(** The groups Y, m, d, H, M of a match. *)
Record groups : Type := {
  group_Y : str; group_m : str; group_d : str; group_H : str; group_M : str
}.

(** All the matches of the whole expression, in order of preference, each
    with the input it leaves. *)
Definition format_regex (s : str) : list (groups * str) :=
  flat_map (fun '(gY, s) =>
  flat_map (fun '(_, s) =>
  flat_map (fun '(gm, s) =>
  flat_map (fun '(_, s) =>
  flat_map (fun '(gd, s) =>
  flat_map (fun '(_, s) =>
  flat_map (fun '(gH, s) =>
  flat_map (fun '(_, s) =>
  map (fun '(gM, s) =>
         ({| group_Y := gY; group_m := gm; group_d := gd;
             group_H := gH; group_M := gM |}, s))
      (re_M s))
  (re_char (ch ":") s)) (re_H s)) (re_plus_set isspace s)) (re_d s))
  (re_char (ch "-") s)) (re_m s)) (re_char (ch "-") s)) (re_Y s).

(** A [datetime] with second and microsecond zero and no time zone, which
    is all the format can produce. *)
Record datetime : Type := {
  year : Z; month : Z; day : Z; hour : Z; minute : Z
}.

Definition is_leap (y : Z) : bool :=
  ((y mod 4 =? 0) && (negb (y mod 100 =? 0) || (y mod 400 =? 0)))%Z.

Definition days_in_month (y m : Z) : Z :=
  if (m =? 2)%Z then (if is_leap y then 29 else 28)%Z
  else if ((m =? 4) || (m =? 6) || (m =? 9) || (m =? 11))%Z then 30%Z
  else 31%Z.

(** The checks of [datetime.date(year, month, day)]. *)
Definition valid_date (y m d : Z) : bool :=
  ((1 <=? y) && (y <=? 9999) && (1 <=? m) && (m <=? 12) &&
   (1 <=? d) && (d <=? days_in_month y m))%Z.

Definition strptime (data_string : str) : result datetime :=
  match format_regex data_string with
  | [] => Raise ValueError
  | (found, rest) :: _ =>
      if negb (str_eqb rest []) then Raise ValueError
      else
        y <- int (group_Y found) ;;
        m <- int (group_m found) ;;
        d <- int (group_d found) ;;
        H <- int (group_H found) ;;
        M <- int (group_M found) ;;
        if valid_date y m d then
          Ok {| year := y; month := m; day := d; hour := H; minute := M |}
        else Raise ValueError
  end.

(** ** The file system

    What the operating system answers to the calls of the module:
    [open(path, "r", encoding="utf-8")] followed by [read()] (with the
    line ends already translated), [os.listdir], [os.path.isfile], and
    [os.path.getmtime] seen through [datetime.fromtimestamp], whose value is
    kept abstract. *)

Record FileSystem : Type := {
  read_text : str -> result str;
  listdir : str -> result (list str);
  isfile : str -> bool;
  getmtime : str -> result Z
}.

Definition count_files_in_directory (fs : FileSystem) (directory_path : str)
  : result Z :=
  names <- listdir fs directory_path ;;
  Ok (Z.of_nat
        (List.length
           (filter (fun f => isfile fs (path_join directory_path f)) names))).

(** ** The record *)

Record GalleryInfoParser : Type := {
  gallery_folder : str;
  gallery_name : str;
  gid : Z;
  files_path : list str;
  modified_time : Z;
  title : str;
  upload_time : datetime;
  galleries_comments : str;
  upload_account : str;
  download_time : datetime;
  tags : list (str * str);
  _pages : Z
}.

(** [GalleryInfoParser.__init__] *)
Definition __init__ (gallery_folder gallery_name : str) (gid : Z)
  (files_path : list str) (modified_time : Z) (title : str)
  (upload_time : datetime) (galleries_comments upload_account : str)
  (download_time : datetime) (tags : list (str * str)) : GalleryInfoParser :=
  {| gallery_folder := gallery_folder;
     gallery_name := gallery_name;
     gid := gid;
     files_path := files_path;
     modified_time := modified_time;
     title := title;
     upload_time := upload_time;
     galleries_comments := galleries_comments;
     upload_account := upload_account;
     download_time := download_time;
     tags := tags;
     _pages := (-1)%Z |}.

(** [self._pages = n] *)
Definition set_pages (self : GalleryInfoParser) (n : Z) : GalleryInfoParser :=
  {| gallery_folder := gallery_folder self;
     gallery_name := gallery_name self;
     gid := gid self;
     files_path := files_path self;
     modified_time := modified_time self;
     title := title self;
     upload_time := upload_time self;
     galleries_comments := galleries_comments self;
     upload_account := upload_account self;
     download_time := download_time self;
     tags := tags self;
     _pages := n |}.

(** The property [pages]: one access returns the value and the record as
    the access leaves it. *)
Definition pages (fs : FileSystem) (self : GalleryInfoParser)
  : result (Z * GalleryInfoParser) :=
  if (_pages self =? -1)%Z then
    n <- count_files_in_directory fs (gallery_folder self) ;;
    let self' := set_pages self (n - 1) in
    Ok (_pages self', self')
  else Ok (_pages self, self).

(** Successive accesses of [pages], the file system being in the state
    [fs] at each: the values read, in order. *)
Fixpoint pages_accesses (self : GalleryInfoParser) (states : list FileSystem)
  : result (list Z) :=
  match states with
  | [] => Ok []
  | fs :: states' =>
      '(v, self') <- pages fs self ;;
      vs <- pages_accesses self' states' ;;
      Ok (v :: vs)
  end.

(** ** The module *)

Definition parse_gid (gallery_folder : str) : result Z :=
  let gallery_name := basename gallery_folder in
  if str_in (lit "[") gallery_name && str_in (lit "]") gallery_name then
    int (replace (ch "]") [] (last (split (ch "[") gallery_name) []))
  else
    int gallery_name.

(** The local variables of [parse_galleryinfo] that the loop over the lines
    assigns. The five that are assigned only under their label are unbound
    ([None]) until then. *)
Record locals : Type := {
  comments : bool;
  comment_lines : list str;
  tags_var : option (list (str * str));
  title_var : option str;
  upload_time_var : option datetime;
  upload_account_var : option str;
  download_time_var : option datetime
}.

Definition initial_locals : locals :=
  {| comments := false; comment_lines := [];
     tags_var := None; title_var := None; upload_time_var := None;
     upload_account_var := None; download_time_var := None |}.

Definition set_comments (v : locals) (b : bool) : locals :=
  {| comments := b; comment_lines := comment_lines v;
     tags_var := tags_var v; title_var := title_var v;
     upload_time_var := upload_time_var v;
     upload_account_var := upload_account_var v;
     download_time_var := download_time_var v |}.

Definition append_comment_line (v : locals) (l : str) : locals :=
  {| comments := comments v; comment_lines := comment_lines v ++ [l];
     tags_var := tags_var v; title_var := title_var v;
     upload_time_var := upload_time_var v;
     upload_account_var := upload_account_var v;
     download_time_var := download_time_var v |}.

Definition set_tags (v : locals) (x : list (str * str)) : locals :=
  {| comments := comments v; comment_lines := comment_lines v;
     tags_var := Some x; title_var := title_var v;
     upload_time_var := upload_time_var v;
     upload_account_var := upload_account_var v;
     download_time_var := download_time_var v |}.

Definition set_title (v : locals) (x : str) : locals :=
  {| comments := comments v; comment_lines := comment_lines v;
     tags_var := tags_var v; title_var := Some x;
     upload_time_var := upload_time_var v;
     upload_account_var := upload_account_var v;
     download_time_var := download_time_var v |}.

Definition set_upload_time (v : locals) (x : datetime) : locals :=
  {| comments := comments v; comment_lines := comment_lines v;
     tags_var := tags_var v; title_var := title_var v;
     upload_time_var := Some x;
     upload_account_var := upload_account_var v;
     download_time_var := download_time_var v |}.

Definition set_upload_account (v : locals) (x : str) : locals :=
  {| comments := comments v; comment_lines := comment_lines v;
     tags_var := tags_var v; title_var := title_var v;
     upload_time_var := upload_time_var v;
     upload_account_var := Some x;
     download_time_var := download_time_var v |}.

Definition set_download_time (v : locals) (x : datetime) : locals :=
  {| comments := comments v; comment_lines := comment_lines v;
     tags_var := tags_var v; title_var := title_var v;
     upload_time_var := upload_time_var v;
     upload_account_var := upload_account_var v;
     download_time_var := Some x |}.

Definition MARKER : str := lit "Uploader's Comments".
Definition SENTINEL : str :=
  lit "Downloaded from E-Hentai Galleries by the Hentai@Home Downloader <3".

(** The loop [for tag in value.split(",")] of the case ["Tags"], on the
    tokens still to visit; [tags] is the list built so far. *)
Fixpoint tags_loop (tags : list (str * str)) (tokens : list str)
  : result (list (str * str)) :=
  match tokens with
  | [] => Ok tags
  | tag :: tokens' =>
      if str_in (lit ":") tag then
        '(tag_key, tag_value) <- unpack2 (split1 (ch ":") tag) ;;
        if negb (str_eqb (strip tag_key) []) then
          tags_loop (tags ++ [(strip tag_key, strip tag_value)]) tokens'
        else
          tags_loop (tags ++ [(lit "untagged", strip tag_value)]) tokens'
      else
        tags_loop (tags ++ [(lit "untagged", strip tag)]) tokens'
  end.

(** The case ["Tags"] as a whole: the tag list of a field value. *)
Definition parse_tags (value : str) : result (list (str * str)) :=
  tags_loop [] (split (ch ",") value).

(** How one turn of the loop over the lines ends. *)
Inductive flow : Type := Continue | Break.

(** The statement [match key] of the loop body. *)
Definition match_key (v : locals) (key value : str) : result locals :=
  if str_eqb key (lit "Tags") then
    t <- parse_tags value ;; Ok (set_tags v t)
  else if str_eqb key (lit "Title") then
    Ok (set_title v value)
  else if str_eqb key (lit "Upload Time") then
    t <- strptime value ;; Ok (set_upload_time v t)
  else if str_eqb key (lit "Uploaded By") then
    Ok (set_upload_account v value)
  else if str_eqb key (lit "Downloaded") then
    t <- strptime value ;; Ok (set_download_time v t)
  else Ok v.

(** The body of [for line in lines]. *)
Definition loop_body (v : locals) (line : str) : result (flow * locals) :=
  if str_in MARKER line then Ok (Continue, set_comments v true)
  else if comments v then
    if str_eqb line SENTINEL then Ok (Break, v)
    else Ok (Continue, append_comment_line v (strip line))
  else if str_in (lit ":") line then
    '(key, value) <- unpack2 (split1 (ch ":") line) ;;
    let key := strip key in
    let value := strip value in
    v' <- match_key v key value ;;
    Ok (Continue, v')
  else Ok (Continue, v).

Fixpoint for_lines (v : locals) (lines : list str) : result locals :=
  match lines with
  | [] => Ok v
  | line :: lines' =>
      '(f, v') <- loop_body v line ;;
      match f with
      | Continue => for_lines v' lines'
      | Break => Ok v'
      end
  end.

(** Reading a local variable. *)
Definition load {A : Type} (name : string) (x : option A) : result A :=
  match x with
  | Some a => Ok a
  | None => Raise (UnboundLocalError name)
  end.

Definition parse_galleryinfo (fs : FileSystem) (gallery_folder : str)
  : result GalleryInfoParser :=
  let gallery_info_path := path_join gallery_folder (lit "galleryinfo.txt") in
  text <- read_text fs gallery_info_path ;;
  let lines := split NL (strip_chars [NL] text) in
  let gallery_name := basename gallery_folder in
  gid <- parse_gid gallery_folder ;;
  files_path <- listdir fs gallery_folder ;;
  modified_time <- getmtime fs gallery_info_path ;;
  v <- for_lines initial_locals lines ;;
  let galleries_comments := strip_chars [NL] (join [NL] (comment_lines v)) in
  title <- load "title" (title_var v) ;;
  upload_time <- load "upload_time" (upload_time_var v) ;;
  upload_account <- load "upload_account" (upload_account_var v) ;;
  download_time <- load "download_time" (download_time_var v) ;;
  tags <- load "tags" (tags_var v) ;;
  Ok (__init__ gallery_folder gallery_name gid files_path modified_time
        title upload_time galleries_comments upload_account download_time
        tags).

(** ** Vocabulary of the specification *)

(** The lines of the sidecar file of a folder, as [parse_galleryinfo]
    obtains them. *)
Definition sidecar_lines (fs : FileSystem) (gallery_folder : str)
  : result (list str) :=
  text <- read_text fs (path_join gallery_folder (lit "galleryinfo.txt")) ;;
  Ok (split NL (strip_chars [NL] text)).

(** A line with a colon seen as a header: the label before its first colon
    and the value after it, both trimmed. *)
Definition header_entry (line : str) : option (str * str) :=
  match split1 (ch ":") line with
  | [key; value] => Some (strip key, strip value)
  | _ => None
  end.

(** The headers that come before the comment marker. *)
Fixpoint header_entries (lines : list str) : list (str * str) :=
  match lines with
  | [] => []
  | line :: lines' =>
      if str_in MARKER line then []
      else match header_entry line with
           | Some e => e :: header_entries lines'
           | None => header_entries lines'
           end
  end.

(** The values given to a label before the comment marker, in order. *)
Definition field_values (label : str) (lines : list str) : list str :=
  map snd (filter (fun e => str_eqb (fst e) label) (header_entries lines)).

Definition has_label (label : str) (lines : list str) : bool :=
  match field_values label lines with
  | [] => false
  | _ :: _ => true
  end.

Definition required_labels : list str :=
  [lit "Title"; lit "Upload Time"; lit "Uploaded By"; lit "Downloaded"].

Definition timestamp_label (key : str) : bool :=
  str_eqb key (lit "Upload Time") || str_eqb key (lit "Downloaded").

Definition accepted (value : str) : bool :=
  match strptime value with
  | Ok _ => true
  | Raise _ => false
  end.

(** Every value given to a timestamp label before the comment marker is
    accepted by [strptime]. *)
Definition timestamps_ok (lines : list str) : bool :=
  forallb (fun e => negb (timestamp_label (fst e)) || accepted (snd e))
          (header_entries lines).

(** The five labels the loop recognises, the value each of them stores and
    the variable that receives it. *)
Inductive field : Type :=
| FTags | FTitle | FUploadTime | FUploadedBy | FDownloaded.

Definition label (f : field) : str :=
  match f with
  | FTags => lit "Tags"
  | FTitle => lit "Title"
  | FUploadTime => lit "Upload Time"
  | FUploadedBy => lit "Uploaded By"
  | FDownloaded => lit "Downloaded"
  end.

Inductive field_value : Type :=
| VTags (t : list (str * str))
| VStr (s : str)
| VTime (d : datetime).

Definition convert (f : field) (value : str) : result field_value :=
  match f with
  | FTags => t <- parse_tags value ;; Ok (VTags t)
  | FTitle | FUploadedBy => Ok (VStr value)
  | FUploadTime | FDownloaded => t <- strptime value ;; Ok (VTime t)
  end.

Definition variable (f : field) (v : locals) : option field_value :=
  match f with
  | FTags => option_map VTags (tags_var v)
  | FTitle => option_map VStr (title_var v)
  | FUploadTime => option_map VTime (upload_time_var v)
  | FUploadedBy => option_map VStr (upload_account_var v)
  | FDownloaded => option_map VTime (download_time_var v)
  end.

Definition record_field (f : field) (r : GalleryInfoParser) : field_value :=
  match f with
  | FTags => VTags (tags r)
  | FTitle => VStr (title r)
  | FUploadTime => VTime (upload_time r)
  | FUploadedBy => VStr (upload_account r)
  | FDownloaded => VTime (download_time r)
  end.

(** What the loop adds to the comment buffer from lines it meets after the
    marker. *)
Fixpoint comment_buffer (lines : list str) : list str :=
  match lines with
  | [] => []
  | line :: lines' =>
      if str_in MARKER line then comment_buffer lines'
      else if str_eqb line SENTINEL then []
      else strip line :: comment_buffer lines'
  end.

(** The value a variable holds once the lines are read: the last one given
    to its label before the marker, converted, or what it held before. *)
Definition final_value (f : field) (before : option field_value)
  (lines : list str) : option field_value :=
  match field_values (label f) lines with
  | [] => before
  | value :: values =>
      match convert f (last (value :: values) []) with
      | Ok x => Some x
      | Raise _ => None
      end
  end.

(** The lines that follow the first line holding the marker. *)
Fixpoint after_marker (lines : list str) : list str :=
  match lines with
  | [] => []
  | line :: lines' => if str_in MARKER line then lines' else after_marker lines'
  end.

Definition add_comment_lines (v : locals) (ls : list str) : locals :=
  {| comments := true; comment_lines := comment_lines v ++ ls;
     tags_var := tags_var v; title_var := title_var v;
     upload_time_var := upload_time_var v;
     upload_account_var := upload_account_var v;
     download_time_var := download_time_var v |}.

(** Splitting at the first occurrence of a character, in the words of the
    specification. *)
Fixpoint before_first (c : char) (s : str) : str :=
  match s with
  | [] => []
  | x :: s' => if N.eqb x c then [] else x :: before_first c s'
  end.

Fixpoint after_first (c : char) (s : str) : str :=
  match s with
  | [] => []
  | x :: s' => if N.eqb x c then s' else after_first c s'
  end.

(** The tag of one token, in the words of the specification: trim the
    token; with a colon, split at the first one, trim both sides and put
    "untagged" for an empty category; without, the token is the value. *)
Definition spec_tag (token : str) : str * str :=
  let t := strip token in
  if existsb (N.eqb (ch ":")) t then
    let category := strip (before_first (ch ":") t) in
    let value := strip (after_first (ch ":") t) in
    (if str_eqb category [] then lit "untagged" else category, value)
  else (lit "untagged", t).

Definition spec_parse_tags (value : str) : list (str * str) :=
  map spec_tag (split (ch ",") value).

(** The text between the last opening bracket and the closing bracket that
    ends what follows it, in the words of the specification. *)
Definition spec_bracket_substring (name : str) : str :=
  let after_last_open := rev (before_first (ch "[") (rev name)) in
  rev (after_first (ch "]") (rev after_last_open)).

(** A non-negative integer literal given by its digits, and its value. *)
Definition digit_chars (ds : list N) : str := map (fun d => (48 + d)%N) ds.
Definition digits_value (ds : list N) : Z :=
  fold_left (fun a d => (10 * a + Z.of_N d)%Z) ds 0%Z.

(** A valid integer, as Python's reference describes the argument of [int]:
    white space around it is allowed, then an optional sign, then decimal
    digits with single underscores between digits, at most 4300 digits in
    all. *)
Definition integer_body (s : str) : bool :=
  forallb (fun c => is_decimal c || N.eqb c (ch "_")) s &&
  is_decimal (hd 0%N s) && is_decimal (last s 0%N) &&
  negb (str_in (lit "__") s) &&
  (digit_count s <=? int_max_str_digits)%N.

Definition without_sign (s : str) : str :=
  match s with
  | c :: s' => if N.eqb c (ch "+") || N.eqb c (ch "-") then s' else s
  | [] => []
  end.

Definition valid_integer (s : str) : bool :=
  integer_body (without_sign (strip_with int_isspace s)).

(** What [parse_gid] hands to [int]. *)
Definition extracted_text (gallery_name : str) : str :=
  if str_in (lit "[") gallery_name && str_in (lit "]") gallery_name then
    replace (ch "]") [] (last (split (ch "[") gallery_name) [])
  else gallery_name.

(** The end of [parse_galleryinfo]: the comment text, the five variables
    read in the order of the arguments of the call, and the record. *)
Definition assemble (gallery_folder : str) (gid : Z) (files_path : list str)
  (modified_time : Z) (v : locals) : result GalleryInfoParser :=
  let galleries_comments := strip_chars [NL] (join [NL] (comment_lines v)) in
  title <- load "title" (title_var v) ;;
  upload_time <- load "upload_time" (upload_time_var v) ;;
  upload_account <- load "upload_account" (upload_account_var v) ;;
  download_time <- load "download_time" (download_time_var v) ;;
  tags <- load "tags" (tags_var v) ;;
  Ok (__init__ gallery_folder (basename gallery_folder) gid files_path
        modified_time title upload_time galleries_comments upload_account
        download_time tags).

Definition missing_names : list string :=
  ["title"; "upload_time"; "upload_account"; "download_time"]%string.

(** The labels with the variable each of them binds, in the order in which
    the return statement reads the variables. *)
Definition read_order : list (str * string) :=
  [(lit "Title", "title"%string); (lit "Upload Time", "upload_time"%string);
   (lit "Uploaded By", "upload_account"%string);
   (lit "Downloaded", "download_time"%string); (lit "Tags", "tags"%string)].

(** The first variable, in that order, whose label no header line before
    the marker carries. *)
Definition first_unbound (lines : list str) : option string :=
  option_map snd (find (fun p => negb (has_label (fst p) lines)) read_order).

(** The sidecar carries [text] as the value of a label: a header line
    before the marker has that label and that value, and no header line
    between it and the marker has the label. *)
Definition carries (lines : list str) (f : field) (text : str) : Prop :=
  exists pre line post,
    lines = pre ++ line :: post /\
    (forall l, In l pre -> str_in MARKER l = false) /\
    str_in MARKER line = false /\
    header_entry line = Some (label f, text) /\
    field_values (label f) post = [].

(** The text of a timestamp in the fixed format, every number padded with
    zeros: four digits for the year, two for the others. *)
Definition digit (n : N) : char := (48 + n mod 10)%N.
Definition two_digits (n : N) : str := [digit (n / 10); digit n].
Definition four_digits (n : N) : str :=
  [digit (n / 1000); digit (n / 100); digit (n / 10); digit n].

Definition render_timestamp (d : datetime) : str :=
  four_digits (Z.to_N (year d)) ++ lit "-" ++
  two_digits (Z.to_N (month d)) ++ lit "-" ++
  two_digits (Z.to_N (day d)) ++ lit " " ++
  two_digits (Z.to_N (hour d)) ++ lit ":" ++
  two_digits (Z.to_N (minute d)).

(** The dates and times a [datetime] can hold. *)
Definition valid_datetime (d : datetime) : bool :=
  (valid_date (year d) (month d) (day d) &&
   (0 <=? hour d) && (hour d <? 24) && (0 <=? minute d) && (minute d <? 60))%Z.

(** A sidecar written from known values: the five headers, the comment
    block and the sentinel, every line ended by a newline. *)
Definition header_line (label value : str) : str := label ++ lit ": " ++ value.

Definition render_tag (t : str * str) : str := fst t ++ lit ":" ++ snd t.

Definition render_tags (tags : list (str * str)) : str :=
  join (lit ", ") (map render_tag tags).

Definition sidecar_text (title : str) (upload_time : datetime)
  (upload_account : str) (download_time : datetime)
  (tags : list (str * str)) (comment : str) : str :=
  header_line (lit "Title") title ++ [NL] ++
  header_line (lit "Upload Time") (render_timestamp upload_time) ++ [NL] ++
  header_line (lit "Uploaded By") upload_account ++ [NL] ++
  header_line (lit "Downloaded") (render_timestamp download_time) ++ [NL] ++
  header_line (lit "Tags") (render_tags tags) ++ [NL] ++
  [NL] ++
  lit "Uploader's Comments:" ++ [NL] ++
  [NL] ++
  comment ++ [NL] ++
  [NL] ++
  SENTINEL ++ [NL].

(** A value that a header line gives back as it is: trimmed, on one line,
    and free of the text of the marker. *)
Definition plain (s : str) : bool :=
  str_eqb (strip s) s && negb (existsb (N.eqb NL) s) && negb (str_in MARKER s).

(** A tag that the Tags line gives back as it is. *)
Definition tag_ok (t : str * str) : bool :=
  plain (fst t) && plain (snd t) && negb (str_eqb (fst t) []) &&
  negb (existsb (N.eqb (ch ":")) (fst t)) &&
  negb (existsb (N.eqb (ch ",")) (fst t)) &&
  negb (existsb (N.eqb (ch ",")) (snd t)).

(** A tag that the tag list written as "category:value, ..." gives back:
    both parts trimmed, the category not empty and free of colon, both free
    of comma. *)
Definition tag_wellformed (t : str * str) : bool :=
  str_eqb (strip (fst t)) (fst t) && str_eqb (strip (snd t)) (snd t) &&
  negb (str_eqb (fst t) []) &&
  negb (existsb (N.eqb (ch ":")) (fst t)) &&
  negb (existsb (N.eqb (ch ",")) (fst t)) &&
  negb (existsb (N.eqb (ch ",")) (snd t)).

(** ** Sample data *)

(** A file system where every path is a regular file and every folder
    lists [names]. *)
Definition fs_listing (names : list str) : FileSystem :=
  {| read_text := fun _ => Raise FileNotFoundError;
     listdir := fun _ => Ok names;
     isfile := fun _ => true;
     getmtime := fun _ => Ok 0%Z |}.

(** A file system whose every file reads as [text]. *)
Definition fs_gallery (text : str) (names : list str) : FileSystem :=
  {| read_text := fun _ => Ok text;
     listdir := fun _ => Ok names;
     isfile := fun _ => true;
     getmtime := fun _ => Ok 0%Z |}.

(** A folder that can be entered but not listed: its files are read, and
    [os.listdir] raises. *)
Definition fs_unlisted (text : str) : FileSystem :=
  {| read_text := fun _ => Ok text;
     listdir := fun _ => Raise OSError;
     isfile := fun _ => true;
     getmtime := fun _ => Ok 0%Z |}.

Definition text_of_lines (lines : list str) : str := join [NL] lines ++ [NL].

Definition sample_folder : str := lit "/g/Foo [1]".
Definition sample_names : list str := [lit "galleryinfo.txt"; lit "1.jpg"].

(** A complete sidecar, with the title given twice. *)
Definition sample_lines : list str :=
  [lit "Title:       Foo"; lit "Title:       Bar";
   lit "Upload Time: 2020-01-02 03:04"; lit "Uploaded By: someone";
   lit "Downloaded:  2020-01-02 03:04"; lit "Tags:        a:1, b:2, 3"; [];
   lit "Uploader's Comments:"; []; lit "hello"; lit "world"; []; SENTINEL].

(** No title, and an upload time that is no timestamp. *)
Definition lines_bad_time_no_title : list str :=
  [lit "Upload Time: yesterday"; lit "Uploaded By: someone";
   lit "Downloaded: 2020-01-02 03:04"; lit "Tags: a:1"].

(** No title. *)
Definition lines_no_title : list str :=
  [lit "Upload Time: 2020-01-02 03:04"; lit "Uploaded By: someone";
   lit "Downloaded: 2020-01-02 03:04"; lit "Tags: a:1"].

(** A title and tags, and none of the three other labels. *)
Definition lines_title_tags : list str := [lit "Title: Foo"; lit "Tags: a:1"].

(** All five labels, and an upload time that is no timestamp. *)
Definition lines_bad_time : list str :=
  [lit "Title: Foo"; lit "Upload Time: yesterday"; lit "Uploaded By: someone";
   lit "Downloaded: 2020-01-02 03:04"; lit "Tags: a:1"].

(** The four required labels and no tags. *)
Definition lines_no_tags : list str :=
  [lit "Title: Foo"; lit "Upload Time: 2020-01-02 03:04";
   lit "Uploaded By: someone"; lit "Downloaded: 2020-01-02 03:04"].

Definition sample_datetime : datetime :=
  {| year := 2020; month := 1; day := 2; hour := 3; minute := 4 |}.

(** A sidecar written from known values. *)
Definition sample_tags : list (str * str) :=
  [(lit "a", lit "1"); (lit "untagged", lit "x y")].

Definition sample_text : str :=
  sidecar_text (lit "Foo: bar") sample_datetime (lit "someone") sample_datetime
    sample_tags (lit "hello").

Definition sample_text_lines : list str :=
  split NL (strip_chars [NL] sample_text).

(** The record read from [sample_lines]. *)
Definition sample_parsed : GalleryInfoParser :=
  __init__ sample_folder (lit "Foo [1]") 1 sample_names 0 (lit "Bar")
    sample_datetime (lit "hello" ++ [NL] ++ lit "world") (lit "someone")
    sample_datetime
    [(lit "a", lit "1"); (lit "b", lit "2"); (lit "untagged", lit "3")].

Definition sample_record : GalleryInfoParser :=
  __init__ (lit "/g/Foo [1]") (lit "Foo [1]") 1 [lit "galleryinfo.txt"] 0
    (lit "Foo") sample_datetime [] (lit "someone") sample_datetime
    [(lit "untagged", lit "x")].

(** A property of every number below a bound, checked number by number. *)
Fixpoint all_below (n : nat) (P : N -> Prop) : Prop :=
  match n with
  | O => True
  | S k => P (N.of_nat k) /\ all_below k P
  end.

(** * Properties *)

(** ** Strings *)

Lemma str_eqb_eq (a b : str) : str_eqb a b = true <-> a = b.
Proof.
  revert b; induction a as [|x a IH]; intros [|y b]; simpl; split;
    try congruence; try reflexivity.
  - intros H. apply andb_true_iff in H as [Hx Hab].
    apply N.eqb_eq in Hx. apply IH in Hab. congruence.
  - intros H. injection H as -> ->. rewrite N.eqb_refl. simpl. now apply IH.
Qed.

Lemma str_eqb_refl (a : str) : str_eqb a a = true.
Proof. now apply str_eqb_eq. Qed.

Lemma str_eqb_neq (a b : str) : str_eqb a b = false <-> a <> b.
Proof.
  split.
  - intros H E. apply str_eqb_eq in E. congruence.
  - intros H. destruct (str_eqb a b) eqn:E; [|reflexivity].
    apply str_eqb_eq in E. contradiction.
Qed.

(** Boolean comparisons among the hypotheses turned into equations. *)
Ltac str_eqs :=
  repeat match goal with
         | H : str_eqb _ _ = true |- _ => apply str_eqb_eq in H
         | H : str_eqb _ _ = false |- _ => apply str_eqb_neq in H
         end.

Lemma existsb_eqb_In (c : char) (s : str) :
  existsb (N.eqb c) s = true <-> In c s.
Proof.
  rewrite existsb_exists. split.
  - intros (x & Hx & E). apply N.eqb_eq in E. now subst.
  - intros H. exists c. split; [assumption|apply N.eqb_refl].
Qed.

Lemma str_in_char (c : char) (s : str) : str_in [c] s = true <-> In c s.
Proof.
  induction s as [|x s IH]; simpl.
  - split; [discriminate|tauto].
  - rewrite orb_true_iff, IH, andb_true_r, N.eqb_eq.
    split; intros [H|H]; auto.
Qed.

Lemma str_in_char_false (c : char) (s : str) :
  str_in [c] s = false <-> ~ In c s.
Proof.
  rewrite <- str_in_char. destruct (str_in [c] s); split; congruence.
Qed.

Lemma split_nonempty (c : char) (s : str) : split c s <> [].
Proof.
  destruct s as [|x s]; simpl; [discriminate|].
  destruct (N.eqb x c); [discriminate|]. destruct (split c s); discriminate.
Qed.

Lemma split_cons_other (c x : char) (s : str) :
  x <> c ->
  split c (x :: s) = (x :: hd [] (split c s)) :: tl (split c s).
Proof.
  intros H. simpl. apply N.eqb_neq in H. rewrite H.
  destruct (split c s) eqn:E; [|reflexivity].
  now apply split_nonempty in E.
Qed.

Lemma split_notin (c : char) (s : str) : ~ In c s -> split c s = [s].
Proof.
  induction s as [|x s IH]; simpl; intros H; [reflexivity|].
  destruct (N.eqb_spec x c) as [->|N]; [tauto|].
  rewrite IH by tauto. reflexivity.
Qed.

Lemma split_app (c : char) (a b : str) :
  ~ In c a -> split c (a ++ c :: b) = a :: split c b.
Proof.
  induction a as [|x a IH]; simpl; intros H.
  - now rewrite N.eqb_refl.
  - destruct (N.eqb_spec x c) as [->|N]; [tauto|].
    rewrite IH by tauto. reflexivity.
Qed.

(** Splitting loses nothing: joining the pieces with the separator gives
    the string back, and no piece holds the separator. *)
Lemma join_split (c : char) (s : str) : join [c] (split c s) = s.
Proof.
  induction s as [|x s IH]; simpl; [reflexivity|].
  destruct (N.eqb_spec x c) as [->|N].
  - destruct (split c s) eqn:E; [now apply split_nonempty in E|].
    simpl in *. now rewrite IH.
  - destruct (split c s) as [|w ws] eqn:E; [now apply split_nonempty in E|].
    destruct ws; simpl in *; now rewrite <- IH.
Qed.

Lemma split_pieces (c : char) (s : str) :
  Forall (fun w => ~ In c w) (split c s).
Proof.
  induction s as [|x s IH]; simpl.
  - constructor; [tauto|constructor].
  - destruct (N.eqb_spec x c) as [->|N].
    + constructor; [tauto|assumption].
    + destruct (split c s) as [|w ws]; [repeat constructor; simpl; tauto|].
      inversion IH; subst. constructor; [|assumption].
      simpl. intros [E|E]; [congruence|contradiction].
Qed.

Lemma last_split_app (c : char) (a b : str) :
  ~ In c b -> last (split c (a ++ c :: b)) [] = b.
Proof.
  intros Hb. induction a as [|x a IH]; simpl.
  - rewrite N.eqb_refl, split_notin by assumption. reflexivity.
  - destruct (N.eqb x c).
    + destruct (split c (a ++ c :: b)) eqn:E; [now apply split_nonempty in E|].
      exact IH.
    + destruct (split c (a ++ c :: b)) as [|w ws] eqn:E;
        [now apply split_nonempty in E|].
      destruct ws; [|exact IH]. simpl in IH. subst w.
      exfalso.
      assert (F : Forall (fun w => ~ In c w) (split c (a ++ c :: b)))
        by apply split_pieces.
      assert (J : join [c] (split c (a ++ c :: b)) = a ++ c :: b)
        by apply join_split.
      rewrite E in F, J. simpl in J. inversion F; subst.
      apply H1. rewrite J. apply in_or_app. right. now left.
Qed.

Lemma split1_In (c : char) (s : str) :
  In c s ->
  exists k v, split1 c s = [k; v] /\ s = k ++ c :: v /\ ~ In c k.
Proof.
  induction s as [|x s IH]; simpl; [tauto|].
  intros H. destruct (N.eqb_spec x c) as [->|N].
  - exists [], s. simpl. tauto.
  - destruct H as [H|H]; [congruence|].
    destruct (IH H) as (k & v & E & -> & Hk).
    exists (x :: k), v. rewrite E. simpl. repeat split.
    intros [F|F]; [congruence|contradiction].
Qed.

Lemma split1_app (c : char) (k v : str) :
  ~ In c k -> split1 c (k ++ c :: v) = [k; v].
Proof.
  induction k as [|x k IH]; simpl; intros H.
  - now rewrite N.eqb_refl.
  - destruct (N.eqb_spec x c) as [->|N]; [tauto|].
    rewrite IH by tauto. reflexivity.
Qed.

Lemma split1_notin (c : char) (s : str) : ~ In c s -> split1 c s = [s].
Proof.
  induction s as [|x s IH]; simpl; intros H; [reflexivity|].
  destruct (N.eqb_spec x c) as [->|N]; [tauto|].
  rewrite IH by tauto. reflexivity.
Qed.

(** ** Trimming *)

Section Strip.
Variable p : char -> bool.

Lemma lstrip_app (a b : str) :
  lstrip_with p (a ++ b) =
  match lstrip_with p a with
  | [] => lstrip_with p b
  | r => r ++ b
  end.
Proof.
  induction a as [|x a IH]; simpl; [reflexivity|].
  destruct (p x); [exact IH|reflexivity].
Qed.

Lemma lstrip_app_stop (k : str) (c : char) (v : str) :
  p c = false ->
  lstrip_with p (k ++ c :: v) = lstrip_with p k ++ c :: v.
Proof.
  intros H. rewrite lstrip_app. simpl. rewrite H.
  destruct (lstrip_with p k); reflexivity.
Qed.

Lemma lstrip_all (ws s : str) :
  forallb p ws = true -> lstrip_with p (ws ++ s) = lstrip_with p s.
Proof.
  induction ws as [|x ws IH]; simpl; [reflexivity|].
  intros H. apply andb_true_iff in H as [Hx Hws]. rewrite Hx. auto.
Qed.

Lemma lstrip_idem (s : str) :
  lstrip_with p (lstrip_with p s) = lstrip_with p s.
Proof.
  induction s as [|x s IH]; simpl; [reflexivity|].
  destruct (p x) eqn:E; [exact IH|]. simpl. now rewrite E.
Qed.

Lemma lstrip_head (x : char) (s : str) :
  p x = false -> lstrip_with p (x :: s) = x :: s.
Proof. intros H. simpl. now rewrite H. Qed.

Lemma lstrip_In (c : char) (s : str) :
  In c (lstrip_with p s) -> In c s.
Proof.
  induction s as [|x s IH]; simpl; [tauto|].
  destruct (p x); simpl; tauto.
Qed.

Lemma lstrip_In_kept (c : char) (s : str) :
  p c = false -> In c s -> In c (lstrip_with p s).
Proof.
  intros Hc. induction s as [|x s IH]; simpl; [tauto|].
  intros [->|H].
  - rewrite Hc. now left.
  - destruct (p x); [auto|now right].
Qed.

Lemma rstrip_cons (x : char) (s : str) :
  rstrip_with p (x :: s) =
  match rstrip_with p s with
  | [] => if p x then [] else [x]
  | r => x :: r
  end.
Proof.
  unfold rstrip_with. simpl. rewrite lstrip_app.
  destruct (lstrip_with p (rev s)) as [|y r] eqn:E; simpl.
  - destruct (p x); reflexivity.
  - rewrite rev_app_distr. simpl.
    destruct (rev r ++ [y]) eqn:F; [|reflexivity].
    now apply app_eq_nil in F as [_ F].
Qed.

Lemma rstrip_app_stop (k : str) (c : char) (v : str) :
  p c = false ->
  rstrip_with p (k ++ c :: v) = k ++ c :: rstrip_with p v.
Proof.
  intros H. unfold rstrip_with.
  rewrite rev_app_distr. simpl. rewrite <- app_assoc. simpl.
  rewrite lstrip_app_stop by assumption.
  rewrite rev_app_distr. simpl. rewrite rev_involutive, <- app_assoc.
  reflexivity.
Qed.

Lemma rstrip_idem (s : str) :
  rstrip_with p (rstrip_with p s) = rstrip_with p s.
Proof.
  unfold rstrip_with. now rewrite rev_involutive, lstrip_idem.
Qed.

Lemma rstrip_In (c : char) (s : str) :
  In c (rstrip_with p s) -> In c s.
Proof.
  unfold rstrip_with. intros H. apply in_rev in H.
  apply lstrip_In in H. now apply in_rev in H.
Qed.

Lemma rstrip_In_kept (c : char) (s : str) :
  p c = false -> In c s -> In c (rstrip_with p s).
Proof.
  unfold rstrip_with. intros Hc H. apply in_rev in H.
  apply -> in_rev. now apply lstrip_In_kept.
Qed.

Lemma lstrip_rstrip (s : str) :
  lstrip_with p (rstrip_with p s) = rstrip_with p (lstrip_with p s).
Proof.
  induction s as [|x s IH]; [reflexivity|].
  destruct (p x) eqn:E.
  - assert (L : lstrip_with p (x :: s) = lstrip_with p s)
      by (simpl; now rewrite E).
    rewrite L, <- IH, rstrip_cons, E.
    destruct (rstrip_with p s) eqn:F; [reflexivity|].
    simpl. now rewrite E.
  - rewrite (lstrip_head x s E).
    change (x :: s) with ([] ++ x :: s).
    rewrite rstrip_app_stop by assumption. simpl. now rewrite E.
Qed.

Lemma strip_lstrip (s : str) :
  strip_with p (lstrip_with p s) = strip_with p s.
Proof. unfold strip_with. now rewrite lstrip_idem. Qed.

Lemma strip_rstrip (s : str) :
  strip_with p (rstrip_with p s) = strip_with p s.
Proof.
  unfold strip_with. now rewrite lstrip_rstrip, rstrip_idem.
Qed.

Lemma strip_idem (s : str) :
  strip_with p (strip_with p s) = strip_with p s.
Proof. unfold strip_with at 2. now rewrite strip_rstrip, strip_lstrip. Qed.

Lemma strip_all (ws s : str) :
  forallb p ws = true -> strip_with p (ws ++ s) = strip_with p s.
Proof. intros H. unfold strip_with. now rewrite lstrip_all. Qed.

Lemma strip_In (c : char) (s : str) : In c (strip_with p s) -> In c s.
Proof. intros H. now apply lstrip_In, rstrip_In. Qed.

Lemma strip_In_kept (c : char) (s : str) :
  p c = false -> In c s -> In c (strip_with p s).
Proof. intros Hc H. now apply rstrip_In_kept, lstrip_In_kept. Qed.

(** Trimming a string around a character that is kept trims what is
    before it on the left and what is after it on the right. *)
Lemma strip_around (k : str) (c : char) (v : str) :
  p c = false ->
  strip_with p (k ++ c :: v) = lstrip_with p k ++ c :: rstrip_with p v.
Proof.
  intros H. unfold strip_with.
  now rewrite lstrip_app_stop, rstrip_app_stop.
Qed.

(** A string that neither starts nor ends with a trimmed character is
    left as it is. *)
Lemma rstrip_last (s : str) (x : char) :
  p x = false -> rstrip_with p (s ++ [x]) = s ++ [x].
Proof. intros H. now rewrite rstrip_app_stop. Qed.
End Strip.

Lemma before_first_app (c : char) (k v : str) :
  ~ In c k -> before_first c (k ++ c :: v) = k.
Proof.
  induction k as [|x k IH]; simpl; intros H.
  - now rewrite N.eqb_refl.
  - destruct (N.eqb_spec x c) as [->|N]; [tauto|]. rewrite IH; tauto.
Qed.

Lemma after_first_app (c : char) (k v : str) :
  ~ In c k -> after_first c (k ++ c :: v) = v.
Proof.
  induction k as [|x k IH]; simpl; intros H.
  - now rewrite N.eqb_refl.
  - destruct (N.eqb_spec x c) as [->|N]; [tauto|]. rewrite IH; tauto.
Qed.

(** ** The tag list *)

Lemma tag_of_colon_token (k v : str) :
  ~ In (ch ":") k ->
  spec_tag (k ++ ch ":" :: v) =
  (if negb (str_eqb (strip k) []) then strip k else lit "untagged", strip v).
Proof.
  intros Hk. unfold spec_tag, strip.
  assert (Hc : isspace (ch ":") = false) by reflexivity.
  rewrite strip_around by assumption.
  assert (Hk' : ~ In (ch ":") (lstrip_with isspace k))
    by (intros F; apply Hk; now apply lstrip_In in F).
  assert (E : existsb (N.eqb (ch ":"))
                (lstrip_with isspace k ++ ch ":" :: rstrip_with isspace v) = true).
  { apply existsb_eqb_In, in_or_app. right. now left. }
  rewrite E, before_first_app, after_first_app by assumption.
  rewrite strip_lstrip, strip_rstrip.
  destruct (str_eqb (strip_with isspace k) []); reflexivity.
Qed.

Lemma tag_of_plain_token (tag : str) :
  ~ In (ch ":") tag -> spec_tag tag = (lit "untagged", strip tag).
Proof.
  intros H. unfold spec_tag.
  destruct (existsb (N.eqb (ch ":")) (strip tag)) eqn:E; [|reflexivity].
  apply existsb_eqb_In, strip_In in E. contradiction.
Qed.

Lemma tags_loop_spec (tokens : list str) (acc : list (str * str)) :
  tags_loop acc tokens = Ok (acc ++ map spec_tag tokens).
Proof.
  revert acc. induction tokens as [|tag tokens IH]; intros acc.
  - simpl. now rewrite app_nil_r.
  - cbn [tags_loop map]. change (lit ":") with [ch ":"].
    destruct (str_in [ch ":"] tag) eqn:E.
    + apply str_in_char in E.
      destruct (split1_In _ _ E) as (k & v & Es & -> & Hk).
      rewrite Es. cbn [unpack2 bind].
      rewrite tag_of_colon_token by assumption.
      destruct (negb (str_eqb (strip k) [])); rewrite IH, <- app_assoc;
        reflexivity.
    + apply str_in_char_false in E. rewrite tag_of_plain_token by assumption.
      rewrite IH, <- app_assoc. reflexivity.
Qed.

(** ** Integer literals *)

Lemma all_below_elim (n : nat) (P : N -> Prop) :
  all_below n P -> forall d, (d < N.of_nat n)%N -> P d.
Proof.
  induction n as [|k IH]; simpl; intros H d Hd; [lia|].
  destruct H as [Hk H].
  destruct (N.eq_dec d (N.of_nat k)) as [->|Ne]; [assumption|].
  apply IH; [assumption|lia].
Qed.

Lemma decimal_ascii (d : N) : (d < 10)%N -> decimal (48 + d)%N = Some d.
Proof.
  revert d. apply (all_below_elim 10). simpl. repeat split; reflexivity.
Qed.

Lemma digit_not_int_space (d : N) : (d < 10)%N -> int_isspace (48 + d)%N = false.
Proof.
  revert d. apply (all_below_elim 10). simpl. repeat split; reflexivity.
Qed.

Lemma digit_not_symbol (d : N) (c : char) :
  (d < 10)%N -> (c < 48 \/ 57 < c)%N -> N.eqb (48 + d)%N c = false.
Proof. intros Hd Hc. apply N.eqb_neq. lia. Qed.

Lemma strip_with_fixed (p : char -> bool) (s : str) :
  (forall c, In c s -> p c = false) -> strip_with p s = s.
Proof.
  intros H. unfold strip_with.
  assert (L : forall t, (forall c, In c t -> p c = false) -> lstrip_with p t = t).
  { intros [|x t] Ht; [reflexivity|]. simpl. rewrite Ht; [reflexivity|now left]. }
  rewrite (L s H). unfold rstrip_with. rewrite L.
  - apply rev_involutive.
  - intros c Hc. apply H. now apply in_rev.
Qed.

Lemma int_digits_ascii (ds : list N) (acc : Z) :
  Forall (fun d => (d < 10)%N) ds ->
  int_digits acc false (digit_chars ds) =
  Some (fold_left (fun a d => (10 * a + Z.of_N d)%Z) ds acc).
Proof.
  intros H. revert acc. induction H as [|d ds Hd _ IH]; intros acc.
  - reflexivity.
  - change (digit_chars (d :: ds)) with ((48 + d)%N :: digit_chars ds).
    cbn [int_digits fold_left].
    rewrite (digit_not_symbol d (ch "_") Hd) by (right; reflexivity).
    rewrite (decimal_ascii d Hd). apply IH.
Qed.

(** A text of at most 4300 characters is within the limit on the digits. *)
Lemma within_digit_limit (s : str) :
  (N.of_nat (List.length s) <= int_max_str_digits)%N ->
  (int_max_str_digits <? digit_count s)%N = false.
Proof.
  intros H. apply N.ltb_ge. unfold digit_count.
  pose proof (filter_length_le is_decimal s). lia.
Qed.

(** The digits of a non-negative literal, at most 4300 of them, read as
    its value. *)
Lemma int_literal_digits (ds : list N) :
  ds <> [] -> Forall (fun d => (d < 10)%N) ds ->
  (N.of_nat (List.length ds) <= int_max_str_digits)%N ->
  int_literal (digit_chars ds) = Some (digits_value ds).
Proof.
  intros Hne H Hlen. unfold int_literal.
  rewrite strip_with_fixed.
  - destruct ds as [|d ds]; [congruence|].
    inversion H as [|? ? Hd Hds]; subst.
    change (digit_chars (d :: ds)) with ((48 + d)%N :: digit_chars ds).
    cbv beta iota.
    rewrite (digit_not_symbol d (ch "+") Hd) by (left; reflexivity).
    rewrite (digit_not_symbol d (ch "-") Hd) by (left; reflexivity).
    unfold int_unsigned.
    rewrite (digit_not_symbol d (ch "_") Hd) by (right; reflexivity).
    change ((48 + d)%N :: digit_chars ds) with (digit_chars (d :: ds)).
    rewrite within_digit_limit
      by (unfold digit_chars; now rewrite length_map).
    now rewrite int_digits_ascii.
  - intros c Hc. unfold digit_chars in Hc. apply in_map_iff in Hc as (d & <- & Hd).
    apply digit_not_int_space. rewrite Forall_forall in H. now apply H.
Qed.

Lemma digit_chars_range (ds : list N) (c : char) :
  Forall (fun d => (d < 10)%N) ds -> In c (digit_chars ds) -> (48 <= c <= 57)%N.
Proof.
  intros H Hc. unfold digit_chars in Hc. apply in_map_iff in Hc as (d & <- & Hd).
  rewrite Forall_forall in H. apply H in Hd. lia.
Qed.

(** *** The texts [int] accepts *)

Lemma startswith_underscores (x : char) (s : str) :
  startswith (x :: s) (lit "__") =
  N.eqb (ch "_") x && match s with [] => false | y :: _ => N.eqb (ch "_") y end.
Proof. destruct s as [|y s]; cbn; [reflexivity|now rewrite andb_true_r]. Qed.

Lemma decimal_not_underscore (c : char) :
  is_decimal c = true -> N.eqb (ch "_") c = false.
Proof.
  intros H. destruct (N.eqb_spec (ch "_") c) as [<-|]; [discriminate H|reflexivity].
Qed.

(** [int_digits] accepts the digits and underscores in which every
    underscore stands between two digits. *)
Lemma int_digits_valid (s : str) (acc : Z) (after_underscore : bool) :
  int_digits acc after_underscore s <> None <->
  forallb (fun c => is_decimal c || N.eqb c (ch "_")) s = true /\
  str_in (lit "__") s = false /\
  (after_underscore = true -> is_decimal (hd 0%N s) = true) /\
  (s = [] \/ is_decimal (last s 0%N) = true).
Proof.
  revert acc after_underscore. induction s as [|c s IH]; intros acc au.
  - cbn [int_digits]. destruct au.
    + split; [congruence|]. intros (_ & _ & H & _).
      specialize (H eq_refl). discriminate H.
    + split; [|discriminate]. intros _.
      split; [reflexivity|split; [reflexivity|split; [discriminate|now left]]].
  - cbn [int_digits forallb hd str_in]. rewrite startswith_underscores.
    destruct (N.eqb_spec c (ch "_")) as [->|Nc].
    + change (is_decimal (ch "_")) with false.
      change (N.eqb (ch "_") (ch "_")) with true. cbn [orb andb].
      destruct au.
      * split; [congruence|]. intros (_ & _ & H & _).
        specialize (H eq_refl). discriminate H.
      * rewrite IH. split.
        -- intros (A & B & C & D). specialize (C eq_refl).
           destruct s as [|x s]; [discriminate C|]. cbn [hd] in C.
           rewrite (decimal_not_underscore x C), B.
           split; [exact A|split; [reflexivity|split; [discriminate|]]].
           right. destruct D as [D|D]; [discriminate D|exact D].
        -- intros (A & B & _ & [D|D]); [discriminate D|].
           destruct s as [|x s]; [discriminate D|].
           apply orb_false_iff in B as [B1 B2].
           split; [exact A|split; [exact B2|split; [|now right]]].
           intros _. cbn [hd]. cbn [forallb] in A.
           apply andb_true_iff in A as [A _].
           apply orb_true_iff in A as [A|A]; [exact A|].
           apply N.eqb_eq in A. subst x. discriminate B1.
    + assert (E : N.eqb (ch "_") c = false)
        by (apply N.eqb_neq; congruence).
      rewrite E. cbn [andb orb]. unfold is_decimal at 1 3.
      destruct (decimal c) as [d|] eqn:Dc.
      * rewrite IH. cbn [orb andb]. split.
        -- intros (A & B & _ & D).
           split; [exact A|split; [exact B|split; [reflexivity|right]]].
           destruct s as [|x s]; [cbn [last]; unfold is_decimal; now rewrite Dc|].
           destruct D as [D|D]; [discriminate D|exact D].
        -- intros (A & B & _ & D).
           split; [exact A|split; [exact B|split; [discriminate|]]].
           destruct s as [|x s]; [now left|right].
           destruct D as [D|D]; [discriminate D|exact D].
      * cbn [orb andb]. split; [congruence|]. intros (A & _). discriminate A.
Qed.

Lemma int_unsigned_valid (s : str) :
  int_unsigned s <> None <-> integer_body s = true.
Proof.
  unfold int_unsigned, integer_body. destruct s as [|c s].
  - split; [congruence|]. intros H.
    apply andb_true_iff in H as [H _]. apply andb_true_iff in H as [H _].
    apply andb_true_iff in H as [H _]. apply andb_true_iff in H as [_ H].
    discriminate H.
  - rewrite (N.leb_antisym int_max_str_digits (digit_count (c :: s))).
    destruct (N.eqb_spec c (ch "_")) as [->|Nc].
    + split; [congruence|]. intros H.
      apply andb_true_iff in H as [H _]. apply andb_true_iff in H as [H _].
      apply andb_true_iff in H as [H _]. apply andb_true_iff in H as [_ H].
      discriminate H.
    + destruct (int_max_str_digits <? digit_count (c :: s))%N.
      * split; [congruence|]. intros H.
        apply andb_true_iff in H as [_ H]. discriminate H.
      * rewrite int_digits_valid. cbn [negb]. rewrite andb_true_r. split.
        -- intros (A & B & _ & [D|D]); [discriminate D|].
           rewrite A, B, D. cbn [hd forallb] in *.
           apply andb_true_iff in A as [A _].
           apply orb_true_iff in A as [A|A]; [now rewrite A|].
           apply N.eqb_eq in A. congruence.
        -- intros H.
           apply andb_true_iff in H as [H B]. apply andb_true_iff in H as [H D].
           apply andb_true_iff in H as [A _]. apply negb_true_iff in B.
           split; [exact A|split; [exact B|split; [discriminate|now right]]].
Qed.

(** [int] accepts a text exactly when it is a valid integer. *)
Lemma int_literal_valid (s : str) :
  int_literal s <> None <-> valid_integer s = true.
Proof.
  unfold int_literal, valid_integer, without_sign.
  destruct (strip_with int_isspace s) as [|c s'].
  - split; [congruence|]. intros H. apply int_unsigned_valid in H.
    now apply H.
  - destruct (N.eqb c (ch "+")); cbn [orb]; [apply int_unsigned_valid|].
    destruct (N.eqb c (ch "-")); [|apply int_unsigned_valid].
    rewrite <- int_unsigned_valid.
    destruct (int_unsigned s'); cbn [option_map]; split; congruence.
Qed.

Lemma int_raises (s : str) :
  int s = Raise ValueError <-> valid_integer s = false.
Proof.
  pose proof (int_literal_valid s) as H. unfold int.
  destruct (int_literal s), (valid_integer s); split; intros E;
    try reflexivity; try discriminate E.
  - exfalso. assert (F : false = true) by (apply H; discriminate). discriminate F.
  - exfalso. apply (proj2 H); reflexivity.
Qed.

Lemma digit_count_digits (ds : list N) :
  Forall (fun d => (d < 10)%N) ds ->
  digit_count (digit_chars ds) = N.of_nat (List.length ds).
Proof.
  intros H. unfold digit_count. f_equal. induction H as [|d ds Hd _ IH].
  - reflexivity.
  - change (digit_chars (d :: ds)) with ((48 + d)%N :: digit_chars ds).
    cbn [filter]. unfold is_decimal at 1. rewrite (decimal_ascii d Hd).
    cbn [List.length]. now rewrite IH.
Qed.

(** More than 4300 digits are no valid integer. *)
Lemma digits_over_limit (ds : list N) :
  Forall (fun d => (d < 10)%N) ds ->
  (int_max_str_digits < N.of_nat (List.length ds))%N ->
  valid_integer (digit_chars ds) = false.
Proof.
  intros H Hlen. unfold valid_integer.
  rewrite strip_with_fixed.
  2:{ intros c Hc. unfold digit_chars in Hc.
      apply in_map_iff in Hc as (d & <- & Hd).
      apply digit_not_int_space. rewrite Forall_forall in H. now apply H. }
  assert (S : without_sign (digit_chars ds) = digit_chars ds).
  { destruct H as [|d ds Hd _]; [reflexivity|].
    change (digit_chars (d :: ds)) with ((48 + d)%N :: digit_chars ds).
    cbn [without_sign].
    rewrite (digit_not_symbol d (ch "+") Hd) by (left; reflexivity).
    rewrite (digit_not_symbol d (ch "-") Hd) by (left; reflexivity).
    reflexivity. }
  rewrite S. unfold integer_body. rewrite (digit_count_digits ds H).
  apply andb_false_iff. right. apply N.leb_gt. exact Hlen.
Qed.

(** ** Folder names *)

Lemma last_occurrence (c : char) (s : str) :
  In c s -> exists a b, s = a ++ c :: b /\ ~ In c b.
Proof.
  induction s as [|x s IH]; simpl; [tauto|].
  intros H. destruct (in_dec N.eq_dec c s) as [I|I].
  - destruct (IH I) as (a & b & -> & Hb). now exists (x :: a), b.
  - destruct H as [->|H]; [|contradiction]. now exists [], s.
Qed.

Lemma last_split_suffix (c : char) (a b : str) :
  ~ In c b -> last (split c (a ++ b)) [] = last (split c a) [] ++ b.
Proof.
  intros Hb. destruct (in_dec N.eq_dec c a) as [I|I].
  - destruct (last_occurrence c a I) as (a1 & a2 & -> & H2).
    rewrite <- app_assoc. simpl.
    rewrite !last_split_app; [reflexivity|assumption|].
    intros F. apply in_app_or in F. tauto.
  - rewrite !split_notin; [reflexivity|assumption|].
    intros F. apply in_app_or in F. tauto.
Qed.

Lemma basename_suffix (a b : str) :
  ~ In (ch "/") b -> basename (a ++ b) = basename a ++ b.
Proof. apply last_split_suffix. Qed.

Lemma replace_app (c : char) (new a b : str) :
  replace c new (a ++ b) = replace c new a ++ replace c new b.
Proof. unfold replace. apply flat_map_app. Qed.

Lemma replace_notin (c : char) (new s : str) :
  ~ In c s -> replace c new s = s.
Proof.
  induction s as [|x s IH]; simpl; intros H; [reflexivity|].
  destruct (N.eqb_spec x c) as [->|N]; [tauto|].
  simpl. f_equal. apply IH. tauto.
Qed.

Lemma parse_gid_unfold (folder : str) :
  parse_gid folder = int (extracted_text (basename folder)).
Proof.
  unfold parse_gid, extracted_text.
  destruct (str_in (lit "[") (basename folder) && str_in (lit "]") (basename folder));
    reflexivity.
Qed.

Lemma parse_gid_raises (folder : str) (e : exception) :
  parse_gid folder = Raise e -> e = ValueError.
Proof.
  rewrite parse_gid_unfold. unfold int.
  destruct (int_literal _); congruence.
Qed.

Lemma extracted_text_brackets (P T : str) :
  ~ In (ch "[") T -> In (ch "]") (P ++ ch "[" :: T) ->
  extracted_text (P ++ ch "[" :: T) = replace (ch "]") [] T.
Proof.
  intros HT HB. unfold extracted_text.
  change (lit "[") with [ch "["]. change (lit "]") with [ch "]"].
  assert (E1 : str_in [ch "["] (P ++ ch "[" :: T) = true).
  { apply str_in_char, in_or_app. right. now left. }
  assert (E2 : str_in [ch "]"] (P ++ ch "[" :: T) = true)
    by now apply str_in_char.
  rewrite E1, E2. simpl andb. cbv iota.
  now rewrite last_split_app.
Qed.

Lemma extracted_text_plain (name : str) :
  ~ (In (ch "[") name /\ In (ch "]") name) -> extracted_text name = name.
Proof.
  intros H. unfold extracted_text.
  change (lit "[") with [ch "["]. change (lit "]") with [ch "]"].
  destruct (str_in [ch "["] name) eqn:E1; [|reflexivity].
  destruct (str_in [ch "]"] name) eqn:E2; [|reflexivity].
  apply str_in_char in E1, E2. tauto.
Qed.

(** ** The gallery id *)

(** C3, counterexample. The name "[1]2]" holds both brackets; between its
    last opening bracket and the closing bracket at its end stands "1]2",
    which is no integer, yet [parse_gid] returns 12. In "x [12]34" the
    brackets enclose "12", and [parse_gid] returns 1234. *)
Lemma parse_gid_bracket_counterexample :
  str_in (lit "[") (basename (lit "[1]2]")) = true /\
  str_in (lit "]") (basename (lit "[1]2]")) = true /\
  spec_bracket_substring (basename (lit "[1]2]")) = lit "1]2" /\
  int (lit "1]2") = Raise ValueError /\
  parse_gid (lit "[1]2]") = Ok 12%Z /\
  spec_bracket_substring (basename (lit "x [12]34")) = lit "12" /\
  int (lit "12") = Ok 12%Z /\
  parse_gid (lit "x [12]34") = Ok 1234%Z.
Proof. vm_compute. repeat split. Qed.

Lemma parse_gid_after_bracket (folder P T : str) :
  basename folder = P ++ ch "[" :: T ->
  ~ In (ch "[") T -> In (ch "]") (basename folder) ->
  parse_gid folder = int (replace (ch "]") [] T).
Proof.
  intros E HT HB. rewrite parse_gid_unfold, E.
  rewrite extracted_text_brackets; [reflexivity|assumption|now rewrite <- E].
Qed.

Lemma parse_gid_bracketed (folder P M : str) :
  basename folder = P ++ ch "[" :: M ++ [ch "]"] ->
  ~ In (ch "[") M -> ~ In (ch "]") M ->
  parse_gid folder = int M.
Proof.
  intros E H1 H2. rewrite (parse_gid_after_bracket folder P (M ++ [ch "]"])).
  - rewrite replace_app, replace_notin by assumption.
    simpl. now rewrite app_nil_r.
  - assumption.
  - intros F. apply in_app_or in F as [F|[F|[]]]; [tauto|discriminate].
  - rewrite E. apply in_or_app. right. right. apply in_or_app. right. now left.
Qed.

Lemma parse_gid_plain (folder : str) :
  ~ (In (ch "[") (basename folder) /\ In (ch "]") (basename folder)) ->
  parse_gid folder = int (basename folder).
Proof.
  intros H. rewrite parse_gid_unfold. now rewrite extracted_text_plain.
Qed.

Lemma parse_gid_literal (X : str) (ds : list N) :
  ds <> [] -> Forall (fun d => (d < 10)%N) ds ->
  (N.of_nat (List.length ds) <= int_max_str_digits)%N ->
  parse_gid (X ++ lit " [" ++ digit_chars ds ++ lit "]") = Ok (digits_value ds).
Proof.
  intros Hne Hds Hlen.
  assert (R : forall c, In c (digit_chars ds) -> (48 <= c <= 57)%N)
    by (intros c; now apply digit_chars_range).
  rewrite (parse_gid_bracketed _ (basename X ++ [ch " "]) (digit_chars ds)).
  - unfold int. now rewrite int_literal_digits.
  - rewrite basename_suffix.
    + rewrite <- app_assoc. reflexivity.
    + intros F. simpl in F. destruct F as [F|[F|F]]; try discriminate.
      apply in_app_or in F as [F|[F|[]]]; [|discriminate].
      apply R in F. cbv in F. destruct F as [F _]. now apply F.
  - intros F. apply R in F. cbv in F. destruct F as [_ F]. now apply F.
  - intros F. apply R in F. cbv in F. destruct F as [_ F]. now apply F.
Qed.

(** [int] at its limit: 4300 digits are read, 4301 are refused, in a
    bracketed folder name too. *)
Example int_digit_limit :
  (exists z, int (repeat (ch "1") 4300) = Ok z) /\
  int (repeat (ch "1") 4301) = Raise ValueError /\
  parse_gid (lit "Foo [" ++ repeat (ch "1") 4301 ++ lit "]") = Raise ValueError.
Proof.
  split; [|split].
  - destruct (int (repeat (ch "1") 4300)) as [z|e] eqn:E.
    + exists z. reflexivity.
    + exfalso. revert E. vm_compute. discriminate.
  - vm_compute. reflexivity.
  - vm_compute. reflexivity.
Qed.

(** C3, amended. When the basename holds both brackets, [parse_gid]
    returns the integer read from what follows the last opening bracket
    once every closing bracket is taken out of it; for a basename that ends
    with one bracketed text free of brackets, that is the integer of the
    text; for a folder name "X [N]" with N the digits of a non-negative
    literal, at most 4300 of them (the most [int] reads), it is the value of
    N; without the pair of brackets it is the integer read from the whole
    basename. *)
Theorem parse_gid_extraction :
  (forall folder P T,
      basename folder = P ++ ch "[" :: T ->
      ~ In (ch "[") T -> In (ch "]") (basename folder) ->
      parse_gid folder = int (replace (ch "]") [] T)) /\
  (forall folder P M,
      basename folder = P ++ ch "[" :: M ++ [ch "]"] ->
      ~ In (ch "[") M -> ~ In (ch "]") M ->
      parse_gid folder = int M) /\
  (forall X ds,
      ds <> [] -> Forall (fun d => (d < 10)%N) ds ->
      (N.of_nat (List.length ds) <= int_max_str_digits)%N ->
      parse_gid (X ++ lit " [" ++ digit_chars ds ++ lit "]") =
      Ok (digits_value ds)) /\
  (forall folder,
      ~ (In (ch "[") (basename folder) /\ In (ch "]") (basename folder)) ->
      parse_gid folder = int (basename folder)).
Proof.
  split; [|split; [|split]].
  - exact parse_gid_after_bracket.
  - exact parse_gid_bracketed.
  - exact parse_gid_literal.
  - exact parse_gid_plain.
Qed.

Lemma parse_gid_extraction_witness :
  parse_gid (lit "Some Title" ++ lit " [" ++ digit_chars [1; 2; 3; 4; 5]%N ++ lit "]")
  = Ok (digits_value [1; 2; 3; 4; 5]%N).
Proof.
  apply (proj1 (proj2 (proj2 parse_gid_extraction))).
  - discriminate.
  - repeat constructor.
  - vm_compute. discriminate.
Defined.

(** C7, counterexample. In "[1]2]" the bracket substring is "1]2", which is
    not a valid integer, and [parse_gid] raises nothing: it returns 12. In
    "x [12]ab" the bracket substring is "12", a valid integer, and
    [parse_gid] raises [ValueError]. *)
Lemma invalid_identifier_counterexample :
  spec_bracket_substring (basename (lit "[1]2]")) = lit "1]2" /\
  valid_integer (lit "1]2") = false /\
  parse_gid (lit "[1]2]") = Ok 12%Z /\
  str_in (lit "[") (basename (lit "x [12]ab")) = true /\
  str_in (lit "]") (basename (lit "x [12]ab")) = true /\
  spec_bracket_substring (basename (lit "x [12]ab")) = lit "12" /\
  valid_integer (lit "12") = true /\
  parse_gid (lit "x [12]ab") = Raise ValueError.
Proof. vm_compute. repeat split. Qed.

(** C7, amended. [parse_gid] raises [ValueError], the InvalidIdentifier of
    the specification, exactly when the text it reads the id from is not a
    valid integer: for a basename with both brackets, what follows the last
    opening bracket with every closing bracket taken out of it, which for a
    basename that ends with one bracketed text free of brackets is that
    text; the whole basename when the pair of brackets is missing. A valid
    integer is white space, an optional sign, decimal digits with single
    underscores between digits, at most 4300 digits, white space. It raises
    nothing else, and [parse_gid("Foo [abc]")] raises it. *)
Theorem parse_gid_invalid_identifier :
  (forall folder P T,
      basename folder = P ++ ch "[" :: T ->
      ~ In (ch "[") T -> In (ch "]") (basename folder) ->
      (parse_gid folder = Raise ValueError <->
       valid_integer (replace (ch "]") [] T) = false)) /\
  (forall folder P M,
      basename folder = P ++ ch "[" :: M ++ [ch "]"] ->
      ~ In (ch "[") M -> ~ In (ch "]") M ->
      (parse_gid folder = Raise ValueError <-> valid_integer M = false)) /\
  (forall folder,
      ~ (In (ch "[") (basename folder) /\ In (ch "]") (basename folder)) ->
      (parse_gid folder = Raise ValueError <->
       valid_integer (basename folder) = false)) /\
  (forall folder e, parse_gid folder = Raise e -> e = ValueError) /\
  parse_gid (lit "Foo [abc]") = Raise ValueError.
Proof.
  split; [|split; [|split; [|split]]].
  - intros folder P T E H1 H2.
    rewrite (parse_gid_after_bracket folder P T) by assumption.
    apply int_raises.
  - intros folder P M E H1 H2.
    rewrite (parse_gid_bracketed folder P M) by assumption.
    apply int_raises.
  - intros folder H.
    rewrite (parse_gid_plain folder) by assumption.
    apply int_raises.
  - intros folder e. rewrite parse_gid_unfold. unfold int.
    destruct (int_literal _); congruence.
  - vm_compute. reflexivity.
Qed.

Lemma parse_gid_invalid_identifier_witness :
  parse_gid (lit "/data/Foo [abc]") = Raise ValueError <->
  valid_integer (lit "abc") = false.
Proof.
  apply (proj1 (proj2 parse_gid_invalid_identifier)
           (lit "/data/Foo [abc]") (lit "Foo ") (lit "abc")).
  - reflexivity.
  - simpl. intros [F|[F|[F|[]]]]; discriminate.
  - simpl. intros [F|[F|[F|[]]]]; discriminate.
Defined.

(** ** The tag list *)

(** C6. The tag parser splits the value on commas (the pieces hold no comma
    and joined with commas give the value back) and maps every token, in
    order, to the tag the specification describes; the two examples of the
    specification. *)
Theorem parse_tags_spec :
  (forall value, parse_tags value = Ok (spec_parse_tags value)) /\
  (forall value,
      join [ch ","] (split (ch ",") value) = value /\
      Forall (fun token => ~ In (ch ",") token) (split (ch ",") value)) /\
  parse_tags (lit "a:1, b:2, 3") =
    Ok [(lit "a", lit "1"); (lit "b", lit "2"); (lit "untagged", lit "3")] /\
  parse_tags (lit ":x") = Ok [(lit "untagged", lit "x")].
Proof.
  split; [|split; [|split]].
  - intros value. unfold parse_tags. now rewrite tags_loop_spec.
  - intros value. split; [apply join_split|apply split_pieces].
  - vm_compute. reflexivity.
  - vm_compute. reflexivity.
Qed.

(** ** The page count *)

Lemma pages_cached (fs : FileSystem) (self : GalleryInfoParser) :
  _pages self <> (-1)%Z -> pages fs self = Ok (_pages self, self).
Proof.
  intros H. unfold pages. apply Z.eqb_neq in H. now rewrite H.
Qed.

Lemma pages_accesses_cached (self : GalleryInfoParser) (states : list FileSystem) :
  _pages self <> (-1)%Z ->
  pages_accesses self states = Ok (repeat (_pages self) (List.length states)).
Proof.
  intros H. induction states as [|fs states IH]; simpl; [reflexivity|].
  rewrite pages_cached by assumption. simpl. now rewrite IH.
Qed.

Lemma init_pages (f n : str) (g : Z) (fl : list str) (mt : Z) (t : str)
  (ut : datetime) (c a : str) (dt : datetime) (tg : list (str * str)) :
  _pages (__init__ f n g fl mt t ut c a dt tg) = (-1)%Z.
Proof. reflexivity. Qed.

(** C2, counterexample. A record whose folder holds no regular file at the
    first access of [pages] and three at the second: the first access
    computes -1, the second returns 2. *)
Lemma pages_cache_counterexample :
  _pages sample_record = (-1)%Z /\
  pages_accesses sample_record
    [fs_listing [];
     fs_listing [lit "galleryinfo.txt"; lit "1.jpg"; lit "2.jpg"]]
  = Ok [(-1)%Z; 2%Z].
Proof. vm_compute. split; reflexivity. Qed.

(** C2, amended. The first access of [pages] on a record as [__init__]
    leaves it computes the number of regular files directly inside the
    gallery folder minus 1, and once a value other than -1 has been computed,
    every later access returns that same value, whatever the state of the
    file system at each access. *)
Theorem pages_first_then_stable (self : GalleryInfoParser) (fs : FileSystem)
  (names : list str) :
  _pages self = (-1)%Z ->
  listdir fs (gallery_folder self) = Ok names ->
  exists n self',
    n = (Z.of_nat
           (List.length
              (filter (fun f => isfile fs (path_join (gallery_folder self) f))
                      names)) - 1)%Z /\
    pages fs self = Ok (n, self') /\
    (n <> (-1)%Z ->
     forall later : list FileSystem,
       pages_accesses self' later = Ok (repeat n (List.length later))).
Proof.
  intros Hfresh Hls.
  set (n := (Z.of_nat
               (List.length
                  (filter (fun f => isfile fs (path_join (gallery_folder self) f))
                          names)) - 1)%Z).
  exists n, (set_pages self n).
  split; [reflexivity|]. split.
  - unfold pages, count_files_in_directory.
    rewrite Hfresh, Hls. reflexivity.
  - intros Hn later.
    apply (pages_accesses_cached (set_pages self n) later). exact Hn.
Qed.

Lemma pages_first_then_stable_witness :
  exists n self',
    n = (Z.of_nat
           (List.length
              (filter (fun f => isfile
                                  (fs_listing [lit "galleryinfo.txt"; lit "1.jpg";
                                               lit "2.jpg"; lit "3.jpg"; lit "4.jpg"])
                                  (path_join (gallery_folder sample_record) f))
                      [lit "galleryinfo.txt"; lit "1.jpg"; lit "2.jpg";
                       lit "3.jpg"; lit "4.jpg"])) - 1)%Z /\
    pages (fs_listing [lit "galleryinfo.txt"; lit "1.jpg"; lit "2.jpg";
                       lit "3.jpg"; lit "4.jpg"]) sample_record = Ok (n, self') /\
    (n <> (-1)%Z ->
     forall later : list FileSystem,
       pages_accesses self' later = Ok (repeat n (List.length later))).
Proof.
  apply (pages_first_then_stable sample_record
           (fs_listing [lit "galleryinfo.txt"; lit "1.jpg"; lit "2.jpg";
                        lit "3.jpg"; lit "4.jpg"])
           [lit "galleryinfo.txt"; lit "1.jpg"; lit "2.jpg"; lit "3.jpg";
            lit "4.jpg"]); reflexivity.
Defined.

(** The example of the specification: the sidecar and four other files
    give 4 pages, and 4 again after a fifth file is added. *)
Example pages_four_then_five :
  pages_accesses sample_record
    [fs_listing [lit "galleryinfo.txt"; lit "1.jpg"; lit "2.jpg"; lit "3.jpg";
                 lit "4.jpg"];
     fs_listing [lit "galleryinfo.txt"; lit "1.jpg"; lit "2.jpg"; lit "3.jpg";
                 lit "4.jpg"; lit "5.jpg"]]
  = Ok [4%Z; 4%Z].
Proof. vm_compute. reflexivity. Qed.

(** ** The loop over the lines *)

Lemma header_entry_colon (line : str) :
  str_in (lit ":") line = true ->
  exists k x, split1 (ch ":") line = [k; x] /\
              header_entry line = Some (strip k, strip x).
Proof.
  change (lit ":") with [ch ":"]. intros H. apply str_in_char in H.
  destruct (split1_In _ _ H) as (k & x & E & _ & _).
  exists k, x. unfold header_entry. now rewrite E.
Qed.

Lemma header_entry_plain (line : str) :
  str_in (lit ":") line = false -> header_entry line = None.
Proof.
  change (lit ":") with [ch ":"]. intros H. apply str_in_char_false in H.
  unfold header_entry. now rewrite split1_notin.
Qed.

Lemma parse_tags_total (value : str) :
  parse_tags value = Ok (spec_parse_tags value).
Proof. unfold parse_tags. now rewrite tags_loop_spec. Qed.

Lemma label_injective (f g : field) : label f = label g -> f = g.
Proof. destruct f, g; simpl; intros H; try reflexivity; discriminate H. Qed.

Lemma label_eqb (f g : field) :
  str_eqb (label f) (label g) = true <-> f = g.
Proof.
  rewrite str_eqb_eq. split; [apply label_injective|now intros ->].
Qed.

(** The statement [match key] assigns the variable of the label it meets
    and no other; it fails only on a timestamp that [strptime] refuses. *)
Lemma match_key_ok (v v' : locals) (key value : str) :
  match_key v key value = Ok v' ->
  comments v' = comments v /\ comment_lines v' = comment_lines v /\
  forall f,
    (key = label f ->
     exists x, convert f value = Ok x /\ variable f v' = Some x) /\
    (key <> label f -> variable f v' = variable f v).
Proof.
  unfold match_key. rewrite parse_tags_total.
  destruct (str_eqb key (lit "Tags")) eqn:E1;
    [|destruct (str_eqb key (lit "Title")) eqn:E2;
      [|destruct (str_eqb key (lit "Upload Time")) eqn:E3;
        [|destruct (str_eqb key (lit "Uploaded By")) eqn:E4;
          [|destruct (str_eqb key (lit "Downloaded")) eqn:E5]]]].
  all: str_eqs.
  all: try (destruct (strptime value) as [t|e] eqn:Et); cbn [bind].
  all: intros H; try discriminate H; injection H as <-.
  all: split; [reflexivity|split; [reflexivity|]].
  all: intros f; split; intros Hk.
  all: destruct f; cbn [label] in *; cbn [variable convert]; subst.
  all: try reflexivity; try congruence; try discriminate.
  all: rewrite ?parse_tags_total, ?Et; cbn [bind].
  all: eexists; split; reflexivity.
Qed.

Lemma strptime_raises (value : str) (e : exception) :
  strptime value = Raise e -> e = ValueError.
Proof.
  unfold strptime, int.
  destruct (format_regex value) as [|[g r] ?]; [congruence|].
  destruct (negb (str_eqb r [])); [congruence|].
  repeat match goal with
         | |- context [int_literal ?s] => destruct (int_literal s); simpl
         end; try congruence.
  destruct (valid_date _ _ _); congruence.
Qed.

Lemma match_key_raise (v : locals) (key value : str) (e : exception) :
  match_key v key value = Raise e ->
  e = ValueError /\ timestamp_label key = true /\ accepted value = false.
Proof.
  unfold match_key, timestamp_label, accepted. rewrite parse_tags_total.
  destruct (str_eqb key (lit "Tags")); [discriminate|].
  destruct (str_eqb key (lit "Title")); [discriminate|].
  destruct (str_eqb key (lit "Upload Time")).
  - destruct (strptime value) eqn:Et; simpl; [discriminate|].
    intros H. injection H as <-. now rewrite (strptime_raises _ _ Et).
  - destruct (str_eqb key (lit "Uploaded By")); [discriminate|].
    destruct (str_eqb key (lit "Downloaded")); [|discriminate].
    destruct (strptime value) eqn:Et; simpl; [discriminate|].
    intros H. injection H as <-. now rewrite (strptime_raises _ _ Et).
Qed.

Lemma match_key_total (v : locals) (key value : str) :
  negb (timestamp_label key) || accepted value = true ->
  exists v', match_key v key value = Ok v'.
Proof.
  intros H. destruct (match_key v key value) as [v'|e] eqn:E; [now exists v'|].
  apply match_key_raise in E as (_ & E1 & E2). rewrite E1, E2 in H.
  discriminate H.
Qed.

Lemma loop_body_marker (v : locals) (line : str) :
  str_in MARKER line = true ->
  loop_body v line = Ok (Continue, set_comments v true).
Proof. intros H. unfold loop_body. now rewrite H. Qed.

Lemma loop_body_comment (v : locals) (line : str) :
  str_in MARKER line = false -> comments v = true ->
  loop_body v line =
  if str_eqb line SENTINEL then Ok (Break, v)
  else Ok (Continue, append_comment_line v (strip line)).
Proof. intros H C. unfold loop_body. now rewrite H, C. Qed.

Lemma loop_body_header (v : locals) (line : str) :
  str_in MARKER line = false -> comments v = false ->
  loop_body v line =
  match header_entry line with
  | Some (key, value) => v' <- match_key v key value ;; Ok (Continue, v')
  | None => Ok (Continue, v)
  end.
Proof.
  intros H C. unfold loop_body. rewrite H, C.
  destruct (str_in (lit ":") line) eqn:E.
  - destruct (header_entry_colon line E) as (k & x & Es & Eh).
    rewrite Es, Eh. reflexivity.
  - now rewrite header_entry_plain.
Qed.

Lemma add_no_comment_lines (v : locals) :
  comments v = true -> add_comment_lines v [] = v.
Proof.
  destruct v. simpl. intros ->. unfold add_comment_lines. simpl.
  now rewrite app_nil_r.
Qed.

Lemma add_comment_lines_cons (v : locals) (l : str) (ls : list str) :
  add_comment_lines (append_comment_line v l) ls = add_comment_lines v (l :: ls).
Proof.
  unfold add_comment_lines. simpl. now rewrite <- app_assoc.
Qed.

(** After the marker the loop cannot fail and assigns nothing but the
    comment buffer. *)
Lemma for_lines_comments (lines : list str) (v : locals) :
  comments v = true ->
  for_lines v lines = Ok (add_comment_lines v (comment_buffer lines)).
Proof.
  revert v. induction lines as [|line lines IH]; intros v C.
  - simpl. now rewrite add_no_comment_lines.
  - cbn [for_lines comment_buffer].
    destruct (str_in MARKER line) eqn:M.
    + rewrite loop_body_marker by assumption. cbn [bind].
      now rewrite IH.
    + rewrite loop_body_comment by assumption.
      destruct (str_eqb line SENTINEL); cbn [bind].
      * now rewrite add_no_comment_lines.
      * rewrite IH by exact C. now rewrite add_comment_lines_cons.
Qed.

Lemma variable_add_comment_lines (f : field) (v : locals) (ls : list str) :
  variable f (add_comment_lines v ls) = variable f v.
Proof. destruct f; reflexivity. Qed.

Lemma header_entries_marker (line : str) (lines : list str) :
  str_in MARKER line = true -> header_entries (line :: lines) = [].
Proof. intros H. simpl. now rewrite H. Qed.

Lemma header_entries_entry (line : str) (lines : list str) (e : str * str) :
  str_in MARKER line = false -> header_entry line = Some e ->
  header_entries (line :: lines) = e :: header_entries lines.
Proof. intros H E. simpl. now rewrite H, E. Qed.

Lemma header_entries_skip (line : str) (lines : list str) :
  str_in MARKER line = false -> header_entry line = None ->
  header_entries (line :: lines) = header_entries lines.
Proof. intros H E. simpl. now rewrite H, E. Qed.

Lemma for_lines_header (lines : list str) (v : locals) :
  comments v = false ->
  match for_lines v lines with
  | Ok v' =>
      timestamps_ok lines = true /\
      (forall f, variable f v' = final_value f (variable f v) lines) /\
      comment_lines v' = comment_lines v ++ comment_buffer (after_marker lines)
  | Raise e => e = ValueError /\ timestamps_ok lines = false
  end.
Proof.
  revert v. induction lines as [|line lines IH]; intros v C.
  - simpl. repeat split. now rewrite app_nil_r.
  - cbn [for_lines after_marker]. unfold final_value, field_values, timestamps_ok.
    destruct (str_in MARKER line) eqn:M.
    + rewrite loop_body_marker by assumption. cbn [bind].
      rewrite for_lines_comments by reflexivity.
      rewrite header_entries_marker by assumption.
      split; [reflexivity|split; [|reflexivity]].
      intros f. destruct f; reflexivity.
    + rewrite loop_body_header by assumption.
      destruct (header_entry line) as [[key value]|] eqn:E.
      * rewrite (header_entries_entry _ _ _ M E).
        destruct (match_key v key value) as [v1|e] eqn:K; cbn [bind].
        -- destruct (match_key_ok _ _ _ _ K) as (C1 & L1 & V1).
           specialize (IH v1). rewrite C1 in IH. specialize (IH C).
           destruct (for_lines v1 lines) as [v'|e'].
           ++ destruct IH as (T & V & B). split; [|split].
              ** cbn [forallb fst snd]. unfold timestamps_ok in T. rewrite T.
                 destruct (timestamp_label key) eqn:TL; [|reflexivity].
                 unfold timestamp_label in TL. unfold accepted.
                 destruct (str_eqb key (lit "Upload Time")) eqn:E1.
                 --- str_eqs. destruct (proj1 (V1 FUploadTime) E1) as (x & Hx & _).
                     cbn [convert] in Hx. now destruct (strptime value).
                 --- str_eqs. simpl in TL. str_eqs.
                     destruct (proj1 (V1 FDownloaded) TL) as (x & Hx & _).
                     cbn [convert] in Hx. now destruct (strptime value).
              ** intros f. rewrite V. unfold final_value, field_values.
                 cbn [filter fst].
                 destruct (str_eqb key (label f)) eqn:EK; str_eqs.
                 --- destruct (proj1 (V1 f) EK) as (x & Hx & Hv).
                     cbn [map snd].
                     destruct (map snd (filter _ (header_entries lines)))
                       as [|w ws] eqn:F.
                     +++ cbn [last]. now rewrite Hx, Hv.
                     +++ reflexivity.
                 --- rewrite (proj2 (V1 f) EK). reflexivity.
              ** now rewrite B, L1.
           ++ destruct IH as (-> & T). split; [reflexivity|].
              cbn [forallb]. unfold timestamps_ok in T. rewrite T.
              apply andb_false_r.
        -- apply match_key_raise in K as (-> & K1 & K2).
           split; [reflexivity|]. cbn [forallb fst snd]. now rewrite K1, K2.
      * rewrite (header_entries_skip _ _ M E). cbn [bind].
        apply (IH v C).
Qed.

(** ** [parse_galleryinfo] *)

Lemma parse_galleryinfo_scan (fs : FileSystem) (folder : str)
  (lines fl : list str) (g mt : Z) :
  sidecar_lines fs folder = Ok lines ->
  parse_gid folder = Ok g ->
  listdir fs folder = Ok fl ->
  getmtime fs (path_join folder (lit "galleryinfo.txt")) = Ok mt ->
  parse_galleryinfo fs folder =
  (v <- for_lines initial_locals lines ;; assemble folder g fl mt v).
Proof.
  unfold sidecar_lines, parse_galleryinfo. intros Hs Hg Hl Hm.
  destruct (read_text fs _) as [text|e]; [|discriminate].
  cbn [bind] in *. injection Hs as <-.
  rewrite Hg, Hl, Hm. reflexivity.
Qed.

Lemma parse_galleryinfo_inv (fs : FileSystem) (folder : str)
  (r : GalleryInfoParser) :
  parse_galleryinfo fs folder = Ok r ->
  exists lines fl g mt v,
    sidecar_lines fs folder = Ok lines /\
    parse_gid folder = Ok g /\
    listdir fs folder = Ok fl /\
    getmtime fs (path_join folder (lit "galleryinfo.txt")) = Ok mt /\
    for_lines initial_locals lines = Ok v /\
    assemble folder g fl mt v = Ok r.
Proof.
  unfold sidecar_lines, parse_galleryinfo.
  destruct (read_text fs _) as [text|e]; [|discriminate]. cbn [bind].
  destruct (parse_gid folder) as [g|e]; [|discriminate]. cbn [bind].
  destruct (listdir fs folder) as [fl|e]; [|discriminate]. cbn [bind].
  destruct (getmtime fs _) as [mt|e]; [|discriminate]. cbn [bind].
  destruct (for_lines initial_locals _) as [v|e] eqn:F; [|discriminate].
  cbn [bind]. intros H.
  exists (split NL (strip_chars [NL] text)), fl, g, mt, v.
  repeat split; try reflexivity; assumption.
Qed.

Lemma assemble_ok (folder : str) (g : Z) (fl : list str) (mt : Z)
  (v : locals) (r : GalleryInfoParser) :
  assemble folder g fl mt v = Ok r ->
  (forall f, variable f v = Some (record_field f r)) /\
  galleries_comments r = strip_chars [NL] (join [NL] (comment_lines v)) /\
  gallery_folder r = folder /\ gallery_name r = basename folder /\
  gid r = g /\ files_path r = fl /\ modified_time r = mt /\
  _pages r = (-1)%Z.
Proof.
  unfold assemble.
  destruct (title_var v) eqn:E1; [|discriminate].
  destruct (upload_time_var v) eqn:E2; [|discriminate].
  destruct (upload_account_var v) eqn:E3; [|discriminate].
  destruct (download_time_var v) eqn:E4; [|discriminate].
  destruct (tags_var v) eqn:E5; [|discriminate].
  cbn [load bind]. intros H. injection H as <-.
  split; [|repeat split].
  intros f. destruct f; cbn [variable record_field];
    rewrite ?E1, ?E2, ?E3, ?E4, ?E5; reflexivity.
Qed.

Lemma assemble_complete (folder : str) (g : Z) (fl : list str) (mt : Z)
  (v : locals) :
  (forall f, variable f v <> None) ->
  exists r, assemble folder g fl mt v = Ok r.
Proof.
  intros H. unfold assemble.
  pose proof (H FTitle) as H1. pose proof (H FUploadTime) as H2.
  pose proof (H FUploadedBy) as H3. pose proof (H FDownloaded) as H4.
  pose proof (H FTags) as H5. cbn [variable] in *.
  destruct (title_var v); [|now destruct H1].
  destruct (upload_time_var v); [|now destruct H2].
  destruct (upload_account_var v); [|now destruct H3].
  destruct (download_time_var v); [|now destruct H4].
  destruct (tags_var v); [|now destruct H5].
  cbn [load bind]. eexists. reflexivity.
Qed.

(** A variable of a required label left unbound makes the return statement
    raise [UnboundLocalError], on the first of them in the order of the
    call. *)
Lemma assemble_missing (folder : str) (g : Z) (fl : list str) (mt : Z)
  (v : locals) (f : field) :
  f <> FTags -> variable f v = None ->
  exists name,
    In name missing_names /\
    assemble folder g fl mt v = Raise (UnboundLocalError name) /\
    (f = FTitle -> name = "title"%string).
Proof.
  intros Hf Hv. unfold assemble, missing_names.
  destruct (title_var v) eqn:E1; cbn [load bind];
    [|exists "title"%string; simpl; tauto].
  destruct (upload_time_var v) eqn:E2; cbn [load bind];
    [|exists "upload_time"%string; simpl; split; [tauto|split; [reflexivity|]];
      intros ->; cbn [variable] in Hv; rewrite E1 in Hv; discriminate].
  destruct (upload_account_var v) eqn:E3; cbn [load bind];
    [|exists "upload_account"%string; simpl; split; [tauto|split; [reflexivity|]];
      intros ->; cbn [variable] in Hv; rewrite E1 in Hv; discriminate].
  destruct (download_time_var v) eqn:E4; cbn [load bind];
    [|exists "download_time"%string; simpl; split; [tauto|split; [reflexivity|]];
      intros ->; cbn [variable] in Hv; rewrite E1 in Hv; discriminate].
  exfalso. destruct f; cbn [variable] in Hv;
    rewrite ?E1, ?E2, ?E3, ?E4 in Hv; try discriminate. now apply Hf.
Qed.

Lemma assemble_missing_tags (folder : str) (g : Z) (fl : list str) (mt : Z)
  (v : locals) :
  (forall f, f <> FTags -> variable f v <> None) ->
  variable FTags v = None ->
  assemble folder g fl mt v = Raise (UnboundLocalError "tags").
Proof.
  intros H Ht. unfold assemble.
  assert (H1 := H FTitle). assert (H2 := H FUploadTime).
  assert (H3 := H FUploadedBy). assert (H4 := H FDownloaded).
  cbn [variable] in *.
  destruct (title_var v); [|now destruct H1].
  destruct (upload_time_var v); [|now destruct H2].
  destruct (upload_account_var v); [|now destruct H3].
  destruct (download_time_var v); [|now destruct H4].
  destruct (tags_var v); [discriminate|]. reflexivity.
Qed.

Lemma required_label_field (lbl : str) :
  In lbl required_labels -> exists f, f <> FTags /\ lbl = label f.
Proof.
  unfold required_labels. simpl.
  intros [<-|[<-|[<-|[<-|[]]]]];
    [exists FTitle|exists FUploadTime|exists FUploadedBy|exists FDownloaded];
    split; try reflexivity; discriminate.
Qed.

Lemma final_value_absent (f : field) (before : option field_value)
  (lines : list str) :
  has_label (label f) lines = false -> final_value f before lines = before.
Proof.
  unfold has_label, final_value.
  destruct (field_values (label f) lines); [reflexivity|discriminate].
Qed.

Lemma final_value_present (f : field) (before : option field_value)
  (lines : list str) :
  has_label (label f) lines = true ->
  final_value f before lines =
  match convert f (last (field_values (label f) lines) []) with
  | Ok x => Some x
  | Raise _ => None
  end.
Proof.
  unfold has_label, final_value.
  destruct (field_values (label f) lines); [discriminate|reflexivity].
Qed.

(** With every timestamp accepted, the conversion of any value a label
    receives before the marker succeeds. *)
Lemma convert_accepted (f : field) (lines : list str) (value : str) :
  timestamps_ok lines = true ->
  In value (field_values (label f) lines) ->
  exists x, convert f value = Ok x.
Proof.
  unfold timestamps_ok, field_values. intros T H.
  apply in_map_iff in H as ([k x] & <- & H).
  apply filter_In in H as [H Ek]. cbn [fst snd] in *. str_eqs.
  rewrite forallb_forall in T. specialize (T _ H). cbn [fst snd] in T.
  destruct f; cbn [convert]; rewrite ?parse_tags_total; cbn [bind];
    try (eexists; reflexivity);
    subst k; unfold accepted in T; simpl in T;
    destruct (strptime x); try discriminate; cbn [bind]; eexists; reflexivity.
Qed.

Lemma last_In (A : Type) (l : list A) (d : A) : l <> [] -> In (last l d) l.
Proof.
  induction l as [|x l IH]; [congruence|]. intros _.
  destruct l as [|y l]; [now left|]. right. apply IH. discriminate.
Qed.

Lemma final_value_bound (f : field) (before : option field_value)
  (lines : list str) :
  timestamps_ok lines = true -> has_label (label f) lines = true ->
  final_value f before lines <> None.
Proof.
  intros T H. rewrite final_value_present by assumption.
  destruct (convert_accepted f lines (last (field_values (label f) lines) []) T)
    as (x & ->); [|discriminate].
  apply last_In. unfold has_label in H.
  destruct (field_values (label f) lines); [discriminate H|discriminate].
Qed.

Lemma header_entries_app (pre rest : list str) :
  (forall l, In l pre -> str_in MARKER l = false) ->
  header_entries (pre ++ rest) = header_entries pre ++ header_entries rest.
Proof.
  induction pre as [|l pre IH]; intros H; [reflexivity|].
  simpl. rewrite (H l) by now left.
  rewrite IH by (intros; apply H; now right).
  destruct (header_entry l); reflexivity.
Qed.

Lemma field_values_last (lbl value line : str) (pre post : list str) :
  (forall l, In l pre -> str_in MARKER l = false) ->
  str_in MARKER line = false ->
  header_entry line = Some (lbl, value) ->
  field_values lbl post = [] ->
  exists values, field_values lbl (pre ++ line :: post) = values ++ [value].
Proof.
  intros Hpre Hline He Hpost. exists (field_values lbl pre).
  unfold field_values in *.
  rewrite header_entries_app by assumption.
  rewrite (header_entries_entry _ _ _ Hline He).
  rewrite filter_app, map_app. cbn [filter fst].
  rewrite str_eqb_refl. cbn [map snd]. now rewrite Hpost.
Qed.

Lemma sidecar_lines_text (text : str) (names : list str) (folder : str) :
  sidecar_lines (fs_gallery text names) folder =
  Ok (split NL (strip_chars [NL] text)).
Proof. reflexivity. Qed.

(** ** Missing fields *)

(** C1, counterexample. A sidecar with no title whose upload time is no
    timestamp: [parse_galleryinfo] raises [ValueError], the
    TimestampFormatError of the specification, and not the error of a
    missing field. *)
Lemma missing_title_counterexample :
  sidecar_lines (fs_gallery (text_of_lines lines_bad_time_no_title) sample_names)
    sample_folder = Ok lines_bad_time_no_title /\
  has_label (lit "Title") lines_bad_time_no_title = false /\
  parse_galleryinfo
    (fs_gallery (text_of_lines lines_bad_time_no_title) sample_names)
    sample_folder = Raise ValueError.
Proof. vm_compute. repeat split. Qed.

Lemma variable_unbound (lines : list str) (v : locals) :
  for_lines initial_locals lines = Ok v ->
  forall f, variable f v = None <-> has_label (label f) lines = false.
Proof.
  intros Hv f.
  pose proof (for_lines_header lines initial_locals eq_refl) as H.
  rewrite Hv in H. destruct H as (T & V & _). rewrite V.
  destruct (has_label (label f) lines) eqn:E.
  - split; [|discriminate]. intros F.
    now apply (final_value_bound f _ lines T E) in F.
  - rewrite final_value_absent by assumption.
    split; [reflexivity|]. intros _. now destruct f.
Qed.

(** The return statement raises on the first variable, in the order in
    which it reads them, whose label the header does not carry. *)
Lemma assemble_first_unbound (folder : str) (g : Z) (fl : list str) (mt : Z)
  (v : locals) (lines : list str) (name : string) :
  (forall f, variable f v = None <-> has_label (label f) lines = false) ->
  first_unbound lines = Some name ->
  assemble folder g fl mt v = Raise (UnboundLocalError name).
Proof.
  intros H. unfold first_unbound, read_order. cbn [find fst snd].
  pose proof (H FTitle) as H1. pose proof (H FUploadTime) as H2.
  pose proof (H FUploadedBy) as H3. pose proof (H FDownloaded) as H4.
  pose proof (H FTags) as H5. cbn [variable label] in *. clear H.
  unfold assemble.
  destruct (title_var v), (has_label (lit "Title") lines);
    cbn [option_map negb load bind] in *;
    try (exfalso; destruct H1 as [A B];
         (discriminate (A eq_refl) || discriminate (B eq_refl)));
    [|intros E; injection E as <-; reflexivity].
  destruct (upload_time_var v), (has_label (lit "Upload Time") lines);
    cbn [option_map negb load bind] in *;
    try (exfalso; destruct H2 as [A B];
         (discriminate (A eq_refl) || discriminate (B eq_refl)));
    [|intros E; injection E as <-; reflexivity].
  destruct (upload_account_var v), (has_label (lit "Uploaded By") lines);
    cbn [option_map negb load bind] in *;
    try (exfalso; destruct H3 as [A B];
         (discriminate (A eq_refl) || discriminate (B eq_refl)));
    [|intros E; injection E as <-; reflexivity].
  destruct (download_time_var v), (has_label (lit "Downloaded") lines);
    cbn [option_map negb load bind] in *;
    try (exfalso; destruct H4 as [A B];
         (discriminate (A eq_refl) || discriminate (B eq_refl)));
    [|intros E; injection E as <-; reflexivity].
  destruct (tags_var v), (has_label (lit "Tags") lines);
    cbn [option_map negb load bind] in *;
    try (exfalso; destruct H5 as [A B];
         (discriminate (A eq_refl) || discriminate (B eq_refl)));
    [discriminate|intros E; injection E as <-; reflexivity].
Qed.

(** With a required label missing, the first variable left unbound is one
    of the four of the required labels. *)
Lemma first_unbound_required (lines : list str) (lbl : str) :
  In lbl required_labels -> has_label lbl lines = false ->
  exists name,
    first_unbound lines = Some name /\ In name missing_names /\
    (lbl = lit "Title" -> name = "title"%string).
Proof.
  unfold first_unbound, read_order, required_labels, missing_names.
  cbn [find fst snd]. intros Hl H.
  destruct (has_label (lit "Title") lines) eqn:E1; cbn [negb option_map snd];
    [|exists "title"%string; simpl; tauto].
  destruct (has_label (lit "Upload Time") lines) eqn:E2; cbn [negb option_map snd];
    [|exists "upload_time"%string; simpl; split; [reflexivity|split; [tauto|]];
      intros ->; congruence].
  destruct (has_label (lit "Uploaded By") lines) eqn:E3; cbn [negb option_map snd];
    [|exists "upload_account"%string; simpl; split; [reflexivity|split; [tauto|]];
      intros ->; congruence].
  destruct (has_label (lit "Downloaded") lines) eqn:E4; cbn [negb option_map snd];
    [|exists "download_time"%string; simpl; split; [reflexivity|split; [tauto|]];
      intros ->; congruence].
  exfalso. simpl in Hl. destruct Hl as [<-|[<-|[<-|[<-|[]]]]]; congruence.
Qed.

(** C1, amended. When the sidecar has no header line with one of the four
    required labels before the comment marker, [parse_galleryinfo] returns
    no record. When the folder id, the directory listing and the
    modification time are obtained and every timestamp value before the
    marker is accepted, it raises [UnboundLocalError], the MissingFieldError
    of the specification, on the first variable left unbound in the order
    [title], [upload_time], [upload_account], [download_time]: on [title]
    when the missing label is Title. An invalid folder id is reported
    instead, as [ValueError]; so is, once the id, the listing and the
    modification time are obtained, a timestamp value that is not
    accepted. *)
Theorem missing_required_label (fs : FileSystem) (folder : str)
  (lines : list str) (lbl : str) :
  sidecar_lines fs folder = Ok lines ->
  In lbl required_labels ->
  has_label lbl lines = false ->
  (forall r, parse_galleryinfo fs folder <> Ok r) /\
  (exists name,
      first_unbound lines = Some name /\ In name missing_names /\
      (lbl = lit "Title" -> name = "title"%string) /\
      forall g fl mt,
        parse_gid folder = Ok g ->
        listdir fs folder = Ok fl ->
        getmtime fs (path_join folder (lit "galleryinfo.txt")) = Ok mt ->
        timestamps_ok lines = true ->
        parse_galleryinfo fs folder = Raise (UnboundLocalError name)) /\
  (forall e, parse_gid folder = Raise e ->
             e = ValueError /\ parse_galleryinfo fs folder = Raise ValueError) /\
  (forall g fl mt,
      parse_gid folder = Ok g ->
      listdir fs folder = Ok fl ->
      getmtime fs (path_join folder (lit "galleryinfo.txt")) = Ok mt ->
      timestamps_ok lines = false ->
      parse_galleryinfo fs folder = Raise ValueError).
Proof.
  intros Hs Hl Hm.
  pose proof (for_lines_header lines initial_locals eq_refl) as H.
  split; [|split; [|split]].
  - destruct (required_label_field lbl Hl) as (f & Hf & ->).
    intros r Hr. apply parse_galleryinfo_inv in Hr
      as (lines' & fl & g & mt & v & Hs' & _ & _ & _ & Hv & Ha).
    rewrite Hs in Hs'. injection Hs' as <-.
    apply assemble_ok in Ha as (Ha & _). specialize (Ha f).
    rewrite (proj2 (variable_unbound lines v Hv f) Hm) in Ha. discriminate Ha.
  - destruct (first_unbound_required lines lbl Hl Hm) as (name & Hn & Hi & Ht).
    exists name. split; [exact Hn|split; [exact Hi|split; [exact Ht|]]].
    intros g fl mt Hg Hls Hmt T.
    rewrite (parse_galleryinfo_scan fs folder lines fl g mt) by assumption.
    destruct (for_lines initial_locals lines) as [v|e] eqn:Hv.
    + cbn [bind].
      apply (assemble_first_unbound folder g fl mt v lines name);
        [now apply variable_unbound|exact Hn].
    + destruct H as (_ & H). congruence.
  - intros e Hg. pose proof (parse_gid_raises _ _ Hg) as ->.
    split; [reflexivity|].
    unfold sidecar_lines in Hs. unfold parse_galleryinfo.
    destruct (read_text fs _); [|discriminate Hs].
    cbn [bind]. now rewrite Hg.
  - intros g fl mt Hg Hls Hmt T.
    rewrite (parse_galleryinfo_scan fs folder lines fl g mt) by assumption.
    rewrite T in H.
    destruct (for_lines initial_locals lines) as [v|e].
    + destruct H as (H & _). discriminate H.
    + destruct H as (-> & _). reflexivity.
Qed.

Lemma missing_required_label_witness :
  exists name,
    first_unbound lines_title_tags = Some name /\
    name = "upload_time"%string /\
    parse_galleryinfo (fs_gallery (text_of_lines lines_title_tags) sample_names)
      sample_folder = Raise (UnboundLocalError name).
Proof.
  destruct (proj1 (proj2
             (missing_required_label
                (fs_gallery (text_of_lines lines_title_tags) sample_names)
                sample_folder lines_title_tags (lit "Uploaded By")
                eq_refl (or_intror (or_intror (or_introl eq_refl))) eq_refl)))
    as (name & Hn & _ & _ & H).
  exists name. split; [exact Hn|split].
  - revert Hn. vm_compute. intros E. injection E as <-. reflexivity.
  - apply (H 1%Z sample_names 0%Z); reflexivity.
Defined.

Example missing_title_raises :
  parse_galleryinfo (fs_gallery (text_of_lines lines_no_title) sample_names)
    sample_folder = Raise (UnboundLocalError "title") /\
  parse_galleryinfo (fs_gallery (text_of_lines lines_title_tags) sample_names)
    sample_folder = Raise (UnboundLocalError "upload_time").
Proof. vm_compute. split; reflexivity. Qed.

(** C5, counterexample. A sidecar with the four required labels, valid
    values and no Tags line: [parse_galleryinfo] raises [UnboundLocalError]
    on [tags] and returns no record. *)
Lemma tags_optional_counterexample :
  sidecar_lines (fs_gallery (text_of_lines lines_no_tags) sample_names)
    sample_folder = Ok lines_no_tags /\
  forallb (fun lbl => has_label lbl lines_no_tags) required_labels = true /\
  timestamps_ok lines_no_tags = true /\
  has_label (lit "Tags") lines_no_tags = false /\
  parse_galleryinfo (fs_gallery (text_of_lines lines_no_tags) sample_names)
    sample_folder = Raise (UnboundLocalError "tags").
Proof. vm_compute. repeat split. Qed.

(** C5, amended. For a sidecar that holds the four labels Title, Upload
    Time, Uploaded By and Downloaded before the comment marker, with every
    timestamp value accepted, in a folder whose id, listing and modification
    time are obtained, [parse_galleryinfo] returns a record when a Tags line
    is present before the marker as well, and raises [UnboundLocalError] on
    [tags] when none is. *)
Theorem tags_label_required (fs : FileSystem) (folder : str)
  (lines fl : list str) (g mt : Z) :
  sidecar_lines fs folder = Ok lines ->
  parse_gid folder = Ok g ->
  listdir fs folder = Ok fl ->
  getmtime fs (path_join folder (lit "galleryinfo.txt")) = Ok mt ->
  (forall lbl, In lbl required_labels -> has_label lbl lines = true) ->
  timestamps_ok lines = true ->
  (has_label (lit "Tags") lines = true ->
   exists r, parse_galleryinfo fs folder = Ok r) /\
  (has_label (lit "Tags") lines = false ->
   parse_galleryinfo fs folder = Raise (UnboundLocalError "tags")).
Proof.
  intros Hs Hg Hl Hm Hreq T.
  rewrite (parse_galleryinfo_scan fs folder lines fl g mt) by assumption.
  pose proof (for_lines_header lines initial_locals eq_refl) as H.
  destruct (for_lines initial_locals lines) as [v|e];
    [|destruct H as (_ & H); congruence].
  destruct H as (_ & V & _). cbn [bind].
  assert (R : forall f, f <> FTags -> variable f v <> None).
  { intros f Hf. rewrite V. apply final_value_bound; [assumption|].
    apply Hreq. unfold required_labels.
    destruct f; simpl; tauto. }
  split; intros Ht.
  - apply assemble_complete. intros f.
    destruct f; try (apply R; discriminate).
    rewrite V. now apply final_value_bound.
  - apply assemble_missing_tags; [exact R|].
    rewrite V. now rewrite (final_value_absent FTags).
Qed.

Lemma tags_label_required_witness :
  (has_label (lit "Tags") sample_lines = true ->
   exists r,
     parse_galleryinfo (fs_gallery (text_of_lines sample_lines) sample_names)
       sample_folder = Ok r) /\
  (has_label (lit "Tags") sample_lines = false ->
   parse_galleryinfo (fs_gallery (text_of_lines sample_lines) sample_names)
     sample_folder = Raise (UnboundLocalError "tags")).
Proof.
  apply (tags_label_required
           (fs_gallery (text_of_lines sample_lines) sample_names)
           sample_folder sample_lines sample_names 1%Z 0%Z).
  - vm_compute. reflexivity.
  - vm_compute. reflexivity.
  - reflexivity.
  - reflexivity.
  - unfold required_labels.
    intros lbl [<-|[<-|[<-|[<-|[]]]]]; vm_compute; reflexivity.
  - vm_compute. reflexivity.
Defined.

(** ** The comment block *)

Lemma comment_buffer_no_sentinel (lines : list str) :
  (forall l, In l lines -> l <> SENTINEL) ->
  comment_buffer lines =
  map strip (filter (fun l => negb (str_in MARKER l)) lines).
Proof.
  induction lines as [|l lines IH]; intros H; [reflexivity|].
  cbn [comment_buffer filter].
  destruct (str_in MARKER l); cbn [negb].
  - apply IH. intros; apply H; now right.
  - assert (E : str_eqb l SENTINEL = false)
      by (apply str_eqb_neq, H; now left).
    rewrite E. cbn [map]. f_equal. apply IH. intros; apply H; now right.
Qed.

Lemma comment_buffer_sentinel (pre rest : list str) :
  comment_buffer (pre ++ SENTINEL :: rest) = comment_buffer pre.
Proof.
  induction pre as [|l pre IH].
  - reflexivity.
  - cbn [app comment_buffer]. rewrite IH. reflexivity.
Qed.

(** C4, counterexample. In the COMMENT state, with no sentinel among the
    lines, a line that holds the text of the marker is not appended to the
    buffer: of three lines the buffer receives two. *)
Lemma comment_state_counterexample :
  comments (set_comments initial_locals true) = true /\
  existsb (fun l => str_eqb l SENTINEL)
    [lit " a "; lit "see Uploader's Comments above"; lit "b"] = false /\
  map strip [lit " a "; lit "see Uploader's Comments above"; lit "b"] =
    [lit "a"; lit "see Uploader's Comments above"; lit "b"] /\
  for_lines (set_comments initial_locals true)
    [lit " a "; lit "see Uploader's Comments above"; lit "b"] =
    Ok (add_comment_lines initial_locals [lit "a"; lit "b"]).
Proof. vm_compute. repeat split. Qed.

(** C4, amended. In the COMMENT state every line that does not hold the
    text of the marker is trimmed and appended to the comment buffer, unless
    it is exactly the sentinel, at which the loop stops: the lines that
    follow have no effect. Without a sentinel the buffer grows to the end of
    the input. The comment of the record is the buffer joined with newlines
    and stripped of newlines at both ends. *)
Theorem comment_state_scan :
  (forall v lines,
      comments v = true ->
      (forall l, In l lines -> l <> SENTINEL) ->
      for_lines v lines =
      Ok (add_comment_lines v
            (map strip (filter (fun l => negb (str_in MARKER l)) lines)))) /\
  (forall v pre rest,
      comments v = true ->
      for_lines v (pre ++ SENTINEL :: rest) = for_lines v pre) /\
  (forall fs folder lines r,
      sidecar_lines fs folder = Ok lines ->
      parse_galleryinfo fs folder = Ok r ->
      exists v,
        for_lines initial_locals lines = Ok v /\
        comment_lines v = comment_buffer (after_marker lines) /\
        galleries_comments r = strip_chars [NL] (join [NL] (comment_lines v))) /\
  (exists v,
      for_lines initial_locals
        [lit "Uploader's Comments"; lit "hello"; lit "world"; SENTINEL;
         lit "ignored"] = Ok v /\
      strip_chars [NL] (join [NL] (comment_lines v)) =
      lit "hello" ++ [NL] ++ lit "world").
Proof.
  split; [|split; [|split]].
  - intros v lines C H. rewrite for_lines_comments by assumption.
    now rewrite comment_buffer_no_sentinel.
  - intros v pre rest C. rewrite !for_lines_comments by assumption.
    now rewrite comment_buffer_sentinel.
  - intros fs folder lines r Hs Hr.
    apply parse_galleryinfo_inv in Hr
      as (lines' & fl & g & mt & v & Hs' & _ & _ & _ & Hv & Ha).
    rewrite Hs in Hs'. injection Hs' as <-.
    exists v. split; [assumption|].
    pose proof (for_lines_header lines initial_locals eq_refl) as H.
    rewrite Hv in H. destruct H as (_ & _ & B).
    split; [exact B|]. now apply assemble_ok in Ha.
  - eexists. split; [vm_compute; reflexivity|]. vm_compute. reflexivity.
Qed.

Lemma comment_state_scan_witness :
  for_lines (set_comments initial_locals true)
    ([lit "hello "; lit "Title: x"] ++ SENTINEL :: [lit "ignored"]) =
  for_lines (set_comments initial_locals true) [lit "hello "; lit "Title: x"].
Proof.
  apply (proj1 (proj2 comment_state_scan)). reflexivity.
Defined.

(** ** Timestamps *)

Lemma bad_timestamp_not_ok (lines : list str) (lbl value : str) :
  In (lbl, value) (header_entries lines) ->
  lbl = lit "Upload Time" \/ lbl = lit "Downloaded" ->
  strptime value = Raise ValueError ->
  timestamps_ok lines = false.
Proof.
  intros Hin Hl Hv. unfold timestamps_ok.
  destruct (forallb _ (header_entries lines)) eqn:F; [|reflexivity].
  rewrite forallb_forall in F. specialize (F _ Hin). cbn [fst snd] in F.
  unfold accepted in F. rewrite Hv in F.
  destruct Hl as [-> | ->]; discriminate F.
Qed.

Lemma record_field_last (fs : FileSystem) (folder : str) (lines : list str)
  (r : GalleryInfoParser) (f : field) :
  sidecar_lines fs folder = Ok lines ->
  parse_galleryinfo fs folder = Ok r ->
  field_values (label f) lines <> [] /\
  convert f (last (field_values (label f) lines) []) = Ok (record_field f r).
Proof.
  intros Hs Hr.
  apply parse_galleryinfo_inv in Hr
    as (lines' & fl & g & mt & v & Hs' & _ & _ & _ & Hv & Ha).
  rewrite Hs in Hs'. injection Hs' as <-.
  pose proof (for_lines_header lines initial_locals eq_refl) as H.
  rewrite Hv in H. destruct H as (_ & V & _).
  apply assemble_ok in Ha as (Ha & _). specialize (Ha f).
  rewrite V in Ha. unfold final_value in Ha.
  destruct (field_values (label f) lines) as [|w ws].
  - destruct f; discriminate Ha.
  - split; [discriminate|].
    destruct (convert f (last (w :: ws) [])); congruence.
Qed.

(** *** The text of a timestamp is read back by [strptime] *)

Lemma digit_value (n : N) : digit n = (48 + n mod 10)%N /\ (n mod 10 < 10)%N.
Proof. split; [reflexivity|]. apply N.mod_upper_bound. discriminate. Qed.

Lemma re_digit_digit (n : N) (s : str) : re_digit (digit n :: s) = [([digit n], s)].
Proof.
  destruct (digit_value n) as [E H]. rewrite E.
  unfold re_digit, re_set. now rewrite decimal_ascii.
Qed.

Lemma isspace_digit (n : N) : isspace (digit n) = false.
Proof.
  destruct (digit_value n) as [E H]. rewrite E. revert H.
  generalize (n mod 10)%N. refine (all_below_elim 10 (fun k => _ = _) _).
  cbn. repeat split; reflexivity.
Qed.

Lemma re_Y_dash (y : N) (rest : str) (A : Type) (F : str -> str -> list A) :
  flat_map (fun '(gY, s) => flat_map (fun '(_, s') => F gY s') (re_char (ch "-") s))
    (re_Y (four_digits y ++ ch "-" :: rest)) = F (four_digits y) rest.
Proof.
  unfold re_Y, re_seq, four_digits. cbn [app].
  rewrite !re_digit_digit. cbn [flat_map map app].
  rewrite !re_digit_digit. cbn [flat_map map app].
  rewrite !re_digit_digit. cbn [flat_map map app].
  rewrite !re_digit_digit. cbn [flat_map map app].
  unfold re_char, re_set. rewrite N.eqb_refl. cbn [flat_map app].
  now rewrite !app_nil_r.
Qed.

Lemma re_m_dash (k : N) : (k < N.of_nat 13)%N -> (1 <= k)%N ->
  forall (rest : str) (A : Type) (F : str -> str -> list A),
  flat_map (fun '(gm, s) => flat_map (fun '(_, s') => F gm s') (re_char (ch "-") s))
    (re_m (two_digits k ++ ch "-" :: rest)) = F (two_digits k) rest.
Proof.
  revert k.
  refine (all_below_elim 13
            (fun k => (1 <= k)%N ->
                      forall (rest : str) (A : Type) (F : str -> str -> list A),
                        _ = _) _).
  cbn [all_below].
  repeat split; intros H rest A F; try (exfalso; lia); cbn; now rewrite ?app_nil_r.
Qed.

Lemma re_d_space (k : N) : (k < N.of_nat 32)%N -> (1 <= k)%N ->
  forall (c : char) (rest : str) (A : Type) (F : str -> str -> list A),
  isspace c = false ->
  flat_map (fun '(gd, s) => flat_map (fun '(_, s') => F gd s') (re_plus_set isspace s))
    (re_d (two_digits k ++ ch " " :: c :: rest)) = F (two_digits k) (c :: rest).
Proof.
  revert k.
  refine (all_below_elim 32
            (fun k => (1 <= k)%N ->
                      forall (c : char) (rest : str) (A : Type)
                             (F : str -> str -> list A),
                        _ -> _ = _) _).
  cbn [all_below].
  repeat split; intros H c rest A F Hc; try (exfalso; lia).
  all: cbn; rewrite Hc; cbn; now rewrite ?app_nil_r.
Qed.

Lemma re_H_colon (k : N) : (k < N.of_nat 24)%N ->
  forall (rest : str) (A : Type) (F : str -> str -> list A),
  flat_map (fun '(gH, s) => flat_map (fun '(_, s') => F gH s') (re_char (ch ":") s))
    (re_H (two_digits k ++ ch ":" :: rest)) = F (two_digits k) rest.
Proof.
  revert k.
  refine (all_below_elim 24
            (fun k => forall (rest : str) (A : Type) (F : str -> str -> list A),
                        _ = _) _).
  cbn [all_below].
  repeat split; intros rest A F; cbn; now rewrite ?app_nil_r.
Qed.

Lemma re_M_end (k : N) : (k < N.of_nat 60)%N ->
  forall (A : Type) (G : str * str -> A),
  map G (re_M (two_digits k)) =
  [G (two_digits k, []); G ([digit (k / 10)], [digit k])].
Proof.
  revert k.
  refine (all_below_elim 60
            (fun k => forall (A : Type) (G : str * str -> A), _ = _) _).
  cbn [all_below].
  repeat split; intros A G; reflexivity.
Qed.

Lemma format_regex_render (d : datetime) :
  valid_datetime d = true ->
  exists other,
    format_regex (render_timestamp d) =
    [({| group_Y := four_digits (Z.to_N (year d));
         group_m := two_digits (Z.to_N (month d));
         group_d := two_digits (Z.to_N (day d));
         group_H := two_digits (Z.to_N (hour d));
         group_M := two_digits (Z.to_N (minute d)) |}, []); other].
Proof.
  unfold valid_datetime, valid_date. intros V.
  repeat (apply andb_true_iff in V as [V ?]).
  assert (Hd : (day d <= 31)%Z).
  { assert (days_in_month (year d) (month d) <= 31)%Z.
    { unfold days_in_month.
      repeat match goal with |- context [if ?b then _ else _] => destruct b end; lia. }
    lia. }
  unfold format_regex, render_timestamp.
  change (lit "-") with [ch "-"]. change (lit " ") with [ch " "].
  change (lit ":") with [ch ":"].
  repeat rewrite <- app_assoc. cbn [app].
  rewrite re_Y_dash.
  rewrite re_m_dash by lia.
  change (two_digits (Z.to_N (hour d)) ++ ch ":" :: two_digits (Z.to_N (minute d)))
    with (digit (Z.to_N (hour d) / 10)
            :: ([digit (Z.to_N (hour d))] ++ ch ":" :: two_digits (Z.to_N (minute d)))).
  rewrite re_d_space by (try apply isspace_digit; lia).
  change (digit (Z.to_N (hour d) / 10)
            :: ([digit (Z.to_N (hour d))] ++ ch ":" :: two_digits (Z.to_N (minute d))))
    with (two_digits (Z.to_N (hour d)) ++ ch ":" :: two_digits (Z.to_N (minute d))).
  rewrite re_H_colon by lia.
  rewrite re_M_end by lia.
  eexists. reflexivity.
Qed.

Lemma int_two_digits (k : N) : (k < 100)%N -> int (two_digits k) = Ok (Z.of_N k).
Proof.
  intros H. unfold int.
  change (two_digits k) with (digit_chars [(k / 10) mod 10; k mod 10]%N).
  rewrite int_literal_digits.
  - f_equal. unfold digits_value. cbn [fold_left].
    assert (E : (k / 10 < 10)%N) by (apply N.Div0.div_lt_upper_bound; lia).
    rewrite (N.mod_small (k / 10) 10) by assumption.
    pose proof (N.div_mod k 10). lia.
  - discriminate.
  - repeat constructor; apply N.mod_upper_bound; discriminate.
  - cbv. discriminate.
Qed.

Lemma int_four_digits (y : N) : (y < 10000)%N -> int (four_digits y) = Ok (Z.of_N y).
Proof.
  intros H. unfold int.
  change (four_digits y)
    with (digit_chars [(y / 1000) mod 10; (y / 100) mod 10; (y / 10) mod 10; y mod 10]%N).
  rewrite int_literal_digits.
  - f_equal. unfold digits_value. cbn [fold_left].
    assert (E : (y / 1000 < 10)%N) by (apply N.Div0.div_lt_upper_bound; lia).
    rewrite (N.mod_small (y / 1000) 10) by assumption.
    pose proof (N.div_mod y 10).
    pose proof (N.div_mod (y / 10) 10).
    pose proof (N.div_mod (y / 100) 10).
    assert (E1 : (y / 10 / 10 = y / 100)%N) by (rewrite N.Div0.div_div; reflexivity).
    assert (E2 : (y / 100 / 10 = y / 1000)%N) by (rewrite N.Div0.div_div; reflexivity).
    lia.
  - discriminate.
  - repeat constructor; apply N.mod_upper_bound; discriminate.
  - cbv. discriminate.
Qed.

Lemma strptime_render (d : datetime) :
  valid_datetime d = true -> strptime (render_timestamp d) = Ok d.
Proof.
  intros V. destruct (format_regex_render d V) as (other & E).
  unfold strptime. rewrite E. cbn [str_eqb negb group_Y group_m group_d group_H group_M].
  unfold valid_datetime in V.
  do 4 (apply andb_true_iff in V as [V ?]).
  pose proof V as V'. unfold valid_date in V'.
  repeat (apply andb_true_iff in V' as [V' ?]).
  assert (Hd : (day d <= 31)%Z).
  { assert (days_in_month (year d) (month d) <= 31)%Z.
    { unfold days_in_month.
      repeat match goal with |- context [if ?b then _ else _] => destruct b end; lia. }
    lia. }
  rewrite int_four_digits by lia. cbn [bind].
  rewrite !int_two_digits by lia. cbn [bind].
  rewrite !Z2N.id by lia. rewrite V.
  destruct d; reflexivity.
Qed.

(** C9, counterexample. A sidecar whose upload time is no timestamp, in a
    folder that cannot be listed: [parse_galleryinfo] raises the [OSError]
    of [os.listdir], which it calls before it looks at any line, and not
    the TimestampFormatError of the specification. *)
Lemma unlisted_folder_counterexample :
  sidecar_lines (fs_unlisted (text_of_lines lines_bad_time)) sample_folder =
    Ok lines_bad_time /\
  In (lit "Upload Time", lit "yesterday") (header_entries lines_bad_time) /\
  strptime (lit "yesterday") = Raise ValueError /\
  parse_galleryinfo (fs_unlisted (text_of_lines lines_bad_time)) sample_folder =
    Raise OSError.
Proof. vm_compute. repeat split. right. left. reflexivity. Qed.

(** With the id, the listing and the modification time obtained, the five
    labels present and every timestamp value accepted, a record is returned
    whose timestamps are what [strptime] reads from the last values. *)
Lemma timestamps_parsed (fs : FileSystem) (folder : str)
  (lines fl : list str) (g mt : Z) :
  sidecar_lines fs folder = Ok lines ->
  parse_gid folder = Ok g ->
  listdir fs folder = Ok fl ->
  getmtime fs (path_join folder (lit "galleryinfo.txt")) = Ok mt ->
  (forall f, has_label (label f) lines = true) ->
  timestamps_ok lines = true ->
  exists r,
    parse_galleryinfo fs folder = Ok r /\
    strptime (last (field_values (lit "Upload Time") lines) []) =
      Ok (upload_time r) /\
    strptime (last (field_values (lit "Downloaded") lines) []) =
      Ok (download_time r).
Proof.
  intros Hs Hg Hl Hm Hall T.
  assert (E : exists r, parse_galleryinfo fs folder = Ok r).
  { rewrite (parse_galleryinfo_scan fs folder lines fl g mt) by assumption.
    pose proof (for_lines_header lines initial_locals eq_refl) as H.
    destruct (for_lines initial_locals lines) as [v|e];
      [|destruct H as (_ & H); congruence].
    destruct H as (_ & V & _). cbn [bind].
    apply assemble_complete. intros f. rewrite V.
    now apply final_value_bound. }
  destruct E as (r & Hr). exists r. split; [exact Hr|].
  destruct (record_field_last fs folder lines r FUploadTime Hs Hr) as (_ & H1).
  destruct (record_field_last fs folder lines r FDownloaded Hs Hr) as (_ & H2).
  cbn [label convert record_field] in H1, H2.
  destruct (strptime (last (field_values (lit "Upload Time") lines) []));
    [|discriminate H1].
  destruct (strptime (last (field_values (lit "Downloaded") lines) []));
    [|discriminate H2].
  cbn [bind] in H1, H2. split; congruence.
Qed.

(** A timestamp value that is refused leaves no record, whatever the
    folder. *)
Lemma bad_timestamp_no_record (fs : FileSystem) (folder : str)
  (lines : list str) (lbl value : str) (r : GalleryInfoParser) :
  sidecar_lines fs folder = Ok lines ->
  In (lbl, value) (header_entries lines) ->
  lbl = lit "Upload Time" \/ lbl = lit "Downloaded" ->
  strptime value = Raise ValueError ->
  parse_galleryinfo fs folder <> Ok r.
Proof.
  intros Hs Hin Hlbl Hv Hr.
  apply parse_galleryinfo_inv in Hr
    as (lines' & fl & g & mt & v & Hs' & _ & _ & _ & Hf & _).
  rewrite Hs in Hs'. injection Hs' as <-.
  pose proof (for_lines_header lines initial_locals eq_refl) as H.
  rewrite Hf in H. destruct H as (T & _).
  rewrite (bad_timestamp_not_ok lines lbl value Hin Hlbl Hv) in T.
  discriminate T.
Qed.

Lemma bad_timestamp_raises (fs : FileSystem) (folder : str)
  (lines fl : list str) (mt : Z) (lbl value : str) :
  sidecar_lines fs folder = Ok lines ->
  listdir fs folder = Ok fl ->
  getmtime fs (path_join folder (lit "galleryinfo.txt")) = Ok mt ->
  In (lbl, value) (header_entries lines) ->
  lbl = lit "Upload Time" \/ lbl = lit "Downloaded" ->
  strptime value = Raise ValueError ->
  parse_galleryinfo fs folder = Raise ValueError.
Proof.
  intros Hs Hl Hm Hin Hlbl Hv.
  destruct (parse_gid folder) as [g|e] eqn:Hg.
  - rewrite (parse_galleryinfo_scan fs folder lines fl g mt) by assumption.
    pose proof (for_lines_header lines initial_locals eq_refl) as H.
    rewrite (bad_timestamp_not_ok lines lbl value Hin Hlbl Hv) in H.
    destruct (for_lines initial_locals lines) as [v|e].
    + destruct H as (H & _). discriminate H.
    + destruct H as (-> & _). reflexivity.
  - pose proof (parse_gid_raises _ _ Hg) as ->.
    unfold sidecar_lines in Hs. unfold parse_galleryinfo.
    destruct (read_text fs _); [|discriminate Hs].
    cbn [bind]. now rewrite Hg.
Qed.

(** C9, amended. Once the sidecar is read and the listing of the folder
    and the modification time are obtained, a value given to Upload Time or
    Downloaded before the comment marker that [strptime] refuses under the
    fixed format makes [parse_galleryinfo] raise [ValueError], the
    TimestampFormatError of the specification; whatever the folder, no
    record is returned then. The values are read with the format: when the
    id is obtained as well, the five labels are present and every timestamp
    value is accepted, a record is returned, and its timestamps are what
    [strptime] reads from the last Upload Time and Downloaded values; and
    [strptime] reads the year-month-day hour:minute text of every valid
    date and time back, and refuses other separators, trailing text and
    days that do not exist. *)
Theorem timestamp_format :
  (forall fs folder lines fl mt lbl value,
      sidecar_lines fs folder = Ok lines ->
      listdir fs folder = Ok fl ->
      getmtime fs (path_join folder (lit "galleryinfo.txt")) = Ok mt ->
      In (lbl, value) (header_entries lines) ->
      lbl = lit "Upload Time" \/ lbl = lit "Downloaded" ->
      strptime value = Raise ValueError ->
      parse_galleryinfo fs folder = Raise ValueError) /\
  (forall fs folder lines lbl value r,
      sidecar_lines fs folder = Ok lines ->
      In (lbl, value) (header_entries lines) ->
      lbl = lit "Upload Time" \/ lbl = lit "Downloaded" ->
      strptime value = Raise ValueError ->
      parse_galleryinfo fs folder <> Ok r) /\
  (forall fs folder lines fl g mt,
      sidecar_lines fs folder = Ok lines ->
      parse_gid folder = Ok g ->
      listdir fs folder = Ok fl ->
      getmtime fs (path_join folder (lit "galleryinfo.txt")) = Ok mt ->
      (forall f, has_label (label f) lines = true) ->
      timestamps_ok lines = true ->
      exists r,
        parse_galleryinfo fs folder = Ok r /\
        strptime (last (field_values (lit "Upload Time") lines) []) =
          Ok (upload_time r) /\
        strptime (last (field_values (lit "Downloaded") lines) []) =
          Ok (download_time r)) /\
  (forall d, valid_datetime d = true -> strptime (render_timestamp d) = Ok d) /\
  strptime (lit "2023-01-05 10:30") =
    Ok {| year := 2023; month := 1; day := 5; hour := 10; minute := 30 |} /\
  strptime (lit "2023/01/05 10:30") = Raise ValueError /\
  strptime (lit "2023-01-05 10:30:00") = Raise ValueError /\
  strptime (lit "2023-02-30 10:30") = Raise ValueError.
Proof.
  split; [|split; [|split; [|split]]].
  - exact bad_timestamp_raises.
  - exact bad_timestamp_no_record.
  - exact timestamps_parsed.
  - exact strptime_render.
  - vm_compute. repeat split.
Qed.

Lemma timestamp_format_witness :
  parse_galleryinfo
    (fs_gallery (text_of_lines lines_bad_time) sample_names)
    (lit "/g/Foo [2]") = Raise ValueError /\
  exists r,
    parse_galleryinfo (fs_gallery (text_of_lines sample_lines) sample_names)
      sample_folder = Ok r /\
    strptime (last (field_values (lit "Upload Time") sample_lines) []) =
      Ok (upload_time r) /\
    strptime (last (field_values (lit "Downloaded") sample_lines) []) =
      Ok (download_time r).
Proof.
  split.
  - apply (proj1 timestamp_format
             (fs_gallery (text_of_lines lines_bad_time) sample_names)
             (lit "/g/Foo [2]") lines_bad_time sample_names 0%Z
             (lit "Upload Time") (lit "yesterday")).
    + vm_compute. reflexivity.
    + reflexivity.
    + reflexivity.
    + right. left. vm_compute. reflexivity.
    + left. reflexivity.
    + vm_compute. reflexivity.
  - apply (proj1 (proj2 (proj2 timestamp_format))
             (fs_gallery (text_of_lines sample_lines) sample_names)
             sample_folder sample_lines sample_names 1%Z 0%Z).
    + vm_compute. reflexivity.
    + vm_compute. reflexivity.
    + reflexivity.
    + reflexivity.
    + intros f. destruct f; vm_compute; reflexivity.
    + vm_compute. reflexivity.
Defined.

(** ** Repeated labels *)

(** C10. When a recognised label stands on several lines before the
    comment marker, the record holds the value of the last of them: for a
    header line with the label, followed before the marker by no other line
    with it, the field of the record is the value of that line, converted as
    the label demands. *)
Theorem last_header_wins (fs : FileSystem) (folder : str)
  (r : GalleryInfoParser) (pre post : list str) (line value : str) (f : field) :
  parse_galleryinfo fs folder = Ok r ->
  sidecar_lines fs folder = Ok (pre ++ line :: post) ->
  (forall l, In l pre -> str_in MARKER l = false) ->
  str_in MARKER line = false ->
  header_entry line = Some (label f, value) ->
  field_values (label f) post = [] ->
  convert f value = Ok (record_field f r).
Proof.
  intros Hr Hs Hpre Hline He Hpost.
  destruct (record_field_last fs folder _ r f Hs Hr) as (_ & H).
  destruct (field_values_last (label f) value line pre post Hpre Hline He Hpost)
    as (values & E).
  rewrite E, last_last in H. exact H.
Qed.

Lemma last_header_wins_witness :
  convert FTitle (lit "Bar") = Ok (record_field FTitle sample_parsed).
Proof.
  apply (last_header_wins
           (fs_gallery (text_of_lines sample_lines) sample_names)
           sample_folder sample_parsed
           [lit "Title:       Foo"] (tl (tl sample_lines))
           (lit "Title:       Bar") (lit "Bar") FTitle).
  - vm_compute. reflexivity.
  - vm_compute. reflexivity.
  - intros l [<-|[]]. vm_compute. reflexivity.
  - vm_compute. reflexivity.
  - vm_compute. reflexivity.
  - vm_compute. reflexivity.
Defined.

Example sample_lines_parsed :
  parse_galleryinfo (fs_gallery (text_of_lines sample_lines) sample_names)
    sample_folder = Ok sample_parsed.
Proof. vm_compute. reflexivity. Qed.

(** ** Round trip *)

Lemma rstrip_newline_tail (p : char -> bool) (x : char) (s : str) :
  p x = true ->
  rstrip_with p (x :: s) = [] \/
  exists r, rstrip_with p (x :: s) = x :: r.
Proof.
  intros H. rewrite rstrip_cons, H.
  destruct (rstrip_with p s); [now left|right; eexists; reflexivity].
Qed.

Lemma split_lines (lines : list str) (last_line : str) (more : str) :
  Forall (fun l => ~ In NL l) lines -> ~ In NL last_line ->
  more = [] \/ (exists r, more = NL :: r) ->
  exists rest,
    split NL (fold_right (fun l acc => l ++ NL :: acc) (last_line ++ more) lines)
    = lines ++ last_line :: rest.
Proof.
  intros H Hl Hm. induction H as [|l lines Hn _ IH].
  - cbn [fold_right app]. destruct Hm as [->|(r & ->)].
    + rewrite app_nil_r, split_notin by assumption. now exists [].
    + rewrite split_app by assumption. eexists. reflexivity.
  - destruct IH as (rest & IH). exists rest.
    cbn [fold_right app]. rewrite split_app by assumption. now rewrite IH.
Qed.

Lemma str_in_app_sep (sub a b : str) (c : char) :
  ~ In c sub -> sub <> [] ->
  str_in sub (a ++ c :: b) = str_in sub a || str_in sub b.
Proof.
  intros Hc Hne.
  assert (S : forall a sub, ~ In c sub ->
                startswith (a ++ c :: b) sub = startswith a sub).
  { clear. intros a. induction a as [|x a IH]; intros [|p sub] H; try reflexivity.
    - simpl. destruct (N.eqb_spec p c) as [->|N]; [|reflexivity].
      exfalso. apply H. now left.
    - simpl. rewrite IH; [reflexivity|]. intros F. apply H. now right. }
  induction a as [|x a IH].
  - destruct sub as [|p sub]; [congruence|]. simpl.
    destruct (N.eqb_spec p c) as [->|N]; [exfalso; apply Hc; now left|].
    reflexivity.
  - pose proof (S (x :: a) sub Hc) as Sx. cbn [app] in Sx.
    cbn [app str_in]. rewrite Sx, IH. now rewrite orb_assoc.
Qed.

Lemma str_in_join_sep (sub : str) (c : char) (pad : str) (parts : list str) :
  ~ In c sub -> sub <> [] ->
  (forall s, str_in sub (pad ++ s) = str_in sub s) ->
  Forall (fun s => str_in sub s = false) parts ->
  str_in sub (join (c :: pad) parts) = false.
Proof.
  intros Hc Hne Hpad H. induction H as [|s parts Hs _ IH].
  - destruct sub; [congruence|reflexivity].
  - destruct parts as [|s' parts]; [exact Hs|].
    change (join (c :: pad) (s :: s' :: parts))
      with (s ++ c :: pad ++ join (c :: pad) (s' :: parts)).
    rewrite str_in_app_sep, Hs, Hpad by assumption. exact IH.
Qed.

Lemma join_cons_app (sep x s : str) (parts : list str) :
  x ++ join sep (s :: parts) = join sep ((x ++ s) :: parts).
Proof. destruct parts; simpl; [reflexivity|now rewrite app_assoc]. Qed.

Lemma split_join_pad (c : char) (pad : str) (parts : list str) (part : str) :
  Forall (fun s => ~ In c s) (part :: parts) -> ~ In c pad ->
  split c (join (c :: pad) (part :: parts)) = part :: map (app pad) parts.
Proof.
  intros H Hpad. revert part H. induction parts as [|s parts IH]; intros part H.
  - inversion H; subst. simpl. now apply split_notin.
  - inversion H as [|? ? Hp Hr]; subst.
    inversion Hr as [|? ? Hs Hr']; subst.
    change (join (c :: pad) (part :: s :: parts))
      with (part ++ c :: pad ++ join (c :: pad) (s :: parts)).
    rewrite split_app by assumption. f_equal.
    rewrite join_cons_app, IH; [reflexivity|].
    constructor; [|assumption].
    intros F. apply in_app_or in F. tauto.
Qed.

Lemma split_lstrip (p : char -> bool) (c : char) (s : str) :
  p c = false ->
  split c (lstrip_with p s) =
  lstrip_with p (hd [] (split c s)) :: tl (split c s).
Proof.
  intros Hc. destruct (in_dec N.eq_dec c s) as [I|I].
  - destruct (split1_In c s I) as (k & v & _ & -> & Hk).
    rewrite lstrip_app_stop, !split_app; [reflexivity|assumption| |assumption].
    intros F. apply Hk. now apply lstrip_In in F.
  - rewrite !split_notin; [reflexivity|assumption|].
    intros F. apply I. now apply lstrip_In in F.
Qed.

Lemma split_rstrip (p : char -> bool) (c : char) (s : str) :
  p c = false ->
  split c (rstrip_with p s) =
  removelast (split c s) ++ [rstrip_with p (last (split c s) [])].
Proof.
  intros Hc. remember (List.length s) as n eqn:Hn.
  revert s Hn. induction n as [n IH] using lt_wf_ind. intros s Hn.
  destruct (in_dec N.eq_dec c s) as [I|I].
  - destruct (split1_In c s I) as (k & v & _ & -> & Hk).
    rewrite rstrip_app_stop, !split_app by assumption.
    rewrite (IH (List.length v)); [|subst n; rewrite length_app; simpl; lia|reflexivity].
    pose proof (split_nonempty c v) as Hne.
    destruct (split c v) as [|w ws]; [congruence|]. reflexivity.
  - rewrite !split_notin; [reflexivity|assumption|].
    intros F. apply I. now apply rstrip_In in F.
Qed.

Lemma spec_tag_lstrip (t : str) : spec_tag (lstrip_with isspace t) = spec_tag t.
Proof. unfold spec_tag, strip. now rewrite strip_lstrip. Qed.

Lemma spec_tag_rstrip (t : str) : spec_tag (rstrip_with isspace t) = spec_tag t.
Proof. unfold spec_tag, strip. now rewrite strip_rstrip. Qed.

(** The tag list of a value does not depend on the white space around
    it. *)
Lemma spec_parse_tags_strip (value : str) :
  spec_parse_tags (strip value) = spec_parse_tags value.
Proof.
  assert (Hc : isspace (ch ",") = false) by reflexivity.
  unfold spec_parse_tags, strip, strip_with.
  rewrite split_rstrip, split_lstrip by assumption.
  pose proof (split_nonempty (ch ",") value) as Hne.
  destruct (split (ch ",") value) as [|w ws]; [congruence|]. cbn [hd tl].
  rewrite map_app. cbn [map]. rewrite spec_tag_rstrip.
  destruct ws as [|w' ws'] using rev_ind.
  - cbn [removelast last app map]. now rewrite spec_tag_lstrip.
  - clear IHws'.
    change (lstrip_with isspace w :: ws' ++ [w'])
      with ((lstrip_with isspace w :: ws') ++ [w']).
    rewrite removelast_last, last_last.
    change (w :: ws' ++ [w']) with ((w :: ws') ++ [w']).
    rewrite map_app. cbn [map]. now rewrite spec_tag_lstrip.
Qed.

Lemma plain_true (s : str) :
  plain s = true -> strip s = s /\ ~ In NL s /\ str_in MARKER s = false.
Proof.
  unfold plain. intros H.
  apply andb_true_iff in H as [H H3]. apply andb_true_iff in H as [H1 H2].
  apply str_eqb_eq in H1. apply negb_true_iff in H2, H3.
  repeat split; try assumption.
  intros F. apply existsb_eqb_In in F. congruence.
Qed.

Lemma tag_ok_true (t : str * str) :
  tag_ok t = true ->
  plain (fst t) = true /\ plain (snd t) = true /\ fst t <> [] /\
  ~ In (ch ":") (fst t) /\ ~ In (ch ",") (fst t) /\ ~ In (ch ",") (snd t).
Proof.
  unfold tag_ok. intros H.
  do 5 (apply andb_true_iff in H as [H ?]).
  repeat match goal with
         | X : negb _ = true |- _ => apply negb_true_iff in X
         end.
  repeat split; try assumption.
  - now apply str_eqb_neq.
  - intros F. apply existsb_eqb_In in F. congruence.
  - intros F. apply existsb_eqb_In in F. congruence.
  - intros F. apply existsb_eqb_In in F. congruence.
Qed.

Lemma tag_wellformed_true (t : str * str) :
  tag_wellformed t = true ->
  strip (fst t) = fst t /\ strip (snd t) = snd t /\ fst t <> [] /\
  ~ In (ch ":") (fst t) /\ ~ In (ch ",") (fst t) /\ ~ In (ch ",") (snd t).
Proof.
  unfold tag_wellformed. intros H.
  do 5 (apply andb_true_iff in H as [H ?]).
  repeat match goal with
         | X : negb _ = true |- _ => apply negb_true_iff in X
         end.
  repeat split.
  - now apply str_eqb_eq.
  - now apply str_eqb_eq.
  - now apply str_eqb_neq.
  - intros F. apply existsb_eqb_In in F. congruence.
  - intros F. apply existsb_eqb_In in F. congruence.
  - intros F. apply existsb_eqb_In in F. congruence.
Qed.

Lemma tag_ok_wellformed (tags : list (str * str)) :
  forallb tag_ok tags = true -> forallb tag_wellformed tags = true.
Proof.
  rewrite !forallb_forall. intros H t Ht. specialize (H t Ht).
  unfold tag_ok in H. unfold tag_wellformed.
  do 5 (apply andb_true_iff in H as [H ?]).
  unfold plain in *.
  do 2 (apply andb_true_iff in H as [H ?]).
  match goal with X : _ && _ = true |- _ => apply andb_true_iff in X as [X ?] end.
  match goal with X : _ && _ = true |- _ => apply andb_true_iff in X as [X ?] end.
  repeat (apply andb_true_iff; split); assumption.
Qed.

Lemma spec_tag_render (pad : str) (t : str * str) :
  forallb isspace pad = true -> ~ In (ch ":") pad ->
  tag_wellformed t = true -> spec_tag (pad ++ render_tag t) = t.
Proof.
  intros Hpad Hc H.
  destruct (tag_wellformed_true t H) as (S1 & S2 & Hne & H1 & _ & _).
  unfold render_tag. change (lit ":") with [ch ":"].
  rewrite app_assoc. cbn [app].
  rewrite tag_of_colon_token.
  - unfold strip in *. rewrite strip_all by assumption. rewrite S1, S2.
    apply str_eqb_neq in Hne. rewrite Hne. now destruct t.
  - intros F. apply in_app_or in F. tauto.
Qed.

Lemma render_tag_no_comma (t : str * str) :
  tag_wellformed t = true -> ~ In (ch ",") (render_tag t).
Proof.
  intros H. destruct (tag_wellformed_true t H) as (_ & _ & _ & _ & H1 & H2).
  unfold render_tag. intros F.
  apply in_app_or in F as [F|F]; [tauto|].
  apply in_app_or in F as [F|F]; [|tauto].
  simpl in F. destruct F as [F|[]]. discriminate F.
Qed.

(** The tags written on the Tags line are read back. *)
Lemma spec_parse_tags_render (tags : list (str * str)) :
  tags <> [] -> forallb tag_wellformed tags = true ->
  spec_parse_tags (render_tags tags) = tags.
Proof.
  intros Hne H. destruct tags as [|t tags]; [congruence|].
  cbn [forallb] in H. apply andb_true_iff in H as [Ht H].
  unfold spec_parse_tags, render_tags.
  change (lit ", ") with (ch "," :: [ch " "]). cbn [map].
  rewrite split_join_pad.
  - cbn [map].
    pose proof (spec_tag_render [] t eq_refl (fun F => F) Ht) as E.
    cbn [app] in E. rewrite E.
    f_equal. rewrite map_map, map_map.
    rewrite <- (map_id tags) at 2. apply map_ext_in.
    intros a Ha. rewrite forallb_forall in H.
    apply spec_tag_render; [reflexivity| |now apply H].
    simpl. intros [F|[]]. discriminate F.
  - constructor; [now apply render_tag_no_comma|].
    apply Forall_forall. intros x Hx. apply in_map_iff in Hx as (a & <- & Ha).
    rewrite forallb_forall in H. apply render_tag_no_comma. now apply H.
  - simpl. intros [F|[]]. discriminate F.
Qed.

Lemma header_entry_line (lbl x : str) :
  ~ In (ch ":") lbl -> strip lbl = lbl ->
  header_entry (header_line lbl x) = Some (lbl, strip x).
Proof.
  intros H S. unfold header_entry, header_line.
  change (lit ": ") with (ch ":" :: [ch " "]). cbn [app].
  rewrite split1_app by assumption. rewrite S.
  pose proof (strip_all isspace [ch " "] x eq_refl) as E. cbn [app] in E.
  unfold strip. now rewrite E.
Qed.

Lemma fold_lines_app (lines : list str) (x y : str) :
  fold_right (fun l acc => l ++ NL :: acc) (x ++ y) lines =
  fold_right (fun l acc => l ++ NL :: acc) x lines ++ y.
Proof.
  induction lines as [|l lines IH]; [reflexivity|].
  cbn [fold_right]. rewrite IH, <- app_assoc. reflexivity.
Qed.

Lemma render_timestamp_chars (d : datetime) (c : char) :
  In c (render_timestamp d) -> (32 <= c <= 58)%N.
Proof.
  unfold render_timestamp, four_digits, two_digits. cbn [app lit].
  assert (D : forall n, (32 <= digit n <= 58)%N).
  { intros n. destruct (digit_value n) as [-> H]. revert H.
    generalize (n mod 10)%N. intros k Hk. lia. }
  simpl. intros H.
  repeat (destruct H as [<-|H]; [try apply D; cbv; split; discriminate|]).
  destruct H.
Qed.

Lemma sidecar_text_lines (title : str) (ut : datetime) (account : str)
  (dt : datetime) (tags : list (str * str)) (comment : str) :
  ~ In NL title -> ~ In NL account -> ~ In NL (render_tags tags) ->
  exists rest,
    split NL (strip_chars [NL] (sidecar_text title ut account dt tags comment)) =
    [header_line (lit "Title") title;
     header_line (lit "Upload Time") (render_timestamp ut);
     header_line (lit "Uploaded By") account;
     header_line (lit "Downloaded") (render_timestamp dt);
     header_line (lit "Tags") (render_tags tags);
     []] ++ lit "Uploader's Comments:" :: rest.
Proof.
  intros H1 H2 H3.
  set (p := fun c : char => existsb (N.eqb c) [NL]).
  set (hs := [header_line (lit "Title") title;
              header_line (lit "Upload Time") (render_timestamp ut);
              header_line (lit "Uploaded By") account;
              header_line (lit "Downloaded") (render_timestamp dt);
              header_line (lit "Tags") (render_tags tags);
              []]).
  set (more := NL :: NL :: comment ++ [NL] ++ [NL] ++ SENTINEL ++ [NL]).
  assert (E : sidecar_text title ut account dt tags comment =
              fold_right (fun l acc => l ++ NL :: acc)
                (lit "Uploader's Comments" ++ ch ":" :: more) hs).
  { unfold sidecar_text, hs, more. cbn [fold_right].
    repeat rewrite <- app_assoc. reflexivity. }
  assert (L : lstrip_with p (sidecar_text title ut account dt tags comment) =
              sidecar_text title ut account dt tags comment).
  { unfold sidecar_text, header_line. repeat rewrite <- app_assoc.
    rewrite lstrip_app. reflexivity. }
  unfold strip_chars, strip_with. fold p. rewrite L, E.
  rewrite fold_lines_app.
  rewrite rstrip_app_stop by reflexivity.
  rewrite <- fold_lines_app.
  change (lit "Uploader's Comments" ++ ch ":" :: rstrip_with p more)
    with (lit "Uploader's Comments:" ++ rstrip_with p more).
  apply split_lines.
  - assert (T : forall d, ~ In NL (render_timestamp d)).
    { intros d F. apply render_timestamp_chars in F. cbv in F.
      destruct F as [F _]. now apply F. }
    assert (A : forall lbl x, ~ In NL lbl -> ~ In NL x ->
                              ~ In NL (header_line lbl x)).
    { intros lbl x Hl Hx F. unfold header_line in F.
      apply in_app_or in F as [F|F]; [tauto|].
      apply in_app_or in F as [F|F]; [|tauto].
      simpl in F. destruct F as [F|[F|[]]]; discriminate F. }
    assert (C : forall s, ~ In NL (lit s) <-> existsb (N.eqb NL) (lit s) = false).
    { intros s. rewrite <- existsb_eqb_In.
      destruct (existsb (N.eqb NL) (lit s)); split; congruence. }
    unfold hs. repeat constructor; try (apply A; try apply T; try assumption;
      apply C; reflexivity).
    simpl. tauto.
  - intros F. apply existsb_eqb_In in F. discriminate F.
  - unfold more. destruct (rstrip_newline_tail p NL
      (NL :: comment ++ [NL] ++ [NL] ++ SENTINEL ++ [NL]) eq_refl) as [->|(r & ->)].
    + now left.
    + right. now exists r.
Qed.

Lemma in_join (c : char) (sep : str) (parts : list str) :
  In c (join sep parts) -> In c sep \/ exists s, In s parts /\ In c s.
Proof.
  induction parts as [|s parts IH]; [intros []|].
  destruct parts as [|s' parts].
  - intros H. right. exists s. split; [now left|exact H].
  - change (join sep (s :: s' :: parts)) with (s ++ sep ++ join sep (s' :: parts)).
    intros H. apply in_app_or in H as [H|H].
    + right. exists s. split; [now left|exact H].
    + apply in_app_or in H as [H|H]; [now left|].
      destruct (IH H) as [F|(x & Hx & Hc)]; [now left|].
      right. exists x. split; [now right|exact Hc].
Qed.

Lemma render_tags_plain (tags : list (str * str)) :
  forallb tag_ok tags = true ->
  ~ In NL (render_tags tags) /\ str_in MARKER (render_tags tags) = false.
Proof.
  intros H. rewrite forallb_forall in H.
  assert (P : forall t, In t tags ->
                ~ In NL (render_tag t) /\ str_in MARKER (render_tag t) = false).
  { intros t Ht. destruct (tag_ok_true t (H t Ht)) as (P1 & P2 & _).
    apply plain_true in P1 as (_ & N1 & M1).
    apply plain_true in P2 as (_ & N2 & M2).
    unfold render_tag. change (lit ":") with [ch ":"]. cbn [app]. split.
    - intros F. apply in_app_or in F as [F|[F|F]]; [tauto|discriminate F|tauto].
    - rewrite str_in_app_sep, M1, M2; [reflexivity| |discriminate].
      intros F. apply existsb_eqb_In in F. discriminate F. }
  split.
  - intros F. unfold render_tags in F. apply in_join in F as [F|(s & Hs & F)].
    + simpl in F. destruct F as [F|[F|[]]]; discriminate F.
    + apply in_map_iff in Hs as (t & <- & Ht). now apply (P t Ht).
  - unfold render_tags. change (lit ", ") with (ch "," :: [ch " "]).
    apply str_in_join_sep.
    + intros F. apply existsb_eqb_In in F. discriminate F.
    + discriminate.
    + intros s. reflexivity.
    + apply Forall_forall. intros s Hs.
      apply in_map_iff in Hs as (t & <- & Ht). now apply (P t Ht).
Qed.

Lemma header_line_no_marker (lbl x : str) :
  str_in MARKER lbl = false -> str_in MARKER x = false ->
  str_in MARKER (header_line lbl x) = false.
Proof.
  intros Hl Hx. unfold header_line.
  change (lit ": ") with (ch ":" :: [ch " "]). cbn [app].
  rewrite str_in_app_sep, Hl.
  - change (str_in MARKER (ch " " :: x)) with (str_in MARKER x). now rewrite Hx.
  - intros F. apply existsb_eqb_In in F. discriminate F.
  - discriminate.
Qed.

Lemma startswith_cons (x : char) (s : str) (p : char) (sub : str) :
  startswith (x :: s) (p :: sub) = N.eqb p x && startswith s sub.
Proof. reflexivity. Qed.

Lemma render_timestamp_plain (d : datetime) :
  strip (render_timestamp d) = render_timestamp d /\
  str_in MARKER (render_timestamp d) = false.
Proof.
  split.
  - unfold strip, strip_with, render_timestamp, four_digits.
    cbn [app]. rewrite lstrip_head by apply isspace_digit.
    change (digit (Z.to_N (year d) / 1000)
              :: digit (Z.to_N (year d) / 100)
              :: digit (Z.to_N (year d) / 10)
              :: digit (Z.to_N (year d))
              :: lit "-" ++ two_digits (Z.to_N (month d)) ++ lit "-" ++
                 two_digits (Z.to_N (day d)) ++ lit " " ++
                 two_digits (Z.to_N (hour d)) ++ lit ":" ++
                 two_digits (Z.to_N (minute d)))
      with ((four_digits (Z.to_N (year d)) ++ lit "-" ++
             two_digits (Z.to_N (month d)) ++ lit "-" ++
             two_digits (Z.to_N (day d)) ++ lit " " ++
             two_digits (Z.to_N (hour d)) ++ lit ":" ++
             [digit (Z.to_N (minute d) / 10)]) ++ [digit (Z.to_N (minute d))]).
    apply rstrip_last, isspace_digit.
  - assert (H : forall s, (forall c, In c s -> (c <= 58)%N) ->
                 str_in MARKER s = false).
    { induction s as [|x s IH]; intros Hs; [reflexivity|].
      cbn [str_in]. rewrite IH by (intros; apply Hs; now right).
      assert (Hx : (x <= 58)%N) by (apply Hs; now left).
      assert (M : MARKER = 85%N :: tl MARKER) by reflexivity.
      rewrite M, startswith_cons.
      destruct (N.eqb_spec 85 x) as [<-|Ne]; [exfalso; lia|reflexivity]. }
    apply H. intros c Hc. apply render_timestamp_chars in Hc. lia.
Qed.

Lemma rendered_entries (ttl : str) (ut : datetime) (acct : str)
  (dt : datetime) (tgs : list (str * str)) (rest : list str) :
  plain ttl = true -> plain acct = true -> forallb tag_ok tgs = true ->
  header_entries
    ([header_line (lit "Title") ttl;
      header_line (lit "Upload Time") (render_timestamp ut);
      header_line (lit "Uploaded By") acct;
      header_line (lit "Downloaded") (render_timestamp dt);
      header_line (lit "Tags") (render_tags tgs);
      []] ++ lit "Uploader's Comments:" :: rest) =
  [(lit "Title", ttl);
   (lit "Upload Time", render_timestamp ut);
   (lit "Uploaded By", acct);
   (lit "Downloaded", render_timestamp dt);
   (lit "Tags", strip (render_tags tgs))].
Proof.
  intros P1 P2 P3.
  apply plain_true in P1 as (S1 & _ & M1).
  apply plain_true in P2 as (S2 & _ & M2).
  destruct (render_tags_plain tgs P3) as (_ & M3).
  destruct (render_timestamp_plain ut) as (S4 & M4).
  destruct (render_timestamp_plain dt) as (S5 & M5).
  cbn [app].
  do 5 (erewrite header_entries_entry;
          [|apply header_line_no_marker; [reflexivity|eassumption]
           |apply header_entry_line;
            [vm_compute; intuition discriminate|reflexivity]]).
  rewrite S1, S2, S4, S5.
  rewrite header_entries_skip by reflexivity.
  rewrite header_entries_marker by reflexivity. reflexivity.
Qed.

(** The sidecar as the downloader lays it out, written from a title, an
    upload time, an account, a download time and a non-empty list of tags
    (the strings trimmed, on one line and free of the text of the marker;
    the dates and times valid; the categories non-empty and free of colon
    and comma, the tag values free of comma), is parsed into a record that
    holds exactly those values. *)
Lemma sidecar_text_read_back (fs : FileSystem) (folder : str) (g mt : Z)
  (fl : list str) (ttl : str) (ut : datetime) (acct : str) (dt : datetime)
  (tgs : list (str * str)) (comment : str) :
  read_text fs (path_join folder (lit "galleryinfo.txt")) =
    Ok (sidecar_text ttl ut acct dt tgs comment) ->
  parse_gid folder = Ok g ->
  listdir fs folder = Ok fl ->
  getmtime fs (path_join folder (lit "galleryinfo.txt")) = Ok mt ->
  plain ttl = true -> plain acct = true ->
  valid_datetime ut = true -> valid_datetime dt = true ->
  tgs <> [] -> forallb tag_ok tgs = true ->
  exists r,
    parse_galleryinfo fs folder = Ok r /\
    title r = ttl /\ upload_time r = ut /\ upload_account r = acct /\
    download_time r = dt /\ tags r = tgs.
Proof.
  intros Hr Hg Hl Hm P1 P2 V1 V2 Hne P3.
  destruct (render_tags_plain tgs P3) as (N3 & _).
  pose proof (plain_true _ P1) as (_ & N1 & _).
  pose proof (plain_true _ P2) as (_ & N2 & _).
  destruct (sidecar_text_lines ttl ut acct dt tgs comment N1 N2 N3)
    as (rest & Hlines).
  set (lines := split NL (strip_chars [NL] (sidecar_text ttl ut acct dt tgs comment))) in *.
  assert (Hs : sidecar_lines fs folder = Ok lines).
  { unfold sidecar_lines. now rewrite Hr. }
  assert (He : header_entries lines =
               [(lit "Title", ttl);
                (lit "Upload Time", render_timestamp ut);
                (lit "Uploaded By", acct);
                (lit "Downloaded", render_timestamp dt);
                (lit "Tags", strip (render_tags tgs))]).
  { rewrite Hlines. now apply rendered_entries. }
  assert (T : timestamps_ok lines = true).
  { unfold timestamps_ok. rewrite He. cbn [forallb fst snd].
    unfold accepted. rewrite !strptime_render by assumption. reflexivity. }
  assert (F : forall f,
             field_values (label f) lines =
             [match f with
              | FTags => strip (render_tags tgs)
              | FTitle => ttl
              | FUploadTime => render_timestamp ut
              | FUploadedBy => acct
              | FDownloaded => render_timestamp dt
              end]).
  { intros f. unfold field_values. rewrite He. destruct f; reflexivity. }
  rewrite (parse_galleryinfo_scan fs folder lines fl g mt) by assumption.
  pose proof (for_lines_header lines initial_locals eq_refl) as H.
  destruct (for_lines initial_locals lines) as [v|e];
    [|destruct H as (_ & H); congruence].
  destruct H as (_ & V & _). cbn [bind].
  destruct (assemble_complete folder g fl mt v) as (r & Hr').
  { intros f. rewrite V. apply final_value_bound; [assumption|].
    unfold has_label. now rewrite F. }
  exists r. split; [assumption|].
  apply assemble_ok in Hr' as (Hv & _).
  assert (R : forall f, convert f (last (field_values (label f) lines) []) =
                        Ok (record_field f r)).
  { intros f. specialize (Hv f). rewrite V in Hv. unfold final_value in Hv.
    rewrite F in *. cbn [last] in *.
    destruct (convert f _); congruence. }
  pose proof (R FTitle) as R1. pose proof (R FUploadTime) as R2.
  pose proof (R FUploadedBy) as R3. pose proof (R FDownloaded) as R4.
  pose proof (R FTags) as R5.
  rewrite F in R1, R2, R3, R4, R5.
  cbn [last convert record_field] in R1, R2, R3, R4, R5.
  rewrite strptime_render in R2, R4 by assumption.
  rewrite parse_tags_total, spec_parse_tags_strip in R5.
  rewrite spec_parse_tags_render in R5
    by (try assumption; now apply tag_ok_wellformed).
  cbn [bind] in R2, R4, R5.
  repeat split; congruence.
Qed.

Lemma carries_last (lines : list str) (f : field) (text : str) :
  carries lines f text ->
  has_label (label f) lines = true /\
  last (field_values (label f) lines) [] = text.
Proof.
  intros (pre & line & post & -> & Hpre & Hline & He & Hpost).
  destruct (field_values_last (label f) text line pre post Hpre Hline He Hpost)
    as (values & E).
  unfold has_label. rewrite E, last_last.
  split; [|reflexivity]. now destruct values.
Qed.

(** C8, counterexample. A sidecar written from an empty list of tags is
    parsed into a record with one tag, ("untagged", ""); and a sidecar
    written from a title that contains the text of the marker is parsed
    into no record at all: its title line opens the comment block, and
    [title] is never bound. *)
Lemma empty_tags_counterexample :
  (exists r,
      parse_galleryinfo
        (fs_gallery
           (sidecar_text (lit "Foo") sample_datetime (lit "someone")
              sample_datetime [] (lit "hello"))
           sample_names)
        sample_folder = Ok r /\
      title r = lit "Foo" /\ tags r = [(lit "untagged", [])]) /\
  parse_galleryinfo
    (fs_gallery
       (sidecar_text (lit "On Uploader's Comments") sample_datetime
          (lit "someone") sample_datetime sample_tags (lit "hello"))
       sample_names)
    sample_folder = Raise (UnboundLocalError "title").
Proof.
  split; [eexists; split; [vm_compute; reflexivity|split; reflexivity]|].
  vm_compute. reflexivity.
Qed.

(** C8, amended. Round trip. Take a folder whose id, listing and
    modification time are obtained, and whose sidecar carries before the
    comment marker, on the last header line of each label, a title, an
    upload time, an account, a download time and a list of tags: the two
    times valid and written year-month-day hour:minute with zeros, the list
    of tags not empty and written "category:value" joined by ", ", with
    every category and value trimmed and free of comma and every category
    non-empty and free of colon; no other timestamp value before the marker
    being refused. Then [parse_galleryinfo] returns a record whose [title],
    [upload_time], [upload_account], [download_time] and [tags] are exactly
    those values. *)
Theorem round_trip (fs : FileSystem) (folder : str) (lines fl : list str)
  (g mt : Z) (ttl : str) (ut : datetime) (acct : str) (dt : datetime)
  (tgs : list (str * str)) :
  sidecar_lines fs folder = Ok lines ->
  parse_gid folder = Ok g ->
  listdir fs folder = Ok fl ->
  getmtime fs (path_join folder (lit "galleryinfo.txt")) = Ok mt ->
  timestamps_ok lines = true ->
  carries lines FTitle ttl ->
  carries lines FUploadTime (render_timestamp ut) ->
  carries lines FUploadedBy acct ->
  carries lines FDownloaded (render_timestamp dt) ->
  carries lines FTags (render_tags tgs) ->
  valid_datetime ut = true -> valid_datetime dt = true ->
  tgs <> [] -> forallb tag_wellformed tgs = true ->
  exists r,
    parse_galleryinfo fs folder = Ok r /\
    title r = ttl /\ upload_time r = ut /\ upload_account r = acct /\
    download_time r = dt /\ tags r = tgs.
Proof.
  intros Hs Hg Hl Hm T C1 C2 C3 C4 C5 V1 V2 Hne P.
  apply carries_last in C1 as (L1 & E1). apply carries_last in C2 as (L2 & E2).
  apply carries_last in C3 as (L3 & E3). apply carries_last in C4 as (L4 & E4).
  apply carries_last in C5 as (L5 & E5).
  assert (E : exists r, parse_galleryinfo fs folder = Ok r).
  { rewrite (parse_galleryinfo_scan fs folder lines fl g mt) by assumption.
    pose proof (for_lines_header lines initial_locals eq_refl) as H.
    destruct (for_lines initial_locals lines) as [v|e];
      [|destruct H as (_ & H); congruence].
    destruct H as (_ & V & _). cbn [bind].
    apply assemble_complete. intros f. rewrite V.
    apply final_value_bound; [assumption|]. now destruct f. }
  destruct E as (r & Hr). exists r. split; [exact Hr|].
  destruct (record_field_last fs folder lines r FTitle Hs Hr) as (_ & R1).
  destruct (record_field_last fs folder lines r FUploadTime Hs Hr) as (_ & R2).
  destruct (record_field_last fs folder lines r FUploadedBy Hs Hr) as (_ & R3).
  destruct (record_field_last fs folder lines r FDownloaded Hs Hr) as (_ & R4).
  destruct (record_field_last fs folder lines r FTags Hs Hr) as (_ & R5).
  rewrite E1 in R1. rewrite E2 in R2. rewrite E3 in R3. rewrite E4 in R4.
  rewrite E5 in R5.
  cbn [convert record_field] in R1, R2, R3, R4, R5.
  rewrite strptime_render in R2, R4 by assumption.
  rewrite parse_tags_total in R5.
  rewrite spec_parse_tags_render in R5 by assumption.
  cbn [bind] in R2, R4, R5.
  repeat split; congruence.
Qed.

(** The header line at position [k] of concrete lines carries its value. *)
Ltac carried_at k lines :=
  exists (firstn k lines), (nth k lines []), (skipn (S k) lines);
  split; [vm_compute; reflexivity|];
  split; [intros l Hl; vm_compute in Hl;
          repeat (destruct Hl as [<-|Hl]; [vm_compute; reflexivity|]);
          destruct Hl|];
  split; [vm_compute; reflexivity|];
  split; vm_compute; reflexivity.

Lemma round_trip_witness :
  exists r,
    parse_galleryinfo (fs_gallery sample_text sample_names) sample_folder = Ok r /\
    title r = lit "Foo: bar" /\ upload_time r = sample_datetime /\
    upload_account r = lit "someone" /\ download_time r = sample_datetime /\
    tags r = sample_tags.
Proof.
  apply (round_trip (fs_gallery sample_text sample_names) sample_folder
           sample_text_lines sample_names 1%Z 0%Z (lit "Foo: bar")
           sample_datetime (lit "someone") sample_datetime sample_tags).
  - vm_compute. reflexivity.
  - vm_compute. reflexivity.
  - reflexivity.
  - reflexivity.
  - vm_compute. reflexivity.
  - carried_at 0%nat sample_text_lines.
  - carried_at 1%nat sample_text_lines.
  - carried_at 2%nat sample_text_lines.
  - carried_at 3%nat sample_text_lines.
  - carried_at 4%nat sample_text_lines.
  - vm_compute. reflexivity.
  - vm_compute. reflexivity.
  - discriminate.
  - vm_compute. reflexivity.
Defined.

(** An empty list of tags is not read back: the Tags line then has an
    empty value, whose only token is the empty tag. *)
Example empty_tags_not_read_back :
  parse_tags (strip (render_tags [])) = Ok [(lit "untagged", [])].
Proof. vm_compute. reflexivity. Qed.

(** * Further properties *)

(** ** The gallery id *)

Lemma basename_after_slash (dir name : str) :
  ~ In (ch "/") name -> basename (dir ++ ch "/" :: name) = name.
Proof. intros H. unfold basename. now apply last_split_app. Qed.

Lemma basename_no_slash (name : str) :
  ~ In (ch "/") name -> basename name = name.
Proof. intros H. unfold basename. now rewrite split_notin. Qed.

(** X1. [parse_gid] looks at the basename only: whatever directory a
    folder name without slash is put under, the id is the same, errors
    included. *)
Theorem parse_gid_ignores_directory (dir name : str) :
  ~ In (ch "/") name ->
  parse_gid (dir ++ ch "/" :: name) = parse_gid name.
Proof.
  intros H. rewrite !parse_gid_unfold.
  now rewrite basename_after_slash, basename_no_slash.
Qed.

Lemma parse_gid_ignores_directory_witness :
  parse_gid (lit "/data/galleries" ++ ch "/" :: lit "Foo [42]") =
  parse_gid (lit "Foo [42]").
Proof.
  apply parse_gid_ignores_directory.
  simpl. intuition discriminate.
Defined.

(** X2. A path with an empty basename, the empty path or one that ends
    with a slash, has no id: [parse_gid] raises [ValueError]. *)
Theorem parse_gid_empty_basename :
  parse_gid [] = Raise ValueError /\
  forall dir, parse_gid (dir ++ [ch "/"]) = Raise ValueError.
Proof.
  split; [reflexivity|]. intros dir.
  rewrite parse_gid_unfold, (basename_after_slash dir []) by (simpl; tauto).
  reflexivity.
Qed.

Lemma strip_all_right (p : char -> bool) (s ws : str) :
  forallb p ws = true -> strip_with p (s ++ ws) = strip_with p s.
Proof.
  intros H. unfold strip_with. rewrite <- !lstrip_rstrip.
  f_equal. unfold rstrip_with. rewrite rev_app_distr, lstrip_all; [reflexivity|].
  rewrite forallb_forall in *. intros x Hx. apply H. now apply in_rev.
Qed.

(** The sign and the white space [int] accepts around the digits. *)
Lemma int_literal_signed (ws1 ws2 : str) (negative : bool) (ds : list N) :
  forallb int_isspace ws1 = true -> forallb int_isspace ws2 = true ->
  ds <> [] -> Forall (fun d => (d < 10)%N) ds ->
  (N.of_nat (List.length ds) <= int_max_str_digits)%N ->
  int_literal (ws1 ++ (if negative then [ch "-"] else []) ++ digit_chars ds ++ ws2) =
  Some (if negative then (- digits_value ds)%Z else digits_value ds).
Proof.
  intros H1 H2 Hne Hds Hlen.
  assert (E : strip_with int_isspace
                (ws1 ++ (if negative then [ch "-"] else []) ++ digit_chars ds ++ ws2) =
              (if negative then [ch "-"] else []) ++ digit_chars ds).
  { rewrite strip_all by assumption. rewrite app_assoc, strip_all_right by assumption.
    apply strip_with_fixed. intros c Hc.
    apply in_app_or in Hc as [Hc|Hc].
    - destruct negative; [|destruct Hc]. destruct Hc as [<-|[]]. reflexivity.
    - unfold digit_chars in Hc. apply in_map_iff in Hc as (d & <- & Hd).
      apply digit_not_int_space. rewrite Forall_forall in Hds. now apply Hds. }
  pose proof (int_literal_digits ds Hne Hds Hlen) as L.
  unfold int_literal in *. rewrite E.
  rewrite strip_with_fixed in L.
  2:{ intros c Hc. unfold digit_chars in Hc. apply in_map_iff in Hc as (d & <- & Hd).
      apply digit_not_int_space. rewrite Forall_forall in Hds. now apply Hds. }
  destruct negative; cbn [app].
  - change (N.eqb (ch "-") (ch "+")) with false.
    change (N.eqb (ch "-") (ch "-")) with true. cbv iota.
    destruct ds as [|d ds]; [congruence|].
    inversion Hds as [|? ? Hd _]; subst.
    change (digit_chars (d :: ds)) with ((48 + d)%N :: digit_chars ds) in *.
    cbv beta iota in L.
    rewrite (digit_not_symbol d (ch "+") Hd) in L by (left; reflexivity).
    rewrite (digit_not_symbol d (ch "-") Hd) in L by (left; reflexivity).
    etransitivity; [apply f_equal; exact L|reflexivity].
  - exact L.
Qed.

Lemma forallb_excludes (p : char -> bool) (ws : str) (c : char) :
  forallb p ws = true -> p c = false -> ~ In c ws.
Proof.
  intros H Hc F. rewrite forallb_forall in H. apply H in F. congruence.
Qed.

Lemma signed_text_excludes (ws1 ws2 : str) (negative : bool) (ds : list N)
  (c : char) :
  forallb int_isspace ws1 = true -> forallb int_isspace ws2 = true ->
  Forall (fun d => (d < 10)%N) ds ->
  int_isspace c = false -> c <> ch "-" -> (c < 48 \/ 57 < c)%N ->
  ~ In c (ws1 ++ (if negative then [ch "-"] else []) ++ digit_chars ds ++ ws2).
Proof.
  intros H1 H2 Hds Hc Hm Hr F.
  apply in_app_or in F as [F|F]; [now apply (forallb_excludes _ _ _ H1 Hc)|].
  apply in_app_or in F as [F|F].
  - destruct negative; [|destruct F]. destruct F as [F|[]]. congruence.
  - apply in_app_or in F as [F|F]; [|now apply (forallb_excludes _ _ _ H2 Hc)].
    apply (digit_chars_range ds c Hds) in F. lia.
Qed.

(** X3. Inside the brackets [int] accepts white space around the number
    and a minus sign before it: a folder name "X[ws -N ws]" has the id -N,
    and "X[ws N ws]" the id N, for N of at most 4300 digits. *)
Theorem parse_gid_signed_bracket (X ws1 ws2 : str) (negative : bool)
  (ds : list N) :
  forallb int_isspace ws1 = true -> forallb int_isspace ws2 = true ->
  ds <> [] -> Forall (fun d => (d < 10)%N) ds ->
  (N.of_nat (List.length ds) <= int_max_str_digits)%N ->
  parse_gid (X ++ [ch "["] ++ ws1 ++ (if negative then [ch "-"] else []) ++
             digit_chars ds ++ ws2 ++ [ch "]"]) =
  Ok (if negative then (- digits_value ds)%Z else digits_value ds).
Proof.
  intros H1 H2 Hne Hds Hlen.
  set (M := ws1 ++ (if negative then [ch "-"] else []) ++ digit_chars ds ++ ws2).
  assert (E : X ++ [ch "["] ++ ws1 ++ (if negative then [ch "-"] else []) ++
              digit_chars ds ++ ws2 ++ [ch "]"] =
              X ++ (ch "[" :: M ++ [ch "]"])).
  { unfold M. cbn [app]. now rewrite <- !app_assoc. }
  assert (N : forall c, int_isspace c = false -> c <> ch "-" ->
                        (c < 48 \/ 57 < c)%N -> ~ In c M).
  { intros c. now apply signed_text_excludes. }
  rewrite E, (parse_gid_bracketed _ (basename X) M).
  - unfold int, M. now rewrite int_literal_signed.
  - rewrite basename_suffix; [reflexivity|].
    intros [F|F]; [discriminate F|].
    apply in_app_or in F as [F|[F|[]]]; [|discriminate F].
    revert F. apply N; [reflexivity|discriminate|left; reflexivity].
  - apply N; [reflexivity|discriminate|right; reflexivity].
  - apply N; [reflexivity|discriminate|right; reflexivity].
Qed.

Lemma parse_gid_signed_bracket_witness :
  parse_gid (lit "Foo [ -42  ]") = Ok (-42)%Z.
Proof.
  apply (parse_gid_signed_bracket (lit "Foo ") (lit " ") (lit "  ") true
           [4; 2]%N).
  - reflexivity.
  - reflexivity.
  - discriminate.
  - repeat constructor.
  - vm_compute. discriminate.
Defined.

(** X4. A folder whose basename is the digits of a non-negative literal,
    at most 4300 of them, has the value of that literal as its id; with more
    digits [parse_gid] raises [ValueError]. *)
Theorem parse_gid_bare_literal (folder : str) (ds : list N) :
  basename folder = digit_chars ds ->
  ds <> [] -> Forall (fun d => (d < 10)%N) ds ->
  ((N.of_nat (List.length ds) <= int_max_str_digits)%N ->
   parse_gid folder = Ok (digits_value ds)) /\
  ((int_max_str_digits < N.of_nat (List.length ds))%N ->
   parse_gid folder = Raise ValueError).
Proof.
  intros E Hne Hds.
  assert (P : parse_gid folder = int (digit_chars ds)).
  { rewrite parse_gid_plain; [now rewrite E|].
    rewrite E. intros [F _]. apply (digit_chars_range ds _ Hds) in F.
    cbv in F. destruct F as [_ F]. now apply F. }
  rewrite P. split; intros Hlen.
  - unfold int. now rewrite int_literal_digits.
  - apply int_raises. now apply digits_over_limit.
Qed.

Lemma parse_gid_bare_literal_witness :
  parse_gid (lit "/data/12345") = Ok (digits_value [1; 2; 3; 4; 5]%N).
Proof.
  apply (proj1 (parse_gid_bare_literal (lit "/data/12345") [1; 2; 3; 4; 5]%N
                  eq_refl ltac:(discriminate) ltac:(repeat constructor))).
  vm_compute. discriminate.
Defined.

(** ** The tag list *)

Lemma split_length (c : char) (s : str) :
  List.length (split c s) = S (count_occ N.eq_dec s c).
Proof.
  induction s as [|x s IH]; [reflexivity|].
  cbn [split count_occ].
  destruct (N.eqb_spec x c) as [->|Ne].
  - destruct (N.eq_dec c c) as [_|F]; [|congruence]. simpl. now rewrite IH.
  - destruct (N.eq_dec x c) as [F|_]; [congruence|].
    rewrite <- IH. destruct (split c s); [|reflexivity].
    discriminate IH.
Qed.

Lemma split_app_sep (c : char) (a b : str) :
  split c (a ++ c :: b) = split c a ++ split c b.
Proof.
  induction a as [|x a IH]; cbn [app split].
  - now rewrite N.eqb_refl.
  - destruct (N.eqb x c); [now rewrite IH|].
    rewrite IH. pose proof (split_nonempty c a) as Hne.
    destruct (split c a); [congruence|reflexivity].
Qed.

(** X5. The tag parser never fails and returns one tag more than the
    value holds commas: at least one tag, even for the empty value. *)
Theorem parse_tags_count (value : str) :
  exists tags,
    parse_tags value = Ok tags /\
    List.length tags = S (count_occ N.eq_dec value (ch ",")).
Proof.
  exists (spec_parse_tags value). split; [apply parse_tags_total|].
  unfold spec_parse_tags. now rewrite length_map, split_length.
Qed.

Lemma before_first_In (c x : char) (s : str) :
  In x (before_first c s) -> In x s /\ x <> c.
Proof.
  induction s as [|y s IH]; simpl; [tauto|].
  destruct (N.eqb_spec y c) as [->|Ne]; simpl; [tauto|].
  intros [<-|H]; [tauto|]. destruct (IH H). tauto.
Qed.

Lemma after_first_In (c x : char) (s : str) :
  In x (after_first c s) -> In x s.
Proof.
  induction s as [|y s IH]; simpl; [tauto|].
  destruct (N.eqb y c); tauto.
Qed.

Lemma strip_strip (s : str) : strip (strip s) = strip s.
Proof. apply strip_idem. Qed.

Lemma spec_parse_tags_shape (value : str) (category tag_value : str) :
  In (category, tag_value) (spec_parse_tags value) ->
  category <> [] /\ strip category = category /\ strip tag_value = tag_value /\
  ~ In (ch ":") category /\ ~ In (ch ",") category /\ ~ In (ch ",") tag_value.
Proof.
  unfold spec_parse_tags. intros H. apply in_map_iff in H as (token & E & Ht).
  assert (Hc : ~ In (ch ",") token).
  { pose proof (split_pieces (ch ",") value) as F.
    rewrite Forall_forall in F. now apply F. }
  unfold spec_tag in E. cbv zeta in E.
  destruct (existsb (N.eqb (ch ":")) (strip token));
    [destruct (str_eqb (strip (before_first (ch ":") (strip token))) []) eqn:Ee|];
    injection E as <- <-; rewrite ?strip_strip.
  - repeat split; try reflexivity; try discriminate.
    + simpl. intuition discriminate.
    + simpl. intuition discriminate.
    + intros F. apply Hc. now apply strip_In, after_first_In, strip_In in F.
  - str_eqs. repeat split; try assumption.
    + intros F. apply strip_In, before_first_In in F. tauto.
    + intros F. apply Hc.
      apply strip_In, before_first_In in F as [F _]. now apply strip_In in F.
    + intros F. apply Hc. now apply strip_In, after_first_In, strip_In in F.
  - repeat split; try reflexivity; try discriminate.
    + simpl. intuition discriminate.
    + simpl. intuition discriminate.
    + intros F. apply Hc. now apply strip_In in F.
Qed.

(** X6. Every tag the parser returns has a non-empty category; category
    and value are trimmed and hold no comma, and the category holds no
    colon. *)
Theorem parse_tags_shape (value : str) (tags : list (str * str))
  (category tag_value : str) :
  parse_tags value = Ok tags ->
  In (category, tag_value) tags ->
  category <> [] /\ strip category = category /\ strip tag_value = tag_value /\
  ~ In (ch ":") category /\ ~ In (ch ",") category /\ ~ In (ch ",") tag_value.
Proof.
  rewrite parse_tags_total. intros H. injection H as <-.
  apply spec_parse_tags_shape.
Qed.

Lemma parse_tags_shape_witness :
  lit "b" <> [] /\ strip (lit "b") = lit "b" /\ strip (lit "2") = lit "2" /\
  ~ In (ch ":") (lit "b") /\ ~ In (ch ",") (lit "b") /\ ~ In (ch ",") (lit "2").
Proof.
  apply (parse_tags_shape (lit "a:1, b : 2 ,3")
           [(lit "a", lit "1"); (lit "b", lit "2"); (lit "untagged", lit "3")]).
  - vm_compute. reflexivity.
  - right. left. reflexivity.
Defined.

(** X7. The tags of two values joined by a comma are the tags of the
    first followed by the tags of the second. *)
Theorem parse_tags_app (a b : str) :
  parse_tags (a ++ ch "," :: b) =
  (ta <- parse_tags a ;; tb <- parse_tags b ;; Ok (ta ++ tb)).
Proof.
  rewrite !parse_tags_total. cbn [bind]. unfold spec_parse_tags.
  now rewrite split_app_sep, map_app.
Qed.

(** ** Header lines *)

Lemma header_entry_app (k x : str) :
  ~ In (ch ":") k -> header_entry (k ++ ch ":" :: x) = Some (strip k, strip x).
Proof. intros H. unfold header_entry. now rewrite split1_app. Qed.

(** X8. Before the comment marker, white space around the label and
    around the value of a header line does not matter: the padded line has
    exactly the effect, or the failure, of the bare one. *)
Theorem header_padding_irrelevant (v : locals) (ws1 ws2 ws3 ws4 k x : str) :
  comments v = false ->
  forallb isspace ws1 = true -> forallb isspace ws2 = true ->
  forallb isspace ws3 = true -> forallb isspace ws4 = true ->
  ~ In (ch ":") k ->
  str_in MARKER (ws1 ++ k ++ ws2 ++ ch ":" :: ws3 ++ x ++ ws4) = false ->
  str_in MARKER (k ++ ch ":" :: x) = false ->
  loop_body v (ws1 ++ k ++ ws2 ++ ch ":" :: ws3 ++ x ++ ws4) =
  loop_body v (k ++ ch ":" :: x).
Proof.
  intros C H1 H2 H3 H4 Hk M1 M2.
  rewrite !loop_body_header by assumption.
  rewrite (header_entry_app k x Hk).
  assert (E : ws1 ++ k ++ ws2 ++ ch ":" :: ws3 ++ x ++ ws4 =
              (ws1 ++ k ++ ws2) ++ ch ":" :: (ws3 ++ x ++ ws4))
    by now rewrite <- !app_assoc.
  rewrite E, header_entry_app.
  - unfold strip.
    rewrite (strip_all isspace ws1), (strip_all isspace ws3) by assumption.
    now rewrite !strip_all_right by assumption.
  - assert (S : isspace (ch ":") = false) by reflexivity.
    intros F. apply in_app_or in F as [F|F];
      [now apply (forallb_excludes isspace ws1 (ch ":") H1 S)|].
    apply in_app_or in F as [F|F]; [tauto|].
    now apply (forallb_excludes isspace ws2 (ch ":") H2 S).
Qed.

Lemma header_padding_irrelevant_witness :
  loop_body initial_locals (lit "  Title   :     Foo: bar  ") =
  loop_body initial_locals (lit "Title:Foo: bar").
Proof.
  apply (header_padding_irrelevant initial_locals
           (lit "  ") (lit "   ") (lit "     ") (lit "  ")
           (lit "Title") (lit "Foo: bar")).
  - reflexivity.
  - reflexivity.
  - reflexivity.
  - reflexivity.
  - reflexivity.
  - simpl. intuition discriminate.
  - vm_compute. reflexivity.
  - vm_compute. reflexivity.
Defined.

Lemma match_key_unknown (v : locals) (key value : str) :
  (forall f, key <> label f) -> match_key v key value = Ok v.
Proof.
  intros H. unfold match_key.
  pose proof (H FTags) as H1. pose proof (H FTitle) as H2.
  pose proof (H FUploadTime) as H3. pose proof (H FUploadedBy) as H4.
  pose proof (H FDownloaded) as H5. cbn [label] in *.
  apply str_eqb_neq in H1, H2, H3, H4, H5.
  now rewrite H1, H2, H3, H4, H5.
Qed.

Lemma loop_body_ignored (v : locals) (line : str) :
  comments v = false -> str_in MARKER line = false ->
  (forall key value f, header_entry line = Some (key, value) -> key <> label f) ->
  loop_body v line = Ok (Continue, v).
Proof.
  intros C M H. rewrite loop_body_header by assumption.
  destruct (header_entry line) as [[key value]|]; [|reflexivity].
  rewrite match_key_unknown; [reflexivity|].
  intros f. now apply (H key value f).
Qed.

Lemma loop_body_header_state (v v' : locals) (line : str) (f : flow) :
  comments v = false -> str_in MARKER line = false ->
  loop_body v line = Ok (f, v') -> f = Continue /\ comments v' = false.
Proof.
  intros C M. rewrite loop_body_header by assumption.
  destruct (header_entry line) as [[key value]|].
  - destruct (match_key v key value) as [v1|e] eqn:K; [|discriminate].
    cbn [bind]. intros H. injection H as <- <-.
    apply match_key_ok in K as (K & _). split; [reflexivity|congruence].
  - intros H. injection H as <- <-. tauto.
Qed.

(** X9. Before the comment marker, a line without colon or with a label
    that is none of the five recognised ones is skipped: reading the lines
    with it or without it gives the same result. *)
Theorem ignored_line_dropped (v : locals) (pre post : list str) (line : str) :
  comments v = false ->
  (forall l, In l pre -> str_in MARKER l = false) ->
  str_in MARKER line = false ->
  (forall key value f, header_entry line = Some (key, value) -> key <> label f) ->
  for_lines v (pre ++ line :: post) = for_lines v (pre ++ post).
Proof.
  intros C Hpre M H. revert v C.
  induction pre as [|l pre IH]; intros v C.
  - cbn [app for_lines]. now rewrite loop_body_ignored.
  - cbn [app for_lines].
    assert (Ml : str_in MARKER l = false) by (apply Hpre; now left).
    destruct (loop_body v l) as [[f v']|e] eqn:L; [|reflexivity].
    destruct (loop_body_header_state v v' l f C Ml L) as (-> & C').
    cbn [bind]. apply IH; [|assumption].
    intros; apply Hpre; now right.
Qed.

Lemma ignored_line_dropped_witness :
  for_lines initial_locals ([lit "Title: Foo"] ++ lit "Pages: 12" :: [lit "Tags: a"]) =
  for_lines initial_locals ([lit "Title: Foo"] ++ [lit "Tags: a"]).
Proof.
  apply ignored_line_dropped.
  - reflexivity.
  - intros l [<-|[]]. vm_compute. reflexivity.
  - vm_compute. reflexivity.
  - intros key value f H. vm_compute in H. injection H as <- <-.
    destruct f; discriminate.
Defined.

(** X10. Lines that follow the comment marker assign no field: whatever
    they are, the five variables end as the lines before the marker left
    them, and the loop does not fail on them. *)
Theorem lines_after_marker_assign_nothing (pre post : list str) (marker : str)
  (v v1 : locals) :
  str_in MARKER marker = true ->
  for_lines v pre = Ok v1 ->
  exists v2,
    for_lines v (pre ++ marker :: post) = Ok v2 /\
    forall f, variable f v2 = variable f v1.
Proof.
  intros M. revert v. induction pre as [|l pre IH]; intros v H.
  - cbn [for_lines] in H. injection H as <-.
    cbn [app for_lines]. rewrite loop_body_marker by assumption. cbn [bind].
    rewrite for_lines_comments by reflexivity.
    eexists. split; [reflexivity|]. intros f. destruct f; reflexivity.
  - cbn [app for_lines] in *.
    destruct (loop_body v l) as [[f v']|e]; [|discriminate H].
    cbn [bind] in *. destruct f.
    + now apply IH.
    + exists v1. split; [assumption|reflexivity].
Qed.

Lemma lines_after_marker_assign_nothing_witness :
  exists v2,
    for_lines initial_locals
      ([lit "Title: Foo"] ++ lit "Uploader's Comments:" :: [lit "Title: Bar"])
    = Ok v2 /\
    forall f, variable f v2 = variable f (set_title initial_locals (lit "Foo")).
Proof.
  apply lines_after_marker_assign_nothing.
  - vm_compute. reflexivity.
  - vm_compute. reflexivity.
Defined.

(** ** The record returned *)

(** X11. Once the sidecar is read, [parse_galleryinfo] returns a record
    exactly when the folder id parses, the listing and the modification time
    are obtained, every timestamp value before the marker is accepted and
    each of the five labels is present before the marker. *)
Theorem parse_galleryinfo_succeeds_iff (fs : FileSystem) (folder : str)
  (lines : list str) :
  sidecar_lines fs folder = Ok lines ->
  (exists r, parse_galleryinfo fs folder = Ok r) <->
  (exists g, parse_gid folder = Ok g) /\
  (exists fl, listdir fs folder = Ok fl) /\
  (exists mt, getmtime fs (path_join folder (lit "galleryinfo.txt")) = Ok mt) /\
  timestamps_ok lines = true /\
  (forall f, has_label (label f) lines = true).
Proof.
  intros Hs. split.
  - intros (r & Hr).
    apply parse_galleryinfo_inv in Hr
      as (lines' & fl & g & mt & v & Hs' & Hg & Hl & Hm & Hv & Ha).
    rewrite Hs in Hs'. injection Hs' as <-.
    pose proof (for_lines_header lines initial_locals eq_refl) as H.
    rewrite Hv in H. destruct H as (T & V & _).
    repeat split; try (eexists; eassumption); try assumption.
    intros f. apply assemble_ok in Ha as (Ha & _). specialize (Ha f).
    rewrite V in Ha. destruct (has_label (label f) lines) eqn:E; [reflexivity|].
    rewrite final_value_absent in Ha by assumption.
    destruct f; discriminate Ha.
  - intros ((g & Hg) & (fl & Hl) & (mt & Hm) & T & L).
    rewrite (parse_galleryinfo_scan fs folder lines fl g mt) by assumption.
    pose proof (for_lines_header lines initial_locals eq_refl) as H.
    destruct (for_lines initial_locals lines) as [v|e];
      [|destruct H as (_ & H); congruence].
    destruct H as (_ & V & _). cbn [bind].
    apply assemble_complete. intros f. rewrite V.
    now apply final_value_bound.
Qed.

Lemma parse_galleryinfo_succeeds_iff_witness :
  (exists r,
      parse_galleryinfo (fs_gallery (text_of_lines sample_lines) sample_names)
        sample_folder = Ok r) <->
  (exists g, parse_gid sample_folder = Ok g) /\
  (exists fl,
      listdir (fs_gallery (text_of_lines sample_lines) sample_names)
        sample_folder = Ok fl) /\
  (exists mt,
      getmtime (fs_gallery (text_of_lines sample_lines) sample_names)
        (path_join sample_folder (lit "galleryinfo.txt")) = Ok mt) /\
  timestamps_ok sample_lines = true /\
  (forall f, has_label (label f) sample_lines = true).
Proof.
  apply parse_galleryinfo_succeeds_iff. vm_compute. reflexivity.
Defined.

(** X12. A record that is returned holds the folder path as given, its
    basename as name, the id [parse_gid] gives, the directory listing as the
    system returned it, the modification time of the sidecar, and an empty
    page cache. *)
Theorem record_provenance (fs : FileSystem) (folder : str)
  (r : GalleryInfoParser) :
  parse_galleryinfo fs folder = Ok r ->
  gallery_folder r = folder /\
  gallery_name r = basename folder /\
  parse_gid folder = Ok (gid r) /\
  listdir fs folder = Ok (files_path r) /\
  getmtime fs (path_join folder (lit "galleryinfo.txt")) = Ok (modified_time r) /\
  _pages r = (-1)%Z.
Proof.
  intros Hr. apply parse_galleryinfo_inv in Hr
    as (lines & fl & g & mt & v & _ & Hg & Hl & Hm & _ & Ha).
  apply assemble_ok in Ha as (_ & _ & E1 & E2 & E3 & E4 & E5 & E6).
  subst. tauto.
Qed.

Lemma record_provenance_witness :
  gallery_folder sample_parsed = sample_folder /\
  gallery_name sample_parsed = basename sample_folder /\
  parse_gid sample_folder = Ok (gid sample_parsed) /\
  listdir (fs_gallery (text_of_lines sample_lines) sample_names) sample_folder =
    Ok (files_path sample_parsed) /\
  getmtime (fs_gallery (text_of_lines sample_lines) sample_names)
    (path_join sample_folder (lit "galleryinfo.txt")) =
    Ok (modified_time sample_parsed) /\
  _pages sample_parsed = (-1)%Z.
Proof.
  apply (record_provenance (fs_gallery (text_of_lines sample_lines) sample_names)).
  vm_compute. reflexivity.
Defined.

Lemma header_entries_from_lines (lines : list str) (key value : str) :
  In (key, value) (header_entries lines) ->
  exists line, In line lines /\ header_entry line = Some (key, value).
Proof.
  induction lines as [|l lines IH]; [intros []|].
  cbn [header_entries]. destruct (str_in MARKER l); [intros []|].
  destruct (header_entry l) as [e|] eqn:E.
  - intros [->|H].
    + exists l. split; [now left|assumption].
    + destruct (IH H) as (line & Hl & He). exists line. split; [now right|assumption].
  - intros H. destruct (IH H) as (line & Hl & He).
    exists line. split; [now right|assumption].
Qed.

Lemma header_entry_value (line key value : str) :
  header_entry line = Some (key, value) ->
  strip value = value /\ forall c, In c value -> In c line.
Proof.
  unfold header_entry.
  destruct (in_dec N.eq_dec (ch ":") line) as [I|I].
  - destruct (split1_In _ _ I) as (k & x & E & -> & _). rewrite E.
    intros H. injection H as <- <-. split; [apply strip_strip|].
    intros c Hc. apply strip_In in Hc. apply in_or_app. right. now right.
  - rewrite split1_notin by assumption. discriminate.
Qed.

Lemma field_values_from_lines (lbl : str) (lines : list str) (value : str) :
  In value (field_values lbl lines) ->
  strip value = value /\
  exists line, In line lines /\ forall c, In c value -> In c line.
Proof.
  unfold field_values. intros H. apply in_map_iff in H as ([k x] & <- & H).
  apply filter_In in H as [H _]. cbn [snd].
  destruct (header_entries_from_lines lines k x H) as (line & Hl & He).
  destruct (header_entry_value line k x He) as (S & C).
  split; [assumption|]. now exists line.
Qed.

(** X13. The title and the account of a record are trimmed and hold no
    newline. *)
Theorem record_strings_trimmed (fs : FileSystem) (folder : str)
  (r : GalleryInfoParser) :
  parse_galleryinfo fs folder = Ok r ->
  strip (title r) = title r /\ ~ In NL (title r) /\
  strip (upload_account r) = upload_account r /\ ~ In NL (upload_account r).
Proof.
  intros Hr.
  destruct (parse_galleryinfo_inv fs folder r Hr)
    as (lines & fl & g & mt & v & Hs & _).
  assert (Hn : forall line, In line lines -> ~ In NL line).
  { unfold sidecar_lines in Hs. destruct (read_text fs _) as [text|]; [|discriminate].
    cbn [bind] in Hs. injection Hs as <-.
    pose proof (split_pieces NL (strip_chars [NL] text)) as F.
    rewrite Forall_forall in F. exact F. }
  assert (P : forall f s, (f = FTitle \/ f = FUploadedBy) ->
                record_field f r = VStr s -> strip s = s /\ ~ In NL s).
  { intros f s Hf E.
    destruct (record_field_last fs folder lines r f Hs Hr) as (Hne & Hc).
    assert (Hv : convert f (last (field_values (label f) lines) []) =
                 Ok (VStr (last (field_values (label f) lines) [])))
      by (destruct Hf as [-> | ->]; reflexivity).
    rewrite Hv, E in Hc. injection Hc as Hc.
    destruct (field_values_from_lines (label f) lines s) as (S & line & Hl & C).
    { rewrite <- Hc. now apply last_In. }
    split; [assumption|]. intros F. apply (Hn line Hl). now apply C. }
  destruct (P FTitle (title r)) as (A1 & A2); [now left|reflexivity|].
  destruct (P FUploadedBy (upload_account r)) as (B1 & B2);
    [now right|reflexivity|].
  tauto.
Qed.

Lemma record_strings_trimmed_witness :
  strip (title sample_parsed) = title sample_parsed /\
  ~ In NL (title sample_parsed) /\
  strip (upload_account sample_parsed) = upload_account sample_parsed /\
  ~ In NL (upload_account sample_parsed).
Proof.
  apply (record_strings_trimmed
           (fs_gallery (text_of_lines sample_lines) sample_names) sample_folder).
  vm_compute. reflexivity.
Defined.

Lemma in_join_part (sep : str) (parts : list str) (s : str) (x : char) :
  In s parts -> In x s -> In x (join sep parts).
Proof.
  induction parts as [|p parts IH]; [intros []|].
  intros Hs Hx. destruct parts as [|q parts].
  - destruct Hs as [->|[]]. exact Hx.
  - change (join sep (p :: q :: parts)) with (p ++ sep ++ join sep (q :: parts)).
    apply in_or_app. destruct Hs as [->|Hs]; [now left|].
    right. apply in_or_app. right. now apply IH.
Qed.

Lemma split_chars (c : char) (value token : str) (x : char) :
  In token (split c value) -> In x token -> In x value.
Proof.
  intros Ht Hx. rewrite <- (join_split c value).
  now apply (in_join_part [c] _ token).
Qed.

Lemma spec_parse_tags_chars (value category tag_value : str) :
  In (category, tag_value) (spec_parse_tags value) ->
  (forall x, In x tag_value -> In x value) /\
  (category = lit "untagged" \/ forall x, In x category -> In x value).
Proof.
  unfold spec_parse_tags. intros H. apply in_map_iff in H as (token & E & Ht).
  unfold spec_tag in E. cbv zeta in E.
  destruct (existsb (N.eqb (ch ":")) (strip token));
    [destruct (str_eqb (strip (before_first (ch ":") (strip token))) [])|];
    injection E as <- <-.
  - split; [|now left]. intros x F.
    apply strip_In, after_first_In, strip_In in F.
    now apply (split_chars (ch ",") value token).
  - split.
    + intros x F. apply strip_In, after_first_In, strip_In in F.
      now apply (split_chars (ch ",") value token).
    + right. intros x F. apply strip_In, before_first_In in F as [F _].
      apply strip_In in F. now apply (split_chars (ch ",") value token).
  - split; [|now left]. intros x F. apply strip_In in F.
    now apply (split_chars (ch ",") value token).
Qed.

(** X14. The tags of a record are never empty, and each has a non-empty
    category, both parts trimmed and free of newline and comma, the category
    free of colon. *)
Theorem record_tags_shape (fs : FileSystem) (folder : str)
  (r : GalleryInfoParser) :
  parse_galleryinfo fs folder = Ok r ->
  tags r <> [] /\
  forall category tag_value,
    In (category, tag_value) (tags r) ->
    category <> [] /\ strip category = category /\
    strip tag_value = tag_value /\ ~ In NL category /\ ~ In NL tag_value /\
    ~ In (ch ":") category /\ ~ In (ch ",") category /\ ~ In (ch ",") tag_value.
Proof.
  intros Hr.
  destruct (parse_galleryinfo_inv fs folder r Hr)
    as (lines & fl & g & mt & v & Hs & _).
  assert (Hn : forall line, In line lines -> ~ In NL line).
  { unfold sidecar_lines in Hs. destruct (read_text fs _) as [text|]; [|discriminate].
    cbn [bind] in Hs. injection Hs as <-.
    pose proof (split_pieces NL (strip_chars [NL] text)) as F.
    rewrite Forall_forall in F. exact F. }
  destruct (record_field_last fs folder lines r FTags Hs Hr) as (Hne & Hc).
  cbn [convert label record_field] in Hc. rewrite parse_tags_total in Hc.
  cbn [bind] in Hc. injection Hc as Hc.
  set (value := last (field_values (lit "Tags") lines) []) in *.
  assert (Hv : ~ In NL value).
  { destruct (field_values_from_lines (lit "Tags") lines value)
      as (_ & line & Hl & C); [now apply last_In|].
    intros F. apply (Hn line Hl). now apply C. }
  rewrite <- Hc. split.
  - unfold spec_parse_tags. pose proof (split_nonempty (ch ",") value) as F.
    destruct (split (ch ",") value); [congruence|discriminate].
  - intros category tag_value H.
    destruct (spec_parse_tags_shape value category tag_value H)
      as (A1 & A2 & A3 & A4 & A5 & A6).
    destruct (spec_parse_tags_chars value category tag_value H) as (B1 & B2).
    repeat split; try assumption.
    + destruct B2 as [-> | B2]; [simpl; intuition discriminate|].
      intros F. apply Hv. now apply B2.
    + intros F. apply Hv. now apply B1.
Qed.

Lemma record_tags_shape_witness :
  tags sample_parsed <> [] /\
  forall category tag_value,
    In (category, tag_value) (tags sample_parsed) ->
    category <> [] /\ strip category = category /\
    strip tag_value = tag_value /\ ~ In NL category /\ ~ In NL tag_value /\
    ~ In (ch ":") category /\ ~ In (ch ",") category /\ ~ In (ch ",") tag_value.
Proof.
  apply (record_tags_shape
           (fs_gallery (text_of_lines sample_lines) sample_names) sample_folder).
  vm_compute. reflexivity.
Defined.

Lemma lstrip_hd (p : char -> bool) (s : str) (x : char) (t : str) :
  lstrip_with p s = x :: t -> p x = false.
Proof.
  induction s as [|y s IH]; simpl; [discriminate|].
  destruct (p y) eqn:E; [exact IH|]. intros H. injection H as <- _. exact E.
Qed.

(** What is trimmed neither starts nor ends with a trimmed character. *)
Lemma strip_with_ends (p : char -> bool) (s : str) :
  match strip_with p s with
  | [] => True
  | x :: t => p x = false /\ p (last (x :: t) x) = false
  end.
Proof.
  destruct (strip_with p s) as [|x t] eqn:E; [exact I|]. split.
  - unfold strip_with in E. rewrite <- lstrip_rstrip in E.
    now apply lstrip_hd in E.
  - unfold strip_with, rstrip_with in E.
    destruct (lstrip_with p (rev (lstrip_with p s))) as [|y u] eqn:F.
    + discriminate E.
    + pose proof (lstrip_hd _ _ _ _ F) as Hy.
      cbn [rev] in E. rewrite <- E, last_last. exact Hy.
Qed.

Lemma last_nonempty_default (x : char) (t : str) (d d' : char) :
  last (x :: t) d = last (x :: t) d'.
Proof.
  revert x. induction t as [|y t IH]; intros x; [reflexivity|].
  change (last (x :: y :: t) d) with (last (y :: t) d).
  change (last (x :: y :: t) d') with (last (y :: t) d'). apply IH.
Qed.

(** X15. The comment of a record is empty or neither starts nor ends
    with a newline. *)
Theorem comment_newline_free_ends (fs : FileSystem) (folder : str)
  (r : GalleryInfoParser) :
  parse_galleryinfo fs folder = Ok r ->
  galleries_comments r = [] \/
  (hd NL (galleries_comments r) <> NL /\ last (galleries_comments r) NL <> NL).
Proof.
  intros Hr. apply parse_galleryinfo_inv in Hr
    as (lines & fl & g & mt & v & _ & _ & _ & _ & _ & Ha).
  apply assemble_ok in Ha as (_ & -> & _).
  pose proof (strip_with_ends (fun c => existsb (N.eqb c) [NL])
                (join [NL] (comment_lines v))) as H.
  unfold strip_chars.
  destruct (strip_with _ (join [NL] (comment_lines v))) as [|x t]; [now left|].
  right. destruct H as (H1 & H2). cbn [hd]. split.
  - intros ->. discriminate H1.
  - intros F. rewrite (last_nonempty_default x t NL x) in F.
    rewrite F in H2. discriminate H2.
Qed.

Lemma comment_newline_free_ends_witness :
  galleries_comments sample_parsed = [] \/
  (hd NL (galleries_comments sample_parsed) <> NL /\
   last (galleries_comments sample_parsed) NL <> NL).
Proof.
  apply (comment_newline_free_ends
           (fs_gallery (text_of_lines sample_lines) sample_names) sample_folder).
  vm_compute. reflexivity.
Defined.

(** ** The text of the sidecar *)

(** X16. Newlines before and after the text of the sidecar do not
    matter: the file with them is parsed as the file without them. *)
Theorem outer_newlines_irrelevant (fs fs' : FileSystem) (folder text a b : str) :
  forallb (fun c => N.eqb c NL) a = true ->
  forallb (fun c => N.eqb c NL) b = true ->
  read_text fs (path_join folder (lit "galleryinfo.txt")) = Ok text ->
  read_text fs' (path_join folder (lit "galleryinfo.txt")) = Ok (a ++ text ++ b) ->
  listdir fs' folder = listdir fs folder ->
  getmtime fs' (path_join folder (lit "galleryinfo.txt")) =
    getmtime fs (path_join folder (lit "galleryinfo.txt")) ->
  parse_galleryinfo fs' folder = parse_galleryinfo fs folder.
Proof.
  intros Ha Hb Hr Hr' Hl Hm.
  assert (P : forall ws, forallb (fun c => N.eqb c NL) ws = true ->
                forallb (fun c => existsb (N.eqb c) [NL]) ws = true).
  { intros ws H. rewrite forallb_forall in *. intros x Hx.
    simpl. now rewrite (H x Hx). }
  unfold parse_galleryinfo. rewrite Hr, Hr', Hl, Hm. cbn [bind].
  unfold strip_chars.
  rewrite strip_all by now apply P.
  rewrite strip_all_right by now apply P. reflexivity.
Qed.

Lemma outer_newlines_irrelevant_witness :
  parse_galleryinfo
    (fs_gallery ([NL; NL] ++ text_of_lines sample_lines ++ [NL]) sample_names)
    sample_folder =
  parse_galleryinfo (fs_gallery (text_of_lines sample_lines) sample_names)
    sample_folder.
Proof.
  apply (outer_newlines_irrelevant
           (fs_gallery (text_of_lines sample_lines) sample_names)
           (fs_gallery ([NL; NL] ++ text_of_lines sample_lines ++ [NL]) sample_names)
           sample_folder (text_of_lines sample_lines) [NL; NL] [NL]);
    reflexivity.
Defined.

Lemma join_ends (sep : str) (lines : list str) :
  lines <> [] -> last lines [] <> [] ->
  exists s y, join sep lines = s ++ [y] /\ In y (last lines []).
Proof.
  induction lines as [|p lines IH]; [congruence|]. intros _ Hl.
  destruct lines as [|q lines].
  - cbn [last] in *. destruct (exists_last Hl) as (s & y & ->).
    exists s, y. split; [reflexivity|]. apply in_or_app. right. now left.
  - destruct IH as (s & y & E & Hy); [discriminate|exact Hl|].
    change (join sep (p :: q :: lines)) with (p ++ sep ++ join sep (q :: lines)).
    rewrite E. exists (p ++ sep ++ s), y.
    split; [now rewrite <- !app_assoc|exact Hy].
Qed.

Lemma join_head (sep : str) (x : char) (first : str) (rest : list str) :
  exists t, join sep ((x :: first) :: rest) = x :: t.
Proof. destruct rest; simpl; eexists; reflexivity. Qed.

(** X17. Lines free of newline, the first and the last not empty,
    written one per line are read back as they are by the split of
    [parse_galleryinfo]. *)
Theorem written_lines_read_back (fs : FileSystem) (folder : str)
  (lines : list str) :
  read_text fs (path_join folder (lit "galleryinfo.txt")) =
    Ok (text_of_lines lines) ->
  Forall (fun l => ~ In NL l) lines ->
  hd [] lines <> [] -> last lines [] <> [] ->
  sidecar_lines fs folder = Ok lines.
Proof.
  intros Hr Hn Hh Hl. unfold sidecar_lines. rewrite Hr. cbn [bind]. f_equal.
  destruct lines as [|[|x first] rest]; [now destruct Hh|now destruct Hh|].
  set (ls := (x :: first) :: rest) in *.
  set (p := fun c : char => existsb (N.eqb c) [NL]).
  assert (Np : forall l c, In l ls -> In c l -> p c = false).
  { intros l c Hl' Hc. rewrite Forall_forall in Hn. specialize (Hn l Hl').
    unfold p. simpl. destruct (N.eqb_spec c NL) as [->|]; [contradiction|reflexivity]. }
  destruct (join_head [NL] x first rest) as (t & Eh).
  destruct (join_ends [NL] ls) as (s & y & Ee & Hy); [discriminate|exact Hl|].
  assert (S : strip_chars [NL] (text_of_lines ls) = join [NL] ls).
  { unfold strip_chars, text_of_lines. fold p.
    rewrite strip_all_right by reflexivity.
    unfold strip_with. fold ls in Eh. rewrite Eh, lstrip_head.
    - rewrite <- Eh, Ee. apply rstrip_last.
      apply (Np (last ls [])); [apply last_In; discriminate|exact Hy].
    - apply (Np (x :: first)); now left. }
  change (split NL (strip_chars [NL] (text_of_lines ls)) = ls).
  rewrite S.
  pose proof (split_join_pad NL [] rest (x :: first) Hn (fun F => F)) as E.
  etransitivity; [exact E|]. unfold ls. f_equal.
  rewrite <- (map_id rest) at 2. now apply map_ext.
Qed.

Lemma written_lines_read_back_witness :
  sidecar_lines (fs_gallery (text_of_lines sample_lines) sample_names)
    sample_folder = Ok sample_lines.
Proof.
  apply written_lines_read_back.
  - reflexivity.
  - repeat constructor; vm_compute; intuition discriminate.
  - discriminate.
  - discriminate.
Defined.

(** ** The page count *)

Lemma filter_length_permutation (A : Type) (f : A -> bool) (l l' : list A) :
  Permutation l l' -> List.length (filter f l) = List.length (filter f l').
Proof.
  induction 1 as [|x l l' _ IH|x y l|l l' l'' _ IH1 _ IH2]; simpl.
  - reflexivity.
  - destruct (f x); simpl; now rewrite IH.
  - destruct (f x), (f y); reflexivity.
  - now rewrite IH1.
Qed.

(** X19. The count of regular files does not depend on the order in
    which the system lists the directory. *)
Theorem count_independent_of_order (fs fs' : FileSystem) (dir : str)
  (names names' : list str) :
  listdir fs dir = Ok names -> listdir fs' dir = Ok names' ->
  Permutation names names' ->
  (forall path, isfile fs' path = isfile fs path) ->
  count_files_in_directory fs' dir = count_files_in_directory fs dir.
Proof.
  intros H H' P F. unfold count_files_in_directory. rewrite H, H'. cbn [bind].
  do 2 f_equal.
  rewrite (filter_length_permutation _ _ names names' P).
  f_equal. apply filter_ext. intros a. now rewrite F.
Qed.

Lemma count_independent_of_order_witness :
  count_files_in_directory (fs_listing [lit "1.jpg"; lit "galleryinfo.txt"])
    sample_folder =
  count_files_in_directory (fs_listing [lit "galleryinfo.txt"; lit "1.jpg"])
    sample_folder.
Proof.
  apply (count_independent_of_order
           (fs_listing [lit "galleryinfo.txt"; lit "1.jpg"])
           (fs_listing [lit "1.jpg"; lit "galleryinfo.txt"]) sample_folder
           [lit "galleryinfo.txt"; lit "1.jpg"] [lit "1.jpg"; lit "galleryinfo.txt"]).
  - reflexivity.
  - reflexivity.
  - apply perm_swap.
  - reflexivity.
Defined.

(** X20. The first value of [pages] lies between -1 and the number of
    entries of the folder minus 1, and it is -1 exactly when no entry is a
    regular file. *)
Theorem pages_first_value (fs : FileSystem) (self : GalleryInfoParser)
  (names : list str) :
  _pages self = (-1)%Z ->
  listdir fs (gallery_folder self) = Ok names ->
  exists v self',
    pages fs self = Ok (v, self') /\
    (-1 <= v < Z.of_nat (List.length names))%Z /\
    (v = (-1)%Z <->
     forall name, In name names ->
                  isfile fs (path_join (gallery_folder self) name) = false).
Proof.
  intros Hf Hl.
  set (f := fun name => isfile fs (path_join (gallery_folder self) name)).
  exists (Z.of_nat (List.length (filter f names)) - 1)%Z.
  exists (set_pages self (Z.of_nat (List.length (filter f names)) - 1)).
  split; [|split].
  - unfold pages, count_files_in_directory. rewrite Hf, Hl. reflexivity.
  - pose proof (filter_length_le f names). lia.
  - split.
    + intros E name Hn. destruct (f name) eqn:Ef; [|exact Ef].
      assert (In name (filter f names)) by (apply filter_In; tauto).
      destruct (filter f names); [contradiction|].
      cbn [List.length] in E. lia.
    + intros H. assert (E : filter f names = []).
      { destruct (filter f names) as [|x l] eqn:E; [reflexivity|].
        assert (Hx : In x (filter f names)) by (rewrite E; now left).
        apply filter_In in Hx as [Hx Fx]. unfold f in Fx.
        rewrite (H x Hx) in Fx. discriminate Fx. }
      rewrite E. reflexivity.
Qed.

(** X21. [pages] raises an exception exactly when nothing is cached and
    listing the folder raises it. *)
Theorem pages_raises_iff (fs : FileSystem) (self : GalleryInfoParser)
  (e : exception) :
  pages fs self = Raise e <->
  _pages self = (-1)%Z /\ listdir fs (gallery_folder self) = Raise e.
Proof.
  unfold pages, count_files_in_directory.
  destruct (Z.eqb_spec (_pages self) (-1)) as [E|E].
  - destruct (listdir fs (gallery_folder self)) as [names|e']; cbn [bind].
    + split; [discriminate|intros [_ H]; discriminate H].
    + split; [intros H; injection H as ->; tauto|].
      intros [_ H]. injection H as ->. reflexivity.
  - split; [discriminate|tauto].
Qed.

Lemma pages_first_value_witness :
  exists v self',
    pages (fs_listing sample_names) sample_record = Ok (v, self') /\
    (-1 <= v < Z.of_nat (List.length sample_names))%Z /\
    (v = (-1)%Z <->
     forall name, In name sample_names ->
                  isfile (fs_listing sample_names)
                    (path_join (gallery_folder sample_record) name) = false).
Proof.
  apply (pages_first_value (fs_listing sample_names) sample_record sample_names);
    reflexivity.
Defined.

(** ** Timestamps *)

Lemma decimal_spec (c : char) (k : N) :
  decimal c = Some k ->
  exists z, In z decimal_zeros /\ (z <= c)%N /\ (c < z + 10)%N /\ k = (c - z)%N.
Proof.
  unfold decimal.
  destruct (find (fun z => (z <=? c) && (c <? z + 10))%N decimal_zeros) as [z|] eqn:F;
    [|discriminate].
  intros H. injection H as <-. apply find_some in F as (Hz & Hc).
  apply andb_true_iff in Hc as (H1 & H2).
  apply N.leb_le in H1. apply N.ltb_lt in H2. now exists z.
Qed.

Lemma decimal_not_int_space (c : char) (k : N) :
  decimal c = Some k -> int_isspace c = false.
Proof.
  intros H. destruct (decimal_spec c k H) as (z & Hz & H1 & H2 & _).
  assert (T : forallb (fun z => forallb (fun i => negb (int_isspace (z + i)%N))
                                 [0; 1; 2; 3; 4; 5; 6; 7; 8; 9]%N)
                decimal_zeros = true) by (vm_compute; reflexivity).
  rewrite forallb_forall in T. specialize (T z Hz).
  rewrite forallb_forall in T. specialize (T (c - z)%N).
  replace (z + (c - z))%N with c in T by lia.
  apply negb_true_iff, T.
  assert (L : (c - z < N.of_nat 10)%N) by lia. revert L.
  generalize (c - z)%N.
  refine (all_below_elim 10 (fun i => In i _) _). simpl. tauto.
Qed.

Lemma int_digits_decimals (cs : str) (ks : list N) (acc : Z) :
  Forall2 (fun c k => decimal c = Some k) cs ks ->
  int_digits acc false cs =
  Some (fold_left (fun a d => (10 * a + Z.of_N d)%Z) ks acc).
Proof.
  intros H. revert acc. induction H as [|c k cs ks Hc _ IH]; intros acc.
  - reflexivity.
  - cbn [int_digits fold_left].
    destruct (N.eqb_spec c (ch "_")) as [->|_]; [discriminate Hc|].
    rewrite Hc. apply IH.
Qed.

(** The value [int] gives to a string of decimal digits of any script. *)
Lemma int_literal_decimals (cs : str) (ks : list N) :
  cs <> [] -> Forall2 (fun c k => decimal c = Some k) cs ks ->
  (N.of_nat (List.length cs) <= int_max_str_digits)%N ->
  int_literal cs = Some (digits_value ks).
Proof.
  intros Hne H Hlen. unfold int_literal. rewrite strip_with_fixed.
  - destruct H as [|c k cs ks Hc H]; [congruence|].
    destruct (N.eqb_spec c (ch "+")) as [->|_]; [discriminate Hc|].
    destruct (N.eqb_spec c (ch "-")) as [->|_]; [discriminate Hc|].
    unfold int_unsigned.
    destruct (N.eqb_spec c (ch "_")) as [->|_]; [discriminate Hc|].
    rewrite within_digit_limit by assumption.
    apply int_digits_decimals. now constructor.
  - intros c Hc. clear Hne Hlen. induction H as [|c' k cs ks Hd _ IH]; [destruct Hc|].
    destruct Hc as [<-|Hc]; [now apply (decimal_not_int_space c' k)|now apply IH].
Qed.

Lemma decimal_bound (c : char) (k : N) : decimal c = Some k -> (k < 10)%N.
Proof. intros H. destruct (decimal_spec c k H) as (z & _ & ? & ? & ->). lia. Qed.

Lemma decimal_ascii_range (c : char) :
  (48 <= c <= 57)%N -> decimal c = Some (c - 48)%N.
Proof.
  intros H. replace c with (48 + (c - 48))%N at 1 by lia.
  apply decimal_ascii. lia.
Qed.

Lemma re_set_In (p : char -> bool) (s g r : str) :
  In (g, r) (re_set p s) -> exists x, g = [x] /\ p x = true /\ s = x :: r.
Proof.
  unfold re_set. destruct s as [|x s]; [intros []|].
  destruct (p x) eqn:E; [|intros []].
  intros [H|[]]. injection H as <- <-. now exists x.
Qed.

Lemma re_seq_In (r1 r2 : matcher) (s g r : str) :
  In (g, r) (re_seq r1 r2 s) ->
  exists g1 s1 g2, In (g1, s1) (r1 s) /\ In (g2, r) (r2 s1) /\ g = g1 ++ g2.
Proof.
  unfold re_seq. intros H. apply in_flat_map in H as ([g1 s1] & H1 & H).
  apply in_map_iff in H as ([g2 s2] & E & H2). injection E as <- <-.
  now exists g1, s1, g2.
Qed.

Lemma re_alt_In (r1 r2 : matcher) (s g r : str) :
  In (g, r) (re_alt r1 r2 s) -> In (g, r) (r1 s) \/ In (g, r) (r2 s).
Proof. unfold re_alt. apply in_app_or. Qed.

Lemma re_digit_In (s g r : str) :
  In (g, r) (re_digit s) -> exists d k, g = [d] /\ decimal d = Some k.
Proof.
  intros H. apply re_set_In in H as (d & -> & H & _).
  destruct (decimal d) as [k|] eqn:E; [|discriminate]. now exists d, k.
Qed.

Lemma re_range_In (lo hi : char) (s g r : str) :
  In (g, r) (re_range lo hi s) -> exists x, g = [x] /\ (lo <= x <= hi)%N.
Proof.
  intros H. apply re_set_In in H as (x & -> & H & _).
  apply andb_true_iff in H as (H1 & H2).
  apply N.leb_le in H1, H2. exists x. split; [reflexivity|lia].
Qed.

Lemma re_char_In (c : char) (s g r : str) :
  In (g, r) (re_char c s) -> g = [c].
Proof.
  intros H. apply re_set_In in H as (x & -> & H & _).
  apply N.eqb_eq in H. now subst.
Qed.

(** A tens digit in an ASCII range followed by any decimal digit. *)
Lemma int_two_decimals (a d : char) (k : N) (lo hi : N) :
  (48 + lo <= a <= 48 + hi)%N -> (hi < 10)%N -> decimal d = Some k ->
  exists z, int_literal [a; d] = Some z /\
            (10 * Z.of_N lo <= z < 10 * Z.of_N hi + 10)%Z.
Proof.
  intros Ha Hh Hd.
  exists (digits_value [(a - 48)%N; k]). split.
  - apply int_literal_decimals; [discriminate| |cbv; discriminate].
    repeat constructor; [apply decimal_ascii_range; lia|exact Hd].
  - apply decimal_bound in Hd. unfold digits_value. cbn [fold_left]. lia.
Qed.

Lemma int_one_decimal (d : char) (k : N) :
  decimal d = Some k ->
  exists z, int_literal [d] = Some z /\ (0 <= z < 10)%Z.
Proof.
  intros Hd. exists (digits_value [k]). split.
  - apply int_literal_decimals; [discriminate| |cbv; discriminate]. now repeat constructor.
  - apply decimal_bound in Hd. unfold digits_value. cbn [fold_left]. lia.
Qed.

Lemma re_H_value (s g r : str) :
  In (g, r) (re_H s) -> exists z, int_literal g = Some z /\ (0 <= z < 24)%Z.
Proof.
  unfold re_H. intros H.
  apply re_alt_In in H as [H|H]; [|apply re_alt_In in H as [H|H]].
  - apply re_seq_In in H as (g1 & s1 & g2 & H1 & H2 & ->).
    apply re_char_In in H1 as ->. apply re_range_In in H2 as (x & -> & Hx).
    cbv [ch N_of_ascii N_of_digits] in Hx. simpl in Hx.
    exists (digits_value [2%N; (x - 48)%N]). split.
    + apply int_literal_decimals; [discriminate| |cbv; discriminate].
      repeat constructor. apply decimal_ascii_range. lia.
    + unfold digits_value. cbn [fold_left]. lia.
  - apply re_seq_In in H as (g1 & s1 & g2 & H1 & H2 & ->).
    apply re_range_In in H1 as (a & -> & Ha).
    apply re_digit_In in H2 as (d & k & -> & Hd).
    cbv [ch N_of_ascii N_of_digits] in Ha. simpl in Ha.
    destruct (int_two_decimals a d k 0 1) as (z & Hz & Bz); [lia|lia|exact Hd|].
    exists z. split; [exact Hz|lia].
  - apply re_digit_In in H as (d & k & -> & Hd).
    destruct (int_one_decimal d k Hd) as (z & Hz & Bz).
    exists z. split; [exact Hz|lia].
Qed.

Lemma re_M_value (s g r : str) :
  In (g, r) (re_M s) -> exists z, int_literal g = Some z /\ (0 <= z < 60)%Z.
Proof.
  unfold re_M. intros H. apply re_alt_In in H as [H|H].
  - apply re_seq_In in H as (g1 & s1 & g2 & H1 & H2 & ->).
    apply re_range_In in H1 as (a & -> & Ha).
    apply re_digit_In in H2 as (d & k & -> & Hd).
    cbv [ch N_of_ascii N_of_digits] in Ha. simpl in Ha.
    destruct (int_two_decimals a d k 0 5) as (z & Hz & Bz); [lia|lia|exact Hd|].
    exists z. split; [exact Hz|lia].
  - apply re_digit_In in H as (d & k & -> & Hd).
    destruct (int_one_decimal d k Hd) as (z & Hz & Bz).
    exists z. split; [exact Hz|lia].
Qed.

Lemma format_regex_groups (s rest : str) (found : groups) :
  In (found, rest) (format_regex s) ->
  (exists s1 r1, In (group_H found, r1) (re_H s1)) /\
  (exists s2 r2, In (group_M found, r2) (re_M s2)).
Proof.
  unfold format_regex. intros H.
  apply in_flat_map in H as ([gY s0] & _ & H).
  apply in_flat_map in H as ([x1 s1] & _ & H).
  apply in_flat_map in H as ([gm s2] & _ & H).
  apply in_flat_map in H as ([x2 s3] & _ & H).
  apply in_flat_map in H as ([gd s4] & _ & H).
  apply in_flat_map in H as ([x3 s5] & _ & H).
  apply in_flat_map in H as ([gH s6] & HH & H).
  apply in_flat_map in H as ([x4 s7] & _ & H).
  apply in_map_iff in H as ([gM s8] & E & HM).
  injection E as <- <-. cbn [group_H group_M].
  split; [now exists s5, s6|now exists s7, s8].
Qed.

Lemma strptime_result_valid (s : str) (d : datetime) :
  strptime s = Ok d -> valid_datetime d = true.
Proof.
  unfold strptime.
  destruct (format_regex s) as [|[found rest] others] eqn:F; [discriminate|].
  destruct (negb (str_eqb rest [])); [discriminate|].
  assert (I : In (found, rest) (format_regex s)) by (rewrite F; now left).
  destruct (format_regex_groups s rest found I)
    as ((s1 & r1 & HH) & (s2 & r2 & HM)).
  apply re_H_value in HH as (zh & Eh & Bh).
  apply re_M_value in HM as (zm & Em & Bm).
  unfold int. rewrite Eh, Em.
  destruct (int_literal (group_Y found)) as [y|]; [|discriminate].
  destruct (int_literal (group_m found)) as [m|]; [|discriminate].
  destruct (int_literal (group_d found)) as [dd|]; [|discriminate].
  cbn [bind]. destruct (valid_date y m dd) eqn:V; [|discriminate].
  intros H. injection H as <-. unfold valid_datetime. cbn [year month day hour minute].
  rewrite V. cbn [andb].
  repeat (apply andb_true_iff; split); try (apply Z.leb_le; lia);
    apply Z.ltb_lt; lia.
Qed.

Lemma record_timestamps_valid (fs : FileSystem) (folder : str)
  (r : GalleryInfoParser) :
  parse_galleryinfo fs folder = Ok r ->
  valid_datetime (upload_time r) = true /\
  valid_datetime (download_time r) = true.
Proof.
  intros Hr.
  destruct (parse_galleryinfo_inv fs folder r Hr)
    as (lines & fl & g & mt & v & Hs & _).
  destruct (record_field_last fs folder lines r FUploadTime Hs Hr) as (_ & H1).
  destruct (record_field_last fs folder lines r FDownloaded Hs Hr) as (_ & H2).
  cbn [convert record_field] in H1, H2.
  destruct (strptime (last (field_values (label FUploadTime) lines) [])) eqn:E1;
    [|discriminate H1].
  destruct (strptime (last (field_values (label FDownloaded) lines) [])) eqn:E2;
    [|discriminate H2].
  cbn [bind] in H1, H2. injection H1 as <-. injection H2 as <-.
  split; eapply strptime_result_valid; eassumption.
Qed.

(** X22. Every timestamp [strptime] returns is a valid date and time of
    day, so the upload and download times of a record are. *)
Theorem timestamps_valid :
  (forall s d, strptime s = Ok d -> valid_datetime d = true) /\
  (forall fs folder r,
      parse_galleryinfo fs folder = Ok r ->
      valid_datetime (upload_time r) = true /\
      valid_datetime (download_time r) = true).
Proof. split; [exact strptime_result_valid|exact record_timestamps_valid]. Qed.

Lemma timestamps_valid_witness :
  valid_datetime (upload_time sample_parsed) = true /\
  valid_datetime (download_time sample_parsed) = true.
Proof.
  apply (proj2 timestamps_valid
           (fs_gallery (text_of_lines sample_lines) sample_names) sample_folder).
  vm_compute. reflexivity.
Defined.

(** ** Errors *)

Lemma assemble_raises (folder : str) (g : Z) (fl : list str) (mt : Z)
  (v : locals) (e : exception) :
  assemble folder g fl mt v = Raise e ->
  exists name,
    In name (missing_names ++ ["tags"%string]) /\ e = UnboundLocalError name.
Proof.
  unfold assemble, missing_names.
  destruct (title_var v); cbn [load bind];
    [|intros H; injection H as <-; eexists; split; [|reflexivity]; simpl; tauto].
  destruct (upload_time_var v); cbn [load bind];
    [|intros H; injection H as <-; eexists; split; [|reflexivity]; simpl; tauto].
  destruct (upload_account_var v); cbn [load bind];
    [|intros H; injection H as <-; eexists; split; [|reflexivity]; simpl; tauto].
  destruct (download_time_var v); cbn [load bind];
    [|intros H; injection H as <-; eexists; split; [|reflexivity]; simpl; tauto].
  destruct (tags_var v); cbn [load bind];
    [discriminate|intros H; injection H as <-; eexists; split; [|reflexivity];
                  simpl; tauto].
Qed.

(** X23. [parse_galleryinfo] raises nothing but what reading the
    sidecar, listing the folder or asking its modification time raises,
    [ValueError], and [UnboundLocalError] on one of its five variables. *)
Theorem parse_galleryinfo_errors (fs : FileSystem) (folder : str)
  (e : exception) :
  parse_galleryinfo fs folder = Raise e ->
  read_text fs (path_join folder (lit "galleryinfo.txt")) = Raise e \/
  e = ValueError \/
  listdir fs folder = Raise e \/
  getmtime fs (path_join folder (lit "galleryinfo.txt")) = Raise e \/
  exists name,
    In name ["title"; "upload_time"; "upload_account"; "download_time";
             "tags"]%string /\
    e = UnboundLocalError name.
Proof.
  unfold parse_galleryinfo.
  destruct (read_text fs _) as [text|e1]; cbn [bind];
    [|intros H; injection H as <-; now left].
  destruct (parse_gid folder) as [g|e2] eqn:G; cbn [bind];
    [|intros H; injection H as <-; right; left; now apply (parse_gid_raises folder)].
  destruct (listdir fs folder) as [fl|e3]; cbn [bind];
    [|intros H; injection H as <-; tauto].
  destruct (getmtime fs _) as [mt|e4]; cbn [bind];
    [|intros H; injection H as <-; tauto].
  pose proof (for_lines_header (split NL (strip_chars [NL] text)) initial_locals
                eq_refl) as F.
  destruct (for_lines initial_locals _) as [v|e5]; cbn [bind].
  - intros H. change (assemble folder g fl mt v = Raise e) in H.
    apply assemble_raises in H. tauto.
  - intros H. injection H as <-. destruct F as (-> & _). tauto.
Qed.

Lemma parse_galleryinfo_errors_witness :
  read_text (fs_gallery (text_of_lines lines_no_tags) sample_names)
    (path_join sample_folder (lit "galleryinfo.txt")) =
    Raise (UnboundLocalError "tags") \/
  UnboundLocalError "tags" = ValueError \/
  listdir (fs_gallery (text_of_lines lines_no_tags) sample_names) sample_folder =
    Raise (UnboundLocalError "tags") \/
  getmtime (fs_gallery (text_of_lines lines_no_tags) sample_names)
    (path_join sample_folder (lit "galleryinfo.txt")) =
    Raise (UnboundLocalError "tags") \/
  exists name,
    In name ["title"; "upload_time"; "upload_account"; "download_time";
             "tags"]%string /\
    UnboundLocalError "tags" = UnboundLocalError name.
Proof.
  apply (parse_galleryinfo_errors
           (fs_gallery (text_of_lines lines_no_tags) sample_names) sample_folder).
  vm_compute. reflexivity.
Defined.
